(** * markdown-grid: the grid preprocessor of [mdx_grid.py]

    A shallow embedding of the marker patterns, the argument parser, the
    structural parser, the style propagator and the marker rewriter of
    [mdx_grid.py], with the properties the specification states about them.

    Conventions of the embedding.
    - Text is a list of 8-bit characters read as the code points
      U+0000..U+00FF; the semantics followed is the one of Python 3
      ([str], [re] on [str] patterns, insertion-ordered [dict]).
    - A Python exception is a value of [exn]; a computation that may raise
      returns a [result].
    - A [dict] keyed by line numbers is a [gmap Z]; a loop over a [dict]
      visits [map_to_list] of it, and what is proved of such a loop does not
      depend on the order of the visit.  A list of lines is a Rocq list
      indexed with stdpp's lookup and insert, with Python's range check and
      negative indices written out.
    - The commands [parse_markers] creates are fresh objects, one for each
      place of a sequence, so a command is modelled by its value. *)

From Stdlib Require Import ZArith Ascii String Bool.
From stdpp Require Import gmap strings list fin_maps.

Local Open Scope Z_scope.

(** ** Text *)

Abbreviation text := (list ascii).

(** A string literal of the source. *)
Definition T (s : string) : text := list_ascii_of_string s.

Definition code (c : ascii) : N := N_of_ascii c.

Definition chr_eqb (a b : ascii) : bool := Ascii.eqb a b.

Definition newline : ascii := "010"%char.

(** [str.isspace] on a single character, which is also the class [\s] of a
    [str] pattern: TAB, LF, VT, FF, CR, FS, GS, RS, US, SPACE, NEL, NBSP. *)
Definition is_space (c : ascii) : bool :=
  let n := code c in
  ((9 <=? n) && (n <=? 13))%N || ((28 <=? n) && (n <=? 32))%N
  || (n =? 133)%N || (n =? 160)%N.

(** The class [\d]: among the first 256 code points the decimal digits are
    the ASCII ones. *)
Definition is_digit (c : ascii) : bool :=
  let n := code c in ((48 <=? n) && (n <=? 57))%N.

Definition in_range (lo hi c : ascii) : bool :=
  ((code lo <=? code c) && (code c <=? code hi))%N.

(** Case mapping of the ASCII letters.  The patterns of [mdx_grid.py] name
    no letter outside ASCII, so the case of other letters never decides a
    match. *)
Definition lower (c : ascii) : ascii :=
  if in_range "A" "Z" c then ascii_of_N (code c + 32) else c.

Definition upper (c : ascii) : ascii :=
  if in_range "a" "z" c then ascii_of_N (code c - 32) else c.

(** [str.lower] on one of the first 256 code points: the ASCII capitals
    and the capitals U+00C0..U+00DE without the sign U+00D7. *)
Definition py_lower (c : ascii) : ascii :=
  let n := code c in
  if ((65 <=? n) && (n <=? 90))%N
     || (((192 <=? n) && (n <=? 222))%N && negb (n =? 215)%N)
  then ascii_of_N (n + 32) else c.

Fixpoint text_eqb (a b : text) : bool :=
  match a, b with
  | [], [] => true
  | x :: a', y :: b' => chr_eqb x y && text_eqb a' b'
  | _, _ => false
  end.

(** [s.split(sep)] for a one-character separator: empty fields are kept
    and the result is never empty. *)
Fixpoint split_on (sep : ascii) (s : text) : list text :=
  match s with
  | [] => [[]]
  | c :: s' =>
      if chr_eqb c sep then [] :: split_on sep s'
      else match split_on sep s' with
           | w :: ws => (c :: w) :: ws
           | [] => [[c]]
           end
  end.

(** [s.split()]: the maximal runs of non-space characters; [w] is the word
    being read. *)
Fixpoint split_ws (w : text) (s : text) : list text :=
  match s with
  | [] => match w with [] => [] | _ => [w] end
  | c :: s' =>
      if is_space c
      then match w with [] => split_ws [] s' | _ => w :: split_ws [] s' end
      else split_ws (w ++ [c]) s'
  end.

Definition py_split (s : text) : list text := split_ws [] s.

(** [sep.join(ws)]. *)
Fixpoint join (sep : text) (ws : list text) : text :=
  match ws with
  | [] => []
  | [w] => w
  | w :: ws' => w ++ sep ++ join sep ws'
  end.

(** ** Exceptions and dynamic values *)

Inductive exn :=
  | AttributeError (name : string)   (* no such attribute *)
  | KeyError (key : Z)               (* no such key in a dict of line numbers *)
  | KeyErrorStr (key : string)       (* no such key in a dict of names *)
  | IndexError
  | TypeError.

Inductive result (A : Type) :=
  | Ok (a : A)
  | Raise (e : exn).

Arguments Ok {A} a.
Arguments Raise {A} e.

Definition bind {A B} (m : result A) (k : A -> result B) : result B :=
  match m with
  | Ok a => k a
  | Raise e => Raise e
  end.

Notation "x <- m ;; k" := (bind m (fun x => k))
  (at level 100, m at next level, right associativity).

Definition is_ok {A} (m : result A) : bool :=
  match m with Ok _ => true | Raise _ => false end.

(** The values a profile name, a default style or a [style] attribute can
    hold: [None] or a [str]. *)
Inductive pyval :=
  | PyNone
  | PyStr (s : text).

(** [str(v)], also what [%s] prints. *)
Definition py_str (v : pyval) : text :=
  match v with
  | PyNone => T "None"
  | PyStr s => s
  end.

(** Truth value of [v]. *)
Definition truthy (v : pyval) : bool :=
  match v with
  | PyNone => false
  | PyStr [] => false
  | PyStr _ => true
  end.

(** The objects found in the class namespaces. *)
#[local] Set Warnings "-register-all".
Inductive pyobj :=
  | OStr (s : text)
  | ONone
  | OList (l : list pyobj)
  | ODict (d : list (string * pyobj))
  | OFunc.

(** [v == o] for [v] a [pyval]. *)
Definition py_eq (v : pyval) (o : pyobj) : bool :=
  match v, o with
  | PyNone, ONone => true
  | PyStr a, OStr b => text_eqb a b
  | _, _ => false
  end.

Fixpoint assoc (k : string) (d : list (string * pyobj)) : option pyobj :=
  match d with
  | [] => None
  | (k', o) :: d' => if String.eqb k k' then Some o else assoc k d'
  end.

(** [o[key]] for a string key. *)
Definition subscript_str (o : pyobj) (key : string) : result pyobj :=
  match o with
  | ODict d => match assoc key d with
               | Some v => Ok v
               | None => Raise (KeyErrorStr key)
               end
  | _ => Raise TypeError
  end.

(** [o[0]]. *)
Definition subscript_0 (o : pyobj) : result pyobj :=
  match o with
  | OList (x :: _) => Ok x
  | OList [] => Raise IndexError
  | OStr (c :: _) => Ok (OStr [c])
  | OStr [] => Raise IndexError
  | ODict _ => Raise (KeyError 0)
  | _ => Raise TypeError
  end.

(** ** Regular expressions

    The patterns of the module use anchors, literals, character sets,
    greedy repetition of a one-character set, an optional group and
    capturing groups.  [backtrack] is the backtracking matcher of [re]: every
    choice is tried in Python's order (greedy first) against the
    continuation [k], so the first success is the match [re] reports. *)

Record flags := { ignorecase : bool; multiline : bool }.

(** Members of a character set. *)
Inductive item :=
  | ILit (c : ascii)
  | IRange (lo hi : ascii)
  | ISpace
  | IDigit.

Inductive regex :=
  | Eps
  | Bol                          (* ^ *)
  | Eol                          (* $ *)
  | Lit (c : ascii)
  | Cls (items : list item)      (* [...], \s, \d *)
  | Star (items : list item)     (* x* for a one-character x *)
  | Cat (r1 r2 : regex)
  | Opt (r : regex)              (* (...)? *)
  | Grp (n : nat) (r : regex).   (* capturing group number n *)

(** The state of a match attempt: [pos] characters are consumed, [prev] is
    the last of them, [rest] is what follows, [caps] holds the spans of
    the groups closed so far, the latest first. *)
Record mstate := {
  pos : nat;
  prev : option ascii;
  rest : text;
  caps : list (nat * (nat * nat))
}.

Definition advance (st : mstate) (c : ascii) (s : text) : mstate :=
  {| pos := S (pos st); prev := Some c; rest := s; caps := caps st |}.

Definition set_cap (n start : nat) (st : mstate) : mstate :=
  {| pos := pos st; prev := prev st; rest := rest st;
     caps := (n, (start, pos st)) :: caps st |}.

(** Under IGNORECASE a character matches a literal when both have the same
    lower case, and matches a range when one of its two cases lies in it. *)
Definition lit_match (fl : flags) (x c : ascii) : bool :=
  if ignorecase fl then chr_eqb (lower c) (lower x) else chr_eqb c x.

Definition item_match (fl : flags) (i : item) (c : ascii) : bool :=
  match i with
  | ILit x => lit_match fl x c
  | IRange lo hi =>
      if ignorecase fl
      then in_range lo hi (lower c) || in_range lo hi (upper c)
      else in_range lo hi c
  | ISpace => is_space c
  | IDigit => is_digit c
  end.

Definition cls_match (fl : flags) (items : list item) (c : ascii) : bool :=
  existsb (fun i => item_match fl i c) items.

(** [^]: the start of the string and, under MULTILINE, after a newline;
    [pv] is the character before the position. *)
Definition bol (fl : flags) (pv : option ascii) : bool :=
  match pv with
  | None => true
  | Some c => multiline fl && chr_eqb c newline
  end.

(** [$]: the end of the string, before a final newline and, under
    MULTILINE, before any newline; [s] is the text from the position on. *)
Definition eol (fl : flags) (s : text) : bool :=
  match s with
  | [] => true
  | c :: s' =>
      chr_eqb c newline && (multiline fl || match s' with [] => true | _ => false end)
  end.

Definition at_bol (fl : flags) (st : mstate) : bool := bol fl (prev st).

Definition at_eol (fl : flags) (st : mstate) : bool := eol fl (rest st).

(** Greedy repetition: take one more character when possible and come back
    to the shorter run when the continuation fails. *)
Fixpoint star (p : ascii -> bool) (s : text) (st : mstate)
    (k : mstate -> option mstate) : option mstate :=
  match s with
  | c :: s' =>
      if p c
      then match star p s' (advance st c s') k with
           | Some r => Some r
           | None => k st
           end
      else k st
  | [] => k st
  end.

Fixpoint backtrack (fl : flags) (r : regex) (st : mstate)
    (k : mstate -> option mstate) : option mstate :=
  match r with
  | Eps => k st
  | Bol => if at_bol fl st then k st else None
  | Eol => if at_eol fl st then k st else None
  | Lit x =>
      match rest st with
      | c :: s => if lit_match fl x c then k (advance st c s) else None
      | [] => None
      end
  | Cls items =>
      match rest st with
      | c :: s => if cls_match fl items c then k (advance st c s) else None
      | [] => None
      end
  | Star items => star (cls_match fl items) (rest st) st k
  | Cat r1 r2 => backtrack fl r1 st (fun st' => backtrack fl r2 st' k)
  | Opt r1 =>
      match backtrack fl r1 st k with
      | Some res => Some res
      | None => k st
      end
  | Grp n r1 => backtrack fl r1 st (fun st' => k (set_cap n (pos st) st'))
  end.

Definition Seq (rs : list regex) : regex := foldr Cat Eps rs.

(** A literal string. *)
Definition Str (s : string) : regex := Seq (map Lit (T s)).

(** [x+]. *)
Definition Plus (items : list item) : regex := Cat (Cls items) (Star items).

Definition ws : list item := [ISpace].
Definition digits : list item := [IDigit].

(** [pattern.match(s)]: a match attempt at the start of [s]. *)
Definition re_match (fl : flags) (r : regex) (s : text) : option mstate :=
  backtrack fl r {| pos := 0; prev := None; rest := s; caps := [] |} Some.

Fixpoint cap_lookup (n : nat) (cs : list (nat * (nat * nat))) : option (nat * nat) :=
  match cs with
  | [] => None
  | (m, span) :: cs' => if Nat.eqb n m then Some span else cap_lookup n cs'
  end.

(** [m.group(n)] of a match [m] on [s]: [None] when the group took no part. *)
Definition group (s : text) (m : mstate) (n : nat) : pyval :=
  match cap_lookup n (caps m) with
  | Some (a, b) => PyStr (take (b - a) (drop a s))
  | None => PyNone
  end.

(** ** Patterns *)

Module Patterns.

Definition re_flags : flags := {| ignorecase := true; multiline := true |}.

(** The set of [row_open], in which [,-_] is a range. *)
Definition row_args : list item :=
  [IRange "a" "z"; IDigit; IRange "," "_"; ILit ":"; ISpace].

(** [row_open], written with blanks between the pieces:
    ^ \s* -- \s* row \s* ( [a-z\d,-_\:\s]* ) \s* -- \s* $  *)
Definition row_open : regex :=
  Seq [Bol; Star ws; Str "--"; Star ws; Str "row"; Star ws;
       Grp 1 (Star row_args); Star ws; Str "--"; Star ws; Eol].

(** [row_close]:  ^ \s* -- \s* end \s* -- \s* $  *)
Definition row_close : regex :=
  Seq [Bol; Star ws; Str "--"; Star ws; Str "end"; Star ws; Str "--";
       Star ws; Eol].

(** [col_sep]:  ^ \s* -- \s* $  *)
Definition col_sep : regex :=
  Seq [Bol; Star ws; Str "--"; Star ws; Eol].

Definition no_flags : flags := {| ignorecase := false; multiline := false |}.

(** [re_spnoff], compiled without flags:
    ^ \s* ( \d+ ) ( \s* \: \s* ( \d+ ) )? \s* $  *)
Definition re_spnoff : regex :=
  Seq [Bol; Star ws; Grp 1 (Plus digits);
       Opt (Grp 2 (Seq [Star ws; Lit ":"; Star ws; Grp 3 (Plus digits)]));
       Star ws; Eol].

(** The commands for the postprocessor:
    ^ \s* row \s* $ ,  ^ \s* endrow \s* $ ,  ^ \s* endcol \s* $  and
    ^ \s* col \s* \( ( [\d\s\:,]+ ) \) \s* $  *)
Definition row_open_cmd : regex := Seq [Bol; Star ws; Str "row"; Star ws; Eol].

Definition row_close_cmd : regex :=
  Seq [Bol; Star ws; Str "endrow"; Star ws; Eol].

Definition col_args : list item := [IDigit; ISpace; ILit ":"; ILit ","].

Definition col_open_cmd : regex :=
  Seq [Bol; Star ws; Str "col"; Star ws; Lit "("; Grp 1 (Plus col_args);
       Lit ")"; Star ws; Eol].

Definition col_close_cmd : regex :=
  Seq [Bol; Star ws; Str "endcol"; Star ws; Eol].

(** The dot: every character but the newline. *)
Definition dot : list item := [IRange "000" "009"; IRange "011" "255"].

(** [tag], the container of a command sequence:
    \s* <!--grid\: ( .* ) --> \s*  *)
Definition tag : regex :=
  Seq [Star ws; Str "<!--grid:"; Grp 1 (Star dot); Str "-->"; Star ws].

End Patterns.

(** [pattern.sub(repl, s)]: the matches are searched from left to right,
    each is replaced by [repl] of it and the search goes on where it ended
    ([skip] counts the characters of the current match still to pass).
    The text between matches is copied.  An empty match is replaced and
    the character after it copied; [re_spnoff] has no empty match. *)
Fixpoint sub_from (fl : flags) (r : regex) (repl : text -> mstate -> text)
    (whole : text) (p : nat) (pv : option ascii) (skip : nat) (s : text) : text :=
  match skip with
  | S n =>
      match s with
      | c :: s' => sub_from fl r repl whole (S p) (Some c) n s'
      | [] => []
      end
  | O =>
      match backtrack fl r {| pos := p; prev := pv; rest := s; caps := [] |} Some with
      | Some m =>
          repl whole m ++
          match s with
          | c :: s' =>
              if (pos m =? p)%nat
              then c :: sub_from fl r repl whole (S p) (Some c) O s'
              else sub_from fl r repl whole (S p) (Some c) (pos m - p - 1) s'
          | [] => []
          end
      | None =>
          match s with
          | c :: s' => c :: sub_from fl r repl whole (S p) (Some c) O s'
          | [] => []
          end
      end
  end.

Definition re_sub (fl : flags) (r : regex) (repl : text -> mstate -> text)
    (s : text) : text :=
  sub_from fl r repl s 0 None 0 s.

(** ** Grid commands *)

Module GridCmd.

(** The four command types, [ROW_OPEN = 0] to [COL_CLOSE = 3]. *)
Inductive t := ROW_OPEN | ROW_CLOSE | COL_OPEN | COL_CLOSE.

Definition eqb (a b : t) : bool :=
  match a, b with
  | ROW_OPEN, ROW_OPEN | ROW_CLOSE, ROW_CLOSE
  | COL_OPEN, COL_OPEN | COL_CLOSE, COL_CLOSE => true
  | _, _ => false
  end.

(** [get_name]; its last branch, for a number that is no command type,
    has no counterpart on [t]. *)
Definition get_name (cmdtype : t) : text :=
  match cmdtype with
  | ROW_OPEN => T "row"
  | ROW_CLOSE => T "endrow"
  | COL_OPEN => T "col"
  | COL_CLOSE => T "endcol"
  end.

End GridCmd.

(** ** Configuration profiles *)

Module GridConf.

Definition DEFAULT_PROFILE : pyobj := OStr (T "bootstrap").

Definition DESCRIPTIONS : pyobj :=
  ODict
    [("name", OStr (T "Configuration profile name"));
     ("row_open", OStr (T "Grid row opening"));
     ("row_close", OStr (T "Grid row closing"));
     ("col_open", OStr (T "Column opening"));
     ("col_close", OStr (T "Column opening"));
     ("col_span_class",
       OStr (T "Column class. {value} marker will be replaced with span/width value from the markup"));
     ("col_offset_class",
       OStr (T "Column offset class. {value} marker will be replaced with span/width value from the markup"));
     ("default_col_class", OStr (T "Default column class"));
     ("common_col_class", OStr (T "Common column class"));
     ("col_class_first", OStr (T "CSS class for the first column in the row"));
     ("col_class_last", OStr (T "CSS class for the last column in the row"))]%string.

Definition dquote : ascii := "034"%char.

(** The text [<div class="v">]. *)
Definition div_class (v : string) : text :=
  T "<div class=" ++ [dquote] ++ T v ++ [dquote] ++ T ">".

Definition profile (row_open : text) (row_close : string) (col_open : text)
    (col_close span offset default common first last : string) : pyobj :=
  ODict
    [("row_open", OStr row_open); ("row_close", OStr (T row_close));
     ("col_open", OStr col_open); ("col_close", OStr (T col_close));
     ("col_span_class", OStr (T span)); ("col_offset_class", OStr (T offset));
     ("default_col_class", OStr (T default));
     ("common_col_class", OStr (T common));
     ("col_class_first", OStr (T first)); ("col_class_last", OStr (T last))]%string.

Definition PROFILES : pyobj :=
  ODict
    [("bootstrap",
       profile (div_class "row") "</div>" (div_class "{value}") "</div>"
               "span{value}" "offset{value}" "span1" EmptyString EmptyString
               EmptyString);
     ("skeleton",
       profile (div_class EmptyString) "</div>" (div_class EmptyString)
               "</div>" EmptyString EmptyString EmptyString EmptyString
               EmptyString EmptyString);
     ("960gs",
       profile (div_class EmptyString) "</div>" (div_class EmptyString)
               "</div>" EmptyString EmptyString EmptyString EmptyString
               EmptyString EmptyString)]%string.

(** The names bound by the class body, in its order. *)
Definition namespace : list (string * pyobj) :=
  [("DEFAULT_PROFILE", DEFAULT_PROFILE); ("DESCRIPTIONS", DESCRIPTIONS);
   ("PROFILES", PROFILES); ("get", OFunc)]%string.

(** [GridConf.<name>]. *)
Definition getattr (name : string) : result pyobj :=
  match assoc name namespace with
  | Some o => Ok o
  | None => Raise (AttributeError name)
  end.

(** What [get] gives: a configuration, which maps a key to a value and
    its description, or [Exception(message)]. *)
Inductive get_result :=
  | Conf (conf : gmap string (pyval * text))
  | ConfError (message : text).

(** The descriptions are strings. *)
Definition description_text (o : pyobj) : text :=
  match o with
  | OStr d => d
  | _ => []
  end.

(** [get]: the profile is looked up, then [conf] is bound anew to
    [{'name': name}] and the loop pairs each of its values with its
    description; whatever is raised on the way is replaced by
    [Exception]. *)
Definition get (profile_name : pyval) : get_result :=
  let name := map py_lower (py_str profile_name) in
  let attempt :=
    _ <- subscript_str PROFILES (string_of_list_ascii name) ;;
    description <- subscript_str DESCRIPTIONS "name" ;;
    Ok ({[ "name"%string := (PyStr name, description_text description) ]}
        : gmap string (pyval * text)) in
  match attempt with
  | Ok conf => Conf conf
  | Raise _ => ConfError (T "Error getting configuration profile: " ++ name)
  end.

End GridConf.

(** ** Argument parser *)

Module Parsers.

Definition DEFAULT_SEPARATOR : ascii := ","%char.

(** The inner function [expand] of [expand_shortcuts], on a match [m]
    of [re_spnoff] in [s]. *)
Definition expand (s : text) (m : mstate) : text :=
  let sp := group s m 1 in
  let o := group s m 3 in
  T "span" ++ py_str sp ++ (if truthy o then T " offset" ++ py_str o else []).

Definition expand_shortcuts (arg : text) (is_bs : bool) : text :=
  if is_bs then re_sub Patterns.no_flags Patterns.re_spnoff expand arg
  else arg.

(** Lines 216 to 219 of [parse_row_args]: the tokens between commas,
    each with its blanks trimmed and collapsed, and no token at all when
    the only one is empty. *)
Definition split_args (arguments : pyval) : list text :=
  let args := split_on DEFAULT_SEPARATOR (py_str arguments) in
  let args := map (fun arg => join (T " ") (py_split arg)) args in
  match args with
  | [[]] => []
  | _ => args
  end.

(** Line 220: [profile == GridConf.BOOTSTRAP['name'][0]]. *)
Definition is_bootstrap (profile : pyval) : result bool :=
  bootstrap <- GridConf.getattr "BOOTSTRAP" ;;
  entry <- subscript_str bootstrap "name" ;;
  name <- subscript_0 entry ;;
  Ok (py_eq profile name).

Definition parse_row_args (arguments : pyval) (profile : pyval)
    : result (list text) :=
  let args := split_args arguments in
  is_bs <- is_bootstrap profile ;;
  Ok (map (fun arg => expand_shortcuts arg is_bs) args).

End Parsers.

(** ** Grid command objects *)

(** A [GridCmdInfo]: [__init__] sets [cmdtype] only, so [style] is absent
    until the style propagator sets it. *)
Record GridCmdInfo := {
  cmdtype : GridCmd.t;
  style : option pyval
}.

Definition new_cmd (cmdtype : GridCmd.t) : GridCmdInfo :=
  {| cmdtype := cmdtype; style := None |}.

Definition set_style (c : GridCmdInfo) (v : pyval) : GridCmdInfo :=
  {| cmdtype := cmdtype c; style := Some v |}.

(** [GridCmdInfo.__str__]. *)
Definition cmd_str (c : GridCmdInfo) : text :=
  let is_col := GridCmd.eqb (cmdtype c) GridCmd.COL_OPEN in
  let params :=
    if is_col
    then T "(" ++ py_str (default (PyStr []) (style c)) ++ T ")"
    else [] in
  GridCmd.get_name (cmdtype c) ++ params.

(** What a command sequence holds: a command or, after the recovery at the
    end of [parse_markers] has appended one, a list of commands. *)
Inductive entry :=
  | Cmd (c : GridCmdInfo)
  | Nested (l : list GridCmdInfo).

(** ** Preprocessor *)

Module GridPreprocessor.

Import GridCmd.

(** The classification the [if]/[elif] chain of [parse_markers] makes of
    a line (lines 266 to 290): the three patterns are tried in this
    order. *)
Inductive marker :=
  | RowOpenMarker (args : pyval)
  | RowCloseMarker
  | ColSeparatorMarker
  | NotAMarker.

Definition classify (line : text) : marker :=
  match re_match Patterns.re_flags Patterns.row_open line with
  | Some m =>
      (* matches.groups() is never empty: the pattern has a group *)
      RowOpenMarker (group line m 1)
  | None =>
      match re_match Patterns.re_flags Patterns.row_close line with
      | Some _ => RowCloseMarker
      | None =>
          match re_match Patterns.re_flags Patterns.col_sep line with
          | Some _ => ColSeparatorMarker
          | None => NotAMarker
          end
      end
  end.

(** The variables of [parse_markers]; the top of [row_stack] is the head
    of the list. *)
Record pstate := {
  row_stack : list Z;
  rows : gmap Z (list text);
  cmds : gmap Z (list entry);
  r2c : gmap Z (list Z)
}.

Definition init : pstate :=
  {| row_stack := []; rows := ∅; cmds := ∅; r2c := ∅ |}.

Section StructuralParser.

(** The argument parser [parse_markers] calls and its [profile]
    argument.  The code calls [Parsers.parse_row_args]. *)
Variable parse_args : pyval -> pyval -> result (list text).
Variable profile : pyval.

(** The body of the loop over the lines. *)
Definition step (st : pstate) (line_num : Z) (line : text) : result pstate :=
  match classify line with
  | RowOpenMarker args =>
      let row_stack' := line_num :: row_stack st in
      styles <- parse_args args profile ;;
      Ok {| row_stack := row_stack';
            rows := <[line_num := styles]> (rows st);
            cmds := <[line_num := [Cmd (new_cmd ROW_OPEN);
                                   Cmd (new_cmd COL_OPEN)]]> (cmds st);
            r2c := <[line_num := [line_num]]> (r2c st) |}
  | RowCloseMarker =>
      let cmds' := <[line_num := [Cmd (new_cmd COL_CLOSE);
                                  Cmd (new_cmd ROW_CLOSE)]]> (cmds st) in
      match row_stack st with
      | [] => Raise IndexError
      | _ :: row_stack' =>
          Ok {| row_stack := row_stack'; rows := rows st;
                cmds := cmds'; r2c := r2c st |}
      end
  | ColSeparatorMarker =>
      match row_stack st with
      | [] => Raise IndexError
      | top :: _ =>
          match r2c st !! top with
          | None => Raise (KeyError top)
          | Some cols =>
              Ok {| row_stack := row_stack st; rows := rows st;
                    cmds := <[line_num := [Cmd (new_cmd COL_CLOSE);
                                           Cmd (new_cmd COL_OPEN)]]> (cmds st);
                    r2c := <[top := cols ++ [line_num]]> (r2c st) |}
          end
      end
  | NotAMarker => Ok st
  end.

(** The loop, from line number [line_num] on. *)
Fixpoint scan (st : pstate) (line_num : Z) (lines : list text)
    : result pstate :=
  match lines with
  | [] => Ok st
  | line :: lines' =>
      st' <- step st line_num line ;;
      scan st' (line_num + 1) lines'
  end.

(** The recovery after the loop (lines 292 to 297): for every row still
    open, [cmds[-1].append([...])] and a pop. *)
Fixpoint close_rows (row_stack : list Z) (cmds : gmap Z (list entry))
    : result (gmap Z (list entry)) :=
  match row_stack with
  | [] => Ok cmds
  | _ :: row_stack' =>
      match cmds !! (-1) with
      | None => Raise (KeyError (-1))
      | Some commands =>
          close_rows row_stack'
            (<[-1 := commands ++ [Nested [new_cmd COL_CLOSE;
                                          new_cmd ROW_CLOSE]]]> cmds)
      end
  end.

Definition parse_markers_with (lines : list text)
    : result (gmap Z (list text) * gmap Z (list entry) * gmap Z (list Z)) :=
  st <- scan init 0 lines ;;
  cmds' <- close_rows (row_stack st) (cmds st) ;;
  Ok (rows st, cmds', r2c st).

End StructuralParser.

Definition parse_markers (lines : list text) (profile : pyval) :=
  parse_markers_with Parsers.parse_row_args profile lines.

(** [styles.pop()] on the reversed list of styles. *)
Definition pop (styles : list text) : option (text * list text) :=
  match reverse styles with
  | [] => None
  | x :: r => Some (x, reverse r)
  end.

(** The innermost loop of [populate_cmd_params] over the commands of a
    column line: the first [COL_OPEN] gets the next style, or the default
    when none is left. *)
Fixpoint fill_first (commands : list entry) (styles : list text)
    (def_col_style : pyval) : result (list entry * list text) :=
  match commands with
  | [] => Ok ([], styles)
  | Nested _ :: _ => Raise (AttributeError "cmdtype")
  | Cmd c :: commands' =>
      if GridCmd.eqb (cmdtype c) COL_OPEN
      then match pop styles with
           | Some (x, styles') =>
               Ok (Cmd (set_style c (PyStr x)) :: commands', styles')
           | None =>
               Ok (Cmd (set_style c def_col_style) :: commands', styles)
           end
      else
        filled <- fill_first commands' styles def_col_style ;;
        let '(commands'', styles') := filled in
        Ok (Cmd c :: commands'', styles')
  end.

(** The loop over the column lines of a row. *)
Fixpoint fill_cols (cols : list Z) (styles : list text)
    (cmds : gmap Z (list entry)) (def_col_style : pyval)
    : result (gmap Z (list entry)) :=
  match cols with
  | [] => Ok cmds
  | col_line_num :: cols' =>
      match cmds !! col_line_num with
      | None => Raise (KeyError col_line_num)
      | Some commands =>
          filled <- fill_first commands styles def_col_style ;;
          let '(commands', styles') := filled in
          fill_cols cols' styles' (<[col_line_num := commands']> cmds)
                    def_col_style
      end
  end.

(** The loop over the rows, visited in the order [keys]. *)
Fixpoint fill_rows (keys : list Z) (rows : gmap Z (list text))
    (cmds : gmap Z (list entry)) (r2c : gmap Z (list Z))
    (def_col_style : pyval) : result (gmap Z (list entry)) :=
  match keys with
  | [] => Ok cmds
  | row_line_num :: keys' =>
      match rows !! row_line_num with
      | None => Raise (KeyError row_line_num)
      | Some declared =>
          let styles := reverse declared in
          match r2c !! row_line_num with
          | None => Raise (KeyError row_line_num)
          | Some cols =>
              cmds' <- fill_cols cols styles cmds def_col_style ;;
              fill_rows keys' rows cmds' r2c def_col_style
          end
      end
  end.

Definition populate_cmd_params (rows : gmap Z (list text))
    (cmds : gmap Z (list entry)) (r2c : gmap Z (list Z))
    (def_col_style : pyval) : result (gmap Z (list entry)) :=
  fill_rows (map fst (map_to_list rows)) rows cmds r2c def_col_style.

(** [lines[i] = v]: Python counts a negative index from the end and
    raises outside the list. *)
Definition setitem (lines : list text) (i : Z) (v : text)
    : result (list text) :=
  let n := Z.of_nat (length lines) in
  if (0 <=? i) && (i <? n) then Ok (<[Z.to_nat i := v]> lines)
  else if (- n <=? i) && (i <? 0) then Ok (<[Z.to_nat (n + i) := v]> lines)
  else Raise IndexError.

Section Rewriter.

(** [repr] of a [GridCmdInfo], which the class does not define: the
    default one prints the address of the object. *)
Variable obj_repr : GridCmdInfo -> text.

(** [str(command)] for an element of a command sequence. *)
Definition entry_str (e : entry) : text :=
  match e with
  | Cmd c => cmd_str c
  | Nested l => T "[" ++ join (T ", ") (map obj_repr l) ++ T "]"
  end.

(** The line written for a command sequence. *)
Definition tag (commands : list entry) : text :=
  newline :: T "<!--grid:" ++ join (T ";") (map entry_str commands) ++ T "-->".

Fixpoint replace_each (items : list (Z * list entry)) (lines : list text)
    : result (list text) :=
  match items with
  | [] => Ok lines
  | (line_num, commands) :: items' =>
      lines' <- setitem lines line_num (tag commands) ;;
      replace_each items' lines'
  end.

Definition replace_markers (lines : list text) (cmds : gmap Z (list entry))
    : result (list text) :=
  replace_each (map_to_list cmds) lines.

(** [get_conf]: a configuration maps a key to a value and its
    description. *)
Definition get_conf (config : gmap string (pyval * text)) (key : string)
    : pyval :=
  match config !! key with
  | Some (v, _) => v
  | None => PyNone
  end.

Definition run_with (parse_args : pyval -> pyval -> result (list text))
    (config : gmap string (pyval * text)) (lines : list text)
    : result (list text) :=
  let profile := get_conf config "name" in
  parsed <- parse_markers_with parse_args profile lines ;;
  let '(rows, cmds, r2c) := parsed in
  let style := get_conf config "default_col_style" in
  cmds' <- populate_cmd_params rows cmds r2c style ;;
  replace_markers lines cmds'.

Definition run := run_with Parsers.parse_row_args.

End Rewriter.

End GridPreprocessor.

(** * Properties *)

Import GridCmd GridPreprocessor.

(** ** Vocabulary of the statements *)

(** The number of commands of type [t] an element of a sequence stands
    for; a nested list counts for the commands in it. *)
Definition entry_count (t : GridCmd.t) (e : entry) : nat :=
  match e with
  | Cmd c => if GridCmd.eqb (cmdtype c) t then 1%nat else 0%nat
  | Nested l =>
      sum_list_with (fun c => if GridCmd.eqb (cmdtype c) t then 1%nat else 0%nat) l
  end.

Definition seq_count (t : GridCmd.t) (commands : list entry) : nat :=
  sum_list_with (entry_count t) commands.

(** The number of commands of type [t] in all the sequences of [cmds]. *)
Definition total (t : GridCmd.t) (cmds : gmap Z (list entry)) : nat :=
  sum_list_with (fun kv => seq_count t kv.2) (map_to_list cmds).

(** Every key of [cmds] is a line number below [n]. *)
Definition keys_below (n : Z) (cmds : gmap Z (list entry)) : Prop :=
  forall k, is_Some (cmds !! k) -> 0 <= k < n.

(** As many rows are open as the stack is deep. *)
Definition stack_counts (st : pstate) : Prop :=
  total ROW_OPEN (cmds st)
  = (length (row_stack st) + total ROW_CLOSE (cmds st))%nat.

(** An argument parser that never fails: lines 216 to 219 alone. *)
Definition split_only (arguments profile : pyval) : result (list text) :=
  Ok (Parsers.split_args arguments).

(** A word: a non-empty text without a blank. *)
Definition word (w : text) : Prop :=
  w <> [] /\ Forall (fun c => is_space c = false) w.

(** A text that is words separated by one space each: no blank at either
    end and no two blanks in a row. *)
Definition collapsed (t : text) : Prop :=
  exists ws, Forall word ws /\ t = join (T " ") ws.

(** The position a Python index [k] denotes in a list of [n] elements. *)
Definition index (n : nat) (k : Z) : nat :=
  Z.to_nat (if k <? 0 then Z.of_nat n + k else k).

Definition valid_index (n : nat) (k : Z) : Prop :=
  - Z.of_nat n <= k < Z.of_nat n.

(** A sequence whose first [COL_OPEN] command can be reached. *)
Fixpoint has_col_open (commands : list entry) : bool :=
  match commands with
  | [] => false
  | Nested _ :: _ => false
  | Cmd c :: commands' =>
      GridCmd.eqb (cmdtype c) COL_OPEN || has_col_open commands'
  end.

(** The sequence with the style [v] on its first [COL_OPEN] command. *)
Fixpoint assign (v : pyval) (commands : list entry) : list entry :=
  match commands with
  | Cmd c :: commands' =>
      if GridCmd.eqb (cmdtype c) COL_OPEN
      then Cmd (set_style c v) :: commands'
      else Cmd c :: assign v commands'
  | _ => commands
  end.

(** The style of the column number [i] of a row that declares [declared]. *)
Definition style_for (declared : list text) (i : nat) (def_col_style : pyval)
    : pyval :=
  match declared !! i with
  | Some x => PyStr x
  | None => def_col_style
  end.

(** The mappings the style propagator is meant for: every row has its
    column lines, each of them once and with a [COL_OPEN] command, and no
    line is a column of two rows. *)
Record well_formed (rows : gmap Z (list text)) (cmds : gmap Z (list entry))
    (r2c : gmap Z (list Z)) : Prop := {
  wf_cols : forall r, is_Some (rows !! r) ->
    exists cols, r2c !! r = Some cols /\ NoDup cols /\
      forall c, c ∈ cols ->
        exists commands, cmds !! c = Some commands /\ has_col_open commands = true;
  wf_disjoint : forall r1 r2 cols1 cols2 c,
    is_Some (rows !! r1) -> is_Some (rows !! r2) -> r1 <> r2 ->
    r2c !! r1 = Some cols1 -> r2c !! r2 = Some cols2 ->
    c ∈ cols1 -> c ∉ cols2
}.

(** The column lines recorded so far, before line [n]: each row has them
    once, each has its [COL_OPEN] command, no line belongs to two rows. *)
Record columns_ok (n : Z) (st : pstate) : Prop := {
  ok_rows : forall r, is_Some (rows st !! r) -> is_Some (r2c st !! r);
  ok_cols : forall r cols, r2c st !! r = Some cols ->
    NoDup cols /\
    forall c, c ∈ cols ->
      c < n /\ exists commands,
        cmds st !! c = Some commands /\ has_col_open commands = true;
  ok_disjoint : forall r1 r2 cols1 cols2 c, r1 <> r2 ->
    r2c st !! r1 = Some cols1 -> r2c st !! r2 = Some cols2 ->
    c ∈ cols1 -> c ∉ cols2
}.

(** The last character of [a], or [pv] when [a] is empty: the character
    before the position once [a] is consumed. *)
Definition lastor (pv : option ascii) (a : text) : option ascii :=
  match last a with
  | Some c => Some c
  | None => pv
  end.

(** [lang fl r pv a s]: the pattern [r] can consume [a], when [pv] is the
    character before [a] and [s] the text after it. *)
Fixpoint lang (fl : flags) (r : regex) (pv : option ascii) (a s : text) : Prop :=
  match r with
  | Eps => a = []
  | Bol => a = [] /\ bol fl pv = true
  | Eol => a = [] /\ eol fl s = true
  | Lit x => exists c, a = [c] /\ lit_match fl x c = true
  | Cls items => exists c, a = [c] /\ cls_match fl items c = true
  | Star items => Forall (fun c => cls_match fl items c = true) a
  | Cat r1 r2 =>
      exists a1 a2, a = a1 ++ a2 /\
        lang fl r1 pv a1 (a2 ++ s) /\ lang fl r2 (lastor pv a1) a2 s
  | Opt r1 => lang fl r1 pv a s \/ a = []
  | Grp _ r1 => lang fl r1 pv a s
  end.

(** [st'] is [st] after [a] is consumed. *)
Definition after (st : mstate) (a : text) (st' : mstate) : Prop :=
  rest st = a ++ rest st' /\
  pos st' = (pos st + length a)%nat /\
  prev st' = lastor (prev st) a.

(** A run of blanks. *)
Definition spaces (w : text) : Prop := Forall (fun c => is_space c = true) w.

(** The same text up to the case of the ASCII letters. *)
Definition same_letters (x y : text) : Prop := map lower x = map lower y.

(** A text made of the characters the set of [row_open] accepts. *)
Definition args_text (body : text) : Prop :=
  Forall (fun c => cls_match Patterns.re_flags Patterns.row_args c = true) body.

(** A text without a line break. *)
Definition is_line (l : text) : Prop := newline ∉ l.

Definition matches (r : regex) (l : text) : Prop :=
  is_Some (re_match Patterns.re_flags r l).

(** The classification without the captured text. *)
Inductive marker_kind := KRowOpen | KRowClose | KColSeparator | KNotAMarker.

Definition kind (m : marker) : marker_kind :=
  match m with
  | RowOpenMarker _ => KRowOpen
  | RowCloseMarker => KRowClose
  | ColSeparatorMarker => KColSeparator
  | NotAMarker => KNotAMarker
  end.

(** The sequence [parse_markers] stores for a marker line. *)
Definition prescribed (m : marker) : option (list entry) :=
  match m with
  | RowOpenMarker _ => Some [Cmd (new_cmd ROW_OPEN); Cmd (new_cmd COL_OPEN)]
  | ColSeparatorMarker => Some [Cmd (new_cmd COL_CLOSE); Cmd (new_cmd COL_OPEN)]
  | RowCloseMarker => Some [Cmd (new_cmd COL_CLOSE); Cmd (new_cmd ROW_CLOSE)]
  | NotAMarker => None
  end.

(** The state of the parser after the lines [--row--] and [text]. *)
Definition open_row_state : pstate :=
  {| row_stack := [0];
     rows := {[ 0 := [] ]};
     cmds := {[ 0 := [Cmd (new_cmd ROW_OPEN); Cmd (new_cmd COL_OPEN)] ]};
     r2c := {[ 0 := [0] ]} |}.

(** A row of three columns that declares two styles. *)
Definition two_styles_rows : gmap Z (list text) :=
  {[ 0 := [T "span4"; T "span6"] ]}.

Definition three_columns_r2c : gmap Z (list Z) := {[ 0 := [0; 2; 4] ]}.

Definition three_columns_cmds : gmap Z (list entry) :=
  list_to_map
    [(0, [Cmd (new_cmd ROW_OPEN); Cmd (new_cmd COL_OPEN)]);
     (2, [Cmd (new_cmd COL_CLOSE); Cmd (new_cmd COL_OPEN)]);
     (4, [Cmd (new_cmd COL_CLOSE); Cmd (new_cmd COL_OPEN)]);
     (6, [Cmd (new_cmd COL_CLOSE); Cmd (new_cmd ROW_CLOSE)])].

Definition col_open (v : pyval) : entry :=
  Cmd {| cmdtype := COL_OPEN; style := Some v |}.

Definition three_columns_styled (def_col_style : pyval) : gmap Z (list entry) :=
  list_to_map
    [(0, [Cmd (new_cmd ROW_OPEN); col_open (PyStr (T "span4"))]);
     (2, [Cmd (new_cmd COL_CLOSE); col_open (PyStr (T "span6"))]);
     (4, [Cmd (new_cmd COL_CLOSE); col_open def_col_style]);
     (6, [Cmd (new_cmd COL_CLOSE); Cmd (new_cmd ROW_CLOSE)])].

Definition three_columns_doc : list text :=
  [T "--row span4, span6--"; T "left"; T "--"; T "middle"; T "--"; T "right";
   T "--end--"].

(** The exception the code raises at a marker line it reaches with no row
    open. *)
Definition marker_error (m : marker) : exn :=
  match m with
  | RowOpenMarker _ => AttributeError "BOOTSTRAP"
  | _ => IndexError
  end.

(** An element of a sequence without its style. *)
Definition erase (e : entry) : entry :=
  match e with
  | Cmd c => Cmd (new_cmd (cmdtype c))
  | Nested l => Nested l
  end.

(** The characters the atoms of a pattern accept. *)
Fixpoint alphabet (fl : flags) (r : regex) (c : ascii) : bool :=
  match r with
  | Eps | Bol | Eol => false
  | Lit x => lit_match fl x c
  | Cls items | Star items => cls_match fl items c
  | Cat r1 r2 => alphabet fl r1 c || alphabet fl r2 c
  | Opt r1 | Grp _ r1 => alphabet fl r1 c
  end.

(** The characters of a span and offset shortcut: blanks, digits and the
    colon. *)
Definition shortcut_char (c : ascii) : bool :=
  is_space c || is_digit c || chr_eqb c ":".

(** The state after the text [a] is consumed and [b] is left. *)
Definition eat (st : mstate) (a b : text) : mstate :=
  {| pos := pos st + length a; prev := lastor (prev st) a; rest := b;
     caps := caps st |}.

(** The pattern that stands for a command type. *)
Definition cmd_pattern (t : GridCmd.t) : regex :=
  match t with
  | ROW_OPEN => Patterns.row_open_cmd
  | ROW_CLOSE => Patterns.row_close_cmd
  | COL_OPEN => Patterns.col_open_cmd
  | COL_CLOSE => Patterns.col_close_cmd
  end.

(** The text [__str__] prints for the style of a command. *)
Definition style_text (c : GridCmdInfo) : text :=
  py_str (default (PyStr []) (style c)).

(** The styles declared by a marker, as the argument parser reads them. *)
Definition declared (parse_args : pyval -> pyval -> result (list text))
    (profile : pyval) (m : marker) : option (list text) :=
  match m with
  | RowOpenMarker args =>
      match parse_args args profile with
      | Ok styles => Some styles
      | Raise _ => None
      end
  | _ => None
  end.

(** The number of separators in an argument text. *)
Definition commas (s : text) : nat :=
  length (List.filter (fun c => chr_eqb c Parsers.DEFAULT_SEPARATOR) s).

(** The text ends or goes on with a character [p] rejects. *)
Definition stops (p : ascii -> bool) (b : text) : Prop :=
  match b with [] => True | c :: _ => p c = false end.

(** ** Characters *)

Ltac all_chars c := destruct c as [[] [] [] [] [] [] [] []].

Lemma chr_eqb_eq a b : chr_eqb a b = true <-> a = b.
Proof. apply Ascii.eqb_eq. Qed.

Lemma lower_idem c : lower (lower c) = lower c.
Proof. all_chars c; reflexivity. Qed.

Lemma upper_lower c : upper (lower c) = upper c.
Proof. all_chars c; reflexivity. Qed.

Lemma is_space_lower c : is_space (lower c) = is_space c.
Proof. all_chars c; reflexivity. Qed.

Lemma is_digit_lower c : is_digit (lower c) = is_digit c.
Proof. all_chars c; reflexivity. Qed.

Lemma newline_lower c : chr_eqb (lower c) newline = chr_eqb c newline.
Proof. all_chars c; reflexivity. Qed.

Lemma lower_dash c : lower c = "-"%char -> c = "-"%char.
Proof. all_chars c; vm_compute; congruence. Qed.

Lemma lower_letter_not_space c :
  in_range "a" "z" (lower c) = true -> is_space c = false.
Proof. all_chars c; vm_compute; congruence. Qed.

Lemma dash_not_space : is_space "-" = false.
Proof. reflexivity. Qed.

(** ** The argument parser *)

Lemma split_ws_words w s :
  Forall (fun c => is_space c = false) w -> Forall word (split_ws w s).
Proof.
  revert w. induction s as [|c s IH]; intros w Hw; simpl.
  - destruct w as [|d w]; [constructor|].
    constructor; [|constructor]. split; done.
  - destruct (is_space c) eqn:Hc.
    + destruct w as [|d w]; [by apply IH|].
      constructor; [split; done|]. by apply IH.
    + apply IH. apply Forall_app. split; [done|]. by constructor.
Qed.

(** Every token of lines 216 to 219 is trimmed and collapsed. *)
Lemma split_args_collapsed arguments :
  Forall collapsed (Parsers.split_args arguments).
Proof.
  unfold Parsers.split_args.
  set (tokens := map _ _).
  assert (H : Forall collapsed tokens).
  { unfold tokens. apply Forall_forall. intros t Ht.
    apply list_elem_of_fmap in Ht as (arg & -> & _).
    exists (py_split arg). split; [|done]. by apply split_ws_words. }
  destruct tokens as [|[|c t] [|t' tokens]]; try done.
Qed.

Lemma split_on_no_separator sep (s : text) :
  sep ∉ s -> split_on sep s = [s].
Proof.
  induction s as [|c s IH]; simpl; [done|]. intros H.
  apply not_elem_of_cons in H as [Hne Hs].
  destruct (chr_eqb c sep) eqn:E.
  - apply chr_eqb_eq in E. congruence.
  - by rewrite (IH Hs).
Qed.

Lemma split_ws_blank (s : text) :
  Forall (fun c => is_space c = true) s -> split_ws [] s = [].
Proof.
  induction 1 as [|c s Hc _ IH]; simpl; [done|]. by rewrite Hc.
Qed.

(** A blank argument text, the one of a row without arguments, gives no
    token. *)
Lemma split_args_blank (s : text) :
  Forall (fun c => is_space c = true) s ->
  Parsers.split_args (PyStr s) = [].
Proof.
  intros H. unfold Parsers.split_args. simpl.
  rewrite split_on_no_separator.
  - simpl. unfold py_split. by rewrite split_ws_blank.
  - intros Hin. rewrite Forall_forall in H. by specialize (H _ Hin).
Qed.

(** ** The loop of the structural parser *)

Section ScanFacts.

Variable parse_args : pyval -> pyval -> result (list text).
Variable profile : pyval.

Local Abbreviation step := (step parse_args profile).
Local Abbreviation scan := (scan parse_args profile).

Lemma scan_app st n (a b : list text) :
  scan st n (a ++ b)
  = bind (scan st n a) (fun st' => scan st' (n + Z.of_nat (length a)) b).
Proof.
  revert st n. induction a as [|line a IH]; intros st n; simpl.
  - by rewrite Z.add_0_r.
  - destruct (step st n line) as [st'|e]; simpl; [|done].
    rewrite IH. destruct (scan st' (n + 1) a); simpl; [|done].
    f_equal. lia.
Qed.

Lemma step_not_a_marker st n line :
  classify line = NotAMarker -> step st n line = Ok st.
Proof. intros H. unfold GridPreprocessor.step. by rewrite H. Qed.

Lemma scan_no_markers st n lines :
  Forall (fun line => classify line = NotAMarker) lines ->
  scan st n lines = Ok st.
Proof.
  intros H. revert n. induction H as [|line lines Hl _ IH]; intros n; simpl.
  - done.
  - rewrite step_not_a_marker by done. simpl. apply IH.
Qed.

Lemma step_underflow st n line :
  row_stack st = [] ->
  classify line = RowCloseMarker \/ classify line = ColSeparatorMarker ->
  step st n line = Raise IndexError.
Proof.
  intros Hs [H|H]; unfold GridPreprocessor.step; rewrite H, Hs; done.
Qed.

Lemma total_empty t : total t ∅ = 0%nat.
Proof. unfold total. by rewrite map_to_list_empty. Qed.

Lemma total_insert t (m : gmap Z (list entry)) k v :
  m !! k = None ->
  total t (<[k := v]> m) = (seq_count t v + total t m)%nat.
Proof.
  intros H. unfold total. by rewrite (map_to_list_insert m k v H).
Qed.

Lemma keys_below_fresh n (m : gmap Z (list entry)) :
  keys_below n m -> m !! n = None.
Proof.
  intros H. destruct (m !! n) eqn:E; [|done].
  assert (0 <= n < n) by (apply H; eauto). lia.
Qed.

Lemma keys_below_insert n (m : gmap Z (list entry)) v :
  0 <= n -> keys_below n m -> keys_below (n + 1) (<[n := v]> m).
Proof.
  intros Hn H k [x Hk]. destruct (decide (n = k)) as [->|Hne]; [lia|].
  rewrite lookup_insert_ne in Hk by done.
  assert (0 <= k < n) by (apply H; eauto). lia.
Qed.

Lemma keys_below_mono n n' (m : gmap Z (list entry)) :
  n <= n' -> keys_below n m -> keys_below n' m.
Proof. intros Hle H k Hk. specialize (H k Hk). lia. Qed.

(** One line keeps the keys below the next line number and the stack
    as deep as the rows opened and not closed. *)
Lemma step_invariant st n line st' :
  0 <= n -> keys_below n (cmds st) -> stack_counts st ->
  step st n line = Ok st' ->
  keys_below (n + 1) (cmds st') /\ stack_counts st'.
Proof.
  intros Hn Hk Hc. unfold GridPreprocessor.step, stack_counts in *.
  pose proof (keys_below_fresh _ _ Hk) as Hfresh.
  destruct (classify line) as [args| | |].
  - destruct (parse_args args profile) as [styles|e]; simpl; [|done].
    intros [= <-]; simpl. split; [by apply keys_below_insert|].
    rewrite !total_insert by done. simpl. lia.
  - destruct (row_stack st) as [|top stack] eqn:Es; [done|].
    intros [= <-]; simpl. split; [by apply keys_below_insert|].
    rewrite !total_insert by done. simpl in *. lia.
  - destruct (row_stack st) as [|top stack] eqn:Es; [done|].
    destruct (r2c st !! top); [|done].
    intros [= <-]; simpl. split; [by apply keys_below_insert|].
    rewrite !total_insert by done. simpl in *. lia.
  - intros [= <-]. split; [|done]. eapply keys_below_mono; [|done]. lia.
Qed.

Lemma scan_invariant lines st n st' :
  0 <= n -> keys_below n (cmds st) -> stack_counts st ->
  scan st n lines = Ok st' ->
  keys_below (n + Z.of_nat (length lines)) (cmds st') /\ stack_counts st'.
Proof.
  revert st n. induction lines as [|line lines IH]; intros st n Hn Hk Hc; simpl.
  - intros [= <-]. rewrite Z.add_0_r. done.
  - destruct (step st n line) as [st1|e] eqn:E; simpl; [|done].
    intros Hs. destruct (step_invariant _ _ _ _ Hn Hk Hc E) as [Hk1 Hc1].
    destruct (IH st1 (n + 1) ltac:(lia) Hk1 Hc1 Hs) as [Hk2 Hc2].
    split; [|done]. eapply keys_below_mono; [|done]. lia.
Qed.

Lemma init_invariant : keys_below 0 (cmds init) /\ stack_counts init.
Proof.
  split.
  - intros k [x Hx]. simpl in Hx. by rewrite lookup_empty in Hx.
  - unfold stack_counts. simpl. by rewrite !total_empty.
Qed.

(** The recovery finds no sequence at key [-1]: it returns when no row
    is open and raises otherwise. *)
Lemma close_rows_keys_below n stack (m : gmap Z (list entry)) :
  keys_below n m ->
  close_rows stack m
  = match stack with [] => Ok m | _ :: _ => Raise (KeyError (-1)) end.
Proof.
  intros Hk. destruct stack as [|top stack]; simpl; [done|].
  destruct (m !! (-1)) eqn:E; [|done].
  assert (0 <= -1 < n) by (apply Hk; eauto). lia.
Qed.

Lemma parse_markers_with_scan lines st :
  scan init 0 lines = Ok st ->
  parse_markers_with parse_args profile lines
  = match row_stack st with
    | [] => Ok (rows st, cmds st, r2c st)
    | _ :: _ => Raise (KeyError (-1))
    end.
Proof.
  intros Hs. unfold parse_markers_with. rewrite Hs. simpl.
  destruct init_invariant as [Hk Hc].
  destruct (scan_invariant _ _ _ _ (Z.le_refl 0) Hk Hc Hs) as [Hk' _].
  rewrite (close_rows_keys_below _ _ _ Hk').
  by destruct (row_stack st).
Qed.

(** A document that leaves a row open is not recovered: the recovery
    raises [KeyError]. *)
Lemma unclosed_row_raises lines st :
  scan init 0 lines = Ok st -> row_stack st <> [] ->
  parse_markers_with parse_args profile lines = Raise (KeyError (-1)).
Proof.
  intros Hs Hne. rewrite (parse_markers_with_scan _ _ Hs).
  by destruct (row_stack st).
Qed.

End ScanFacts.

(** ** The marker rewriter *)

Section RewriterFacts.

Variable obj_repr : GridCmdInfo -> text.

Local Abbreviation tag := (tag obj_repr).
Local Abbreviation replace_each := (replace_each obj_repr).

Lemma index_lt n k : valid_index n k -> (index n k < n)%nat.
Proof.
  unfold valid_index, index. intros H.
  destruct (k <? 0) eqn:E; [apply Z.ltb_lt in E | apply Z.ltb_ge in E]; lia.
Qed.

Lemma setitem_valid (lines : list text) k v :
  valid_index (length lines) k ->
  setitem lines k v = Ok (<[index (length lines) k := v]> lines).
Proof.
  unfold valid_index, setitem, index. intros H.
  destruct (Z.leb_spec 0 k), (Z.ltb_spec k (Z.of_nat (length lines))),
    (Z.leb_spec (- Z.of_nat (length lines)) k), (Z.ltb_spec k 0);
    simpl; try done; lia.
Qed.

Lemma setitem_invalid (lines : list text) k v :
  ~ valid_index (length lines) k -> setitem lines k v = Raise IndexError.
Proof.
  unfold valid_index, setitem. intros H.
  destruct (Z.leb_spec 0 k), (Z.ltb_spec k (Z.of_nat (length lines))),
    (Z.leb_spec (- Z.of_nat (length lines)) k), (Z.ltb_spec k 0);
    simpl; try done; lia.
Qed.

(** The loop over the items of the mapping: the length is kept, a line
    no key denotes is kept, and a line some key denotes holds the tag of
    a key that denotes it (the last one visited). *)
Lemma replace_each_spec items (lines : list text) :
  Forall (fun kv => valid_index (length lines) kv.1) items ->
  exists out,
    replace_each items lines = Ok out /\
    length out = length lines /\
    (forall i, (forall kv, kv ∈ items -> index (length lines) kv.1 <> i) ->
               out !! i = lines !! i) /\
    (forall kv, kv ∈ items ->
       exists kv', kv' ∈ items /\
         index (length lines) kv'.1 = index (length lines) kv.1 /\
         out !! index (length lines) kv.1 = Some (tag kv'.2)).
Proof.
  revert lines. induction items as [|[k v] items IH]; intros lines Hv.
  - exists lines. repeat split; try done. intros kv Hin. by apply elem_of_nil in Hin.
  - apply Forall_cons in Hv as [Hk Hv]. simpl in Hk. simpl.
    rewrite (setitem_valid _ _ _ Hk). simpl.
    set (n := length lines) in *.
    set (lines1 := <[index n k := tag v]> lines).
    assert (Hlen : length lines1 = n) by apply length_insert.
    destruct (IH lines1) as (out & Hrun & Hout & Hkeep & Htag).
    { by rewrite Hlen. }
    rewrite Hlen in Hkeep, Htag.
    exists out. split; [done|]. split; [by rewrite Hout|]. split.
    + intros i Hi. rewrite Hkeep.
      * apply list_lookup_insert_ne. apply (Hi (k, v)). by left.
      * intros kv Hin. apply Hi. by right.
    + intros kv Hin.
      destruct (decide (Exists (fun kv' => index n kv'.1 = index n kv.1) items))
        as [Hex|Hnex].
      * apply Exists_exists in Hex as (kv1 & Hin1 & Heq1).
        destruct (Htag kv1 Hin1) as (kv2 & Hin2 & Heq2 & Hl2).
        exists kv2. split; [by right|]. split; [congruence|].
        by rewrite <- Heq1.
      * apply elem_of_cons in Hin as [->|Hin].
        -- exists (k, v). split; [by left|]. split; [done|]. simpl.
           rewrite Hkeep.
           ++ apply list_lookup_insert_eq. by apply index_lt.
           ++ intros kv' Hin' Heq. apply Hnex, Exists_exists. eauto.
        -- exfalso. apply Hnex, Exists_exists. eauto.
Qed.

End RewriterFacts.

(** ** The style propagator *)

Section PropagatorFacts.

Variable def_col_style : pyval.

Lemma pop_reverse (declared : list text) :
  pop (reverse declared)
  = match declared with
    | [] => None
    | x :: declared' => Some (x, reverse declared')
    end.
Proof.
  unfold pop. rewrite reverse_involutive. by destruct declared.
Qed.

Lemma fill_first_spec commands (declared : list text) :
  has_col_open commands = true ->
  fill_first commands (reverse declared) def_col_style
  = Ok (assign (style_for declared 0 def_col_style) commands,
        reverse (tail declared)).
Proof.
  induction commands as [|[c|l] commands IH]; simpl; [done| |done].
  destruct (GridCmd.eqb (cmdtype c) COL_OPEN); simpl.
  - intros _. rewrite pop_reverse. by destruct declared.
  - intros H. by rewrite (IH H).
Qed.

Lemma style_for_tail (declared : list text) i :
  style_for (tail declared) i def_col_style
  = style_for declared (S i) def_col_style.
Proof. unfold style_for. by destruct declared. Qed.

Lemma fill_cols_spec cols (declared : list text) (cmds : gmap Z (list entry)) :
  NoDup cols ->
  (forall c, c ∈ cols ->
     exists commands, cmds !! c = Some commands /\ has_col_open commands = true) ->
  exists cmds',
    fill_cols cols (reverse declared) cmds def_col_style = Ok cmds' /\
    (forall i c, cols !! i = Some c ->
       cmds' !! c = assign (style_for declared i def_col_style) <$> cmds !! c) /\
    (forall k, k ∉ cols -> cmds' !! k = cmds !! k).
Proof.
  revert declared cmds.
  induction cols as [|c cols IH]; intros declared cmds Hnd Hc; simpl.
  - exists cmds. split; [done|]. split; [|done]. intros i c H. done.
  - apply NoDup_cons in Hnd as [Hnotin Hnd].
    destruct (Hc c) as (commands & Hlook & Hopen); [by left|].
    rewrite Hlook, (fill_first_spec _ _ Hopen). simpl.
    set (cmds1 := <[c := assign (style_for declared 0 def_col_style) commands]> cmds).
    destruct (IH (tail declared) cmds1 Hnd) as (cmds' & Hrun & Hcols & Hkeep).
    { intros c' Hin. destruct (Hc c') as (commands' & Hl' & Ho'); [by right|].
      exists commands'. split; [|done]. unfold cmds1.
      rewrite lookup_insert_ne; [done|]. intros ->. done. }
    exists cmds'. split; [done|]. split.
    + intros [|i] c' Hi; simpl in Hi.
      * injection Hi as <-. rewrite (Hkeep c Hnotin). unfold cmds1.
        by rewrite lookup_insert_eq, Hlook.
      * rewrite (Hcols i c' Hi), style_for_tail. unfold cmds1.
        rewrite lookup_insert_ne; [done|]. intros ->.
        apply Hnotin. eapply list_elem_of_lookup_2. done.
    + intros k Hk. apply not_elem_of_cons in Hk as [Hne Hk].
      rewrite (Hkeep k Hk). unfold cmds1. by rewrite lookup_insert_ne.
Qed.

Lemma fill_rows_spec keys (rows : gmap Z (list text))
    (cmds : gmap Z (list entry)) (r2c : gmap Z (list Z)) :
  NoDup keys ->
  (forall r, r ∈ keys -> is_Some (rows !! r)) ->
  well_formed rows cmds r2c ->
  exists cmds',
    fill_rows keys rows cmds r2c def_col_style = Ok cmds' /\
    (forall r declared cols i c,
       r ∈ keys -> rows !! r = Some declared -> r2c !! r = Some cols ->
       cols !! i = Some c ->
       cmds' !! c = assign (style_for declared i def_col_style) <$> cmds !! c) /\
    (forall k,
       (forall r cols, r ∈ keys -> r2c !! r = Some cols -> k ∉ cols) ->
       cmds' !! k = cmds !! k).
Proof.
  revert cmds. induction keys as [|r keys IH]; intros cmds Hnd Hin Hwf; simpl.
  - exists cmds. split; [done|]. split; [|done].
    intros r declared cols i c H. by apply elem_of_nil in H.
  - apply NoDup_cons in Hnd as [Hnotin Hnd].
    destruct (Hin r) as [declared Hdecl]; [by left|]. rewrite Hdecl.
    destruct (wf_cols _ _ _ Hwf r) as (cols & Hcols & Hndc & Hcmd); [eauto|].
    rewrite Hcols.
    destruct (fill_cols_spec cols declared cmds Hndc Hcmd)
      as (cmds1 & Hrun1 & Hset1 & Hkeep1).
    rewrite Hrun1. simpl.
    assert (Hother : forall r' cols' c, r' ∈ keys -> r2c !! r' = Some cols' ->
              c ∈ cols' -> cmds1 !! c = cmds !! c).
    { intros r' cols' c Hr' Hc' Hcin. apply Hkeep1.
      apply (wf_disjoint _ _ _ Hwf r' r cols' cols c);
        solve [done | eauto | apply Hin; by right | intros ->; done]. }
    destruct (IH cmds1 Hnd) as (cmds' & Hrun & Hset & Hkeep).
    { intros r' Hr'. apply Hin. by right. }
    { split.
      - intros r' Hr'.
        destruct (wf_cols _ _ _ Hwf r' Hr') as (cols' & Hc' & Hnd' & Hcmd').
        exists cols'. split; [done|]. split; [done|]. intros c Hcin.
        destruct (decide (c ∈ cols)) as [Hcc|Hcc].
        + destruct (Hcmd c Hcc) as (commands & Hl & Ho).
          apply list_elem_of_lookup in Hcc as [i Hi].
          exists (assign (style_for declared i def_col_style) commands).
          split; [by rewrite (Hset1 i c Hi), Hl|].
          clear -Ho. induction commands as [|[c0|l] commands IHc]; simpl in *;
            [done| |done].
          destruct (GridCmd.eqb (cmdtype c0) COL_OPEN) eqn:E; simpl.
          * by rewrite E.
          * rewrite E. simpl. auto.
        + rewrite (Hkeep1 c Hcc). by apply Hcmd'.
      - apply (wf_disjoint _ _ _ Hwf). }
    exists cmds'. split; [done|]. split.
    + intros r' declared' cols' i c Hr' Hd' Hc' Hi.
      apply elem_of_cons in Hr' as [->|Hr'].
      * assert (declared' = declared) by congruence.
        assert (cols' = cols) by congruence. subst.
        rewrite Hkeep; [by apply Hset1|].
        intros r2 cols2 Hr2 Hc2.
        apply (wf_disjoint _ _ _ Hwf r r2 cols cols2 c);
          solve [done | eauto | apply Hin; by right | intros ->; done
                | eapply list_elem_of_lookup_2; done].
      * rewrite (Hset r' declared' cols' i c Hr' Hd' Hc' Hi).
        f_equal. apply (Hother r' cols'); [done..|].
        eapply list_elem_of_lookup_2. done.
    + intros k Hk. rewrite Hkeep.
      * apply Hkeep1. apply (Hk r cols); [by left|done].
      * intros r' cols' Hr' Hc'. apply (Hk r' cols'); [by right|done].
Qed.

End PropagatorFacts.

(** ** What the structural parser hands to the style propagator *)

Section ColumnsFacts.

Variable parse_args : pyval -> pyval -> result (list text).
Variable profile : pyval.

Lemma columns_ok_init : columns_ok 0 init.
Proof.
  split; simpl.
  - intros r [x H]. by rewrite lookup_empty in H.
  - intros r cols H. by rewrite lookup_empty in H.
  - intros r1 r2 cols1 cols2 c _ H. by rewrite lookup_empty in H.
Qed.

Lemma columns_ok_step st n line st' :
  keys_below n (cmds st) -> columns_ok n st ->
  step parse_args profile st n line = Ok st' ->
  columns_ok (n + 1) st'.
Proof.
  intros Hk [Hrows Hcols Hdis]. unfold step.
  assert (Hold : forall r cols c v, r2c st !! r = Some cols -> c ∈ cols ->
            c < n + 1 /\ c <> n /\ exists commands,
              <[n := v]> (cmds st) !! c = Some commands /\
              has_col_open commands = true).
  { intros r cols c v Hr Hc.
    destruct (Hcols r cols Hr) as [_ Hall].
    destruct (Hall c Hc) as (Hlt & commands & Hl & Ho).
    split; [lia|]. split; [lia|]. exists commands. split; [|done].
    rewrite lookup_insert_ne; [done|lia]. }
  destruct (classify line) as [args| | |].
  - destruct (parse_args args profile) as [styles|e]; simpl; [|done].
    intros [= <-]. split; simpl.
    + intros r [x Hr]. destruct (decide (n = r)) as [<-|Hne].
      * rewrite lookup_insert_eq. eauto.
      * rewrite lookup_insert_ne in Hr by done.
        rewrite lookup_insert_ne by done. apply Hrows. eauto.
    + intros r cols Hr. destruct (decide (n = r)) as [<-|Hne].
      * rewrite lookup_insert_eq in Hr. injection Hr as <-.
        split; [apply NoDup_singleton|]. intros c Hc.
        apply list_elem_of_singleton in Hc as ->. split; [lia|].
        eexists. rewrite lookup_insert_eq. split; [done|]. done.
      * rewrite lookup_insert_ne in Hr by done.
        split; [by apply (Hcols r cols)|]. intros c Hc.
        destruct (Hold r cols c [Cmd (new_cmd ROW_OPEN); Cmd (new_cmd COL_OPEN)]
                    Hr Hc) as (? & ? & ?). done.
    + intros r1 r2 cols1 cols2 c Hne H1 H2 Hc.
      destruct (decide (n = r1)) as [<-|Hn1];
        destruct (decide (n = r2)) as [<-|Hn2]; try done.
      * rewrite lookup_insert_eq in H1. injection H1 as <-.
        rewrite lookup_insert_ne in H2 by done.
        apply list_elem_of_singleton in Hc as ->. intros Hin.
        destruct (Hold r2 cols2 n [] H2 Hin) as (_ & ? & _). done.
      * rewrite lookup_insert_eq in H2. injection H2 as <-.
        rewrite lookup_insert_ne in H1 by done.
        destruct (Hold r1 cols1 c [] H1 Hc) as (_ & ? & _).
        intros Hin. by apply list_elem_of_singleton in Hin.
      * rewrite lookup_insert_ne in H1, H2 by done.
        by apply (Hdis r1 r2 cols1 cols2 c).
  - destruct (row_stack st) as [|top stack]; [done|].
    intros [= <-]. split; simpl; [done| |done].
    intros r cols Hr. split; [by apply (Hcols r cols)|]. intros c Hc.
    destruct (Hold r cols c [Cmd (new_cmd COL_CLOSE); Cmd (new_cmd ROW_CLOSE)]
                Hr Hc) as (? & ? & ?). done.
  - destruct (row_stack st) as [|top stack]; [done|].
    destruct (r2c st !! top) as [cols0|] eqn:Etop; [|done].
    intros [= <-]. split; simpl.
    + intros r Hr. destruct (decide (top = r)) as [<-|Hne].
      * rewrite lookup_insert_eq. eauto.
      * rewrite lookup_insert_ne by done. by apply Hrows.
    + intros r cols Hr. destruct (decide (top = r)) as [<-|Hne].
      * rewrite lookup_insert_eq in Hr. injection Hr as <-.
        destruct (Hcols top cols0 Etop) as [Hnd _]. split.
        -- apply NoDup_app. split; [done|]. split; [|apply NoDup_singleton].
           intros c Hc Hc'. apply list_elem_of_singleton in Hc' as ->.
           destruct (Hold top cols0 n [] Etop Hc) as (_ & ? & _). done.
        -- intros c Hc. apply elem_of_app in Hc as [Hc|Hc].
           ++ destruct (Hold top cols0 c [Cmd (new_cmd COL_CLOSE); Cmd (new_cmd COL_OPEN)]
                          Etop Hc) as (? & ? & ?). done.
           ++ apply list_elem_of_singleton in Hc as ->. split; [lia|].
              eexists. rewrite lookup_insert_eq. split; [done|]. done.
      * rewrite lookup_insert_ne in Hr by done.
        split; [by apply (Hcols r cols)|]. intros c Hc.
        destruct (Hold r cols c [Cmd (new_cmd COL_CLOSE); Cmd (new_cmd COL_OPEN)]
                    Hr Hc) as (? & ? & ?). done.
    + intros r1 r2 cols1 cols2 c Hne H1 H2 Hc.
      destruct (decide (top = r1)) as [<-|Hn1];
        destruct (decide (top = r2)) as [<-|Hn2]; try done.
      * rewrite lookup_insert_eq in H1. injection H1 as <-.
        rewrite lookup_insert_ne in H2 by done.
        apply elem_of_app in Hc as [Hc|Hc].
        -- by apply (Hdis top r2 cols0 cols2 c).
        -- apply list_elem_of_singleton in Hc as ->. intros Hin.
           destruct (Hold r2 cols2 n [] H2 Hin) as (_ & ? & _). done.
      * rewrite lookup_insert_eq in H2. injection H2 as <-.
        rewrite lookup_insert_ne in H1 by done.
        intros Hin. apply elem_of_app in Hin as [Hin|Hin].
        -- by apply (Hdis r1 top cols1 cols0 c Hne H1 Etop Hc).
        -- apply list_elem_of_singleton in Hin as ->.
           destruct (Hold r1 cols1 n [] H1 Hc) as (_ & ? & _). done.
      * rewrite lookup_insert_ne in H1, H2 by done.
        by apply (Hdis r1 r2 cols1 cols2 c).
  - intros [= <-]. split; [done| |done].
    intros r cols Hr. split; [by apply (Hcols r cols)|]. intros c Hc.
    destruct (Hcols r cols Hr) as [_ Hall].
    destruct (Hall c Hc) as (? & ?). split; [lia|done].
Qed.

Lemma columns_ok_scan lines st n st' :
  0 <= n -> keys_below n (cmds st) -> stack_counts st -> columns_ok n st ->
  scan parse_args profile st n lines = Ok st' ->
  columns_ok (n + Z.of_nat (length lines)) st'.
Proof.
  revert st n. induction lines as [|line lines IH];
    intros st n Hn Hk Hc Hok; simpl.
  - intros [= <-]. by rewrite Z.add_0_r.
  - destruct (step parse_args profile st n line) as [st1|e] eqn:E; simpl; [|done].
    intros Hs.
    destruct (step_invariant _ _ _ _ _ _ Hn Hk Hc E) as [Hk1 Hc1].
    pose proof (columns_ok_step _ _ _ _ Hk Hok E) as Hok1.
    replace (n + Z.of_nat (S (length lines)))
      with (n + 1 + Z.of_nat (length lines)) by lia.
    apply (IH st1 (n + 1)); [lia|done..].
Qed.

(** The mappings of a parse that returns are well formed. *)
Lemma parse_markers_with_well_formed lines rows cmds r2c :
  parse_markers_with parse_args profile lines = Ok (rows, cmds, r2c) ->
  well_formed rows cmds r2c.
Proof.
  unfold parse_markers_with.
  destruct (scan parse_args profile init 0 lines) as [st|e] eqn:Hs; simpl; [|done].
  destruct (init_invariant) as [Hk Hc].
  destruct (scan_invariant _ _ _ _ _ _ (Z.le_refl 0) Hk Hc Hs) as [Hk' _].
  pose proof (columns_ok_scan _ _ _ _ (Z.le_refl 0) Hk Hc columns_ok_init Hs)
    as [Hrows Hcols Hdis].
  rewrite (close_rows_keys_below _ _ _ Hk').
  destruct (row_stack st); simpl; [|done].
  intros [= <- <- <-]. split.
  - intros r Hr. destruct (Hrows r Hr) as [cols Hc'].
    exists cols. split; [done|]. destruct (Hcols r cols Hc') as [Hnd Hall].
    split; [done|]. intros c Hin. by destruct (Hall c Hin) as [_ ?].
  - intros r1 r2 cols1 cols2 c _ _ Hne. by apply Hdis.
Qed.

End ColumnsFacts.

(** ** The matcher and the texts a pattern accepts *)

Section MatcherFacts.

Variable fl : flags.

Lemma lastor_nil pv : lastor pv [] = pv.
Proof. done. Qed.

Lemma lastor_cons pv c a : lastor pv (c :: a) = lastor (Some c) a.
Proof.
unfold lastor. destruct a as [|d a]; [done|].
rewrite last_cons. by destruct (last (d :: a)).
Qed.

Lemma lastor_app pv a b : lastor pv (a ++ b) = lastor (lastor pv a) b.
Proof.
revert pv. induction a as [|c a IH]; intros pv; simpl; [done|].
by rewrite !lastor_cons, IH.
Qed.

Lemma after_refl st : after st [] st.
Proof. unfold after. simpl. rewrite Nat.add_0_r. done. Qed.

Lemma after_advance st c s : rest st = c :: s -> after st [c] (advance st c s).
Proof. intros H. unfold after. simpl. rewrite H. split; [done|]. split; [lia|done]. Qed.

Lemma after_trans st a mid b st' :
after st a mid -> after mid b st' -> after st (a ++ b) st'.
Proof.
intros (H1 & H2 & H3) (H4 & H5 & H6). unfold after.
rewrite H1, H4, H5, H2, H6, H3, length_app, lastor_app, <- app_assoc.
split; [done|]. split; [lia|done].
Qed.

Lemma after_set_cap st a st' n start :
after st a st' -> after st a (set_cap n start st').
Proof. done. Qed.

Lemma star_sound p s st k m :
rest st = s -> star p s st k = Some m ->
exists a st', after st a st' /\ Forall (fun c => p c = true) a /\ k st' = Some m.
Proof.
revert st. induction s as [|c s IH]; intros st Hr; simpl.
- intros H. exists [], st. split; [apply after_refl|]. done.
- destruct (p c) eqn:Hp.
  + destruct (star p s (advance st c s) k) as [r|] eqn:E.
    * intros [= <-]. destruct (IH (advance st c s) eq_refl E)
        as (a & st' & Ha & Hall & Hk).
      exists (c :: a), st'. split.
      { apply (after_trans st [c] (advance st c s) a st');
          [by apply after_advance|done]. }
      split; [by constructor|done].
    * intros H. exists [], st. split; [apply after_refl|]. done.
  + intros H. exists [], st. split; [apply after_refl|]. done.
Qed.

Lemma star_complete (p : ascii -> bool) (a b : text) s st k :
rest st = s -> s = a ++ b -> Forall (fun c => p c = true) a ->
(forall st', after st a st' -> rest st' = b -> is_Some (k st')) ->
is_Some (star p s st k).
Proof.
revert s st. induction a as [|c a IH]; intros s st Hr Hs Hall Hk.
- simpl in Hs. subst s.
  assert (Hst : is_Some (k st)) by (apply Hk; [apply after_refl|done]).
  destruct (rest st) as [|c s']; simpl; [done|].
  destruct (p c); [|done].
  by destruct (star p s' (advance st c s') k).
- apply Forall_cons in Hall as [Hc Hall]. subst s. rewrite Hs. simpl.
  rewrite Hc.
  assert (H1 : is_Some (star p (a ++ b) (advance st c (a ++ b)) k)).
  { apply IH; try done. intros st' Ha Hb. apply Hk; [|done].
    apply (after_trans st [c] (advance st c (a ++ b)) a st'); [|done].
    by apply after_advance. }
  destruct H1 as [r ->]. done.
Qed.

(** Every match the matcher finds consumes a text of the language. *)
Lemma backtrack_sound r : forall st k m,
backtrack fl r st k = Some m ->
exists a st', after st a st' /\ lang fl r (prev st) a (rest st') /\ k st' = Some m.
Proof.
induction r as [| | |x|items|items|r1 IH1 r2 IH2|r1 IH1|n r1 IH1];
  intros st k m; simpl.
- intros H. exists [], st. split; [apply after_refl|done].
- unfold at_bol. destruct (bol fl (prev st)) eqn:E; [|done].
  intros H. exists [], st. split; [apply after_refl|done].
- unfold at_eol. destruct (eol fl (rest st)) eqn:E; [|done].
  intros H. exists [], st. split; [apply after_refl|done].
- destruct (rest st) as [|c s] eqn:Er; [done|].
  destruct (lit_match fl x c) eqn:E; [|done].
  intros H. exists [c], (advance st c s).
  split; [by apply after_advance|]. split; [|done]. eauto.
- destruct (rest st) as [|c s] eqn:Er; [done|].
  destruct (cls_match fl items c) eqn:E; [|done].
  intros H. exists [c], (advance st c s).
  split; [by apply after_advance|]. split; [|done]. eauto.
- intros H. destruct (star_sound _ _ _ _ _ eq_refl H) as (a & st' & ? & ? & ?).
  exists a, st'. done.
- intros H.
  destruct (IH1 _ _ _ H) as (a1 & mid & Ha1 & Hl1 & H2).
  destruct (IH2 _ _ _ H2) as (a2 & st' & Ha2 & Hl2 & Hk).
  exists (a1 ++ a2), st'. split; [by eapply after_trans|]. split; [|done].
  exists a1, a2. split; [done|].
  destruct Ha2 as (Hr2 & _ & _). rewrite <- Hr2.
  destruct Ha1 as (_ & _ & Hp1). rewrite <- Hp1. done.
- destruct (backtrack fl r1 st k) as [res|] eqn:E.
  + intros [= <-]. destruct (IH1 _ _ _ E) as (a & st' & ? & ? & ?).
    exists a, st'. split; [done|]. split; [by left|done].
  + intros H. exists [], st. split; [apply after_refl|]. split; [by right|done].
- intros H. destruct (IH1 _ _ _ H) as (a & mid & Ha & Hl & Hk).
  exists a, (set_cap n (pos st) mid). done.
Qed.

(** Every text of the language is matched, whatever the groups hold. *)
Lemma backtrack_complete r : forall st k a b,
rest st = a ++ b -> lang fl r (prev st) a b ->
(forall st', after st a st' -> rest st' = b -> is_Some (k st')) ->
is_Some (backtrack fl r st k).
Proof.
induction r as [| | |x|items|items|r1 IH1 r2 IH2|r1 IH1|n r1 IH1];
  intros st k a b Hr; simpl.
- intros -> Hk. apply Hk; [apply after_refl|done].
- intros [-> Hb] Hk. unfold at_bol. rewrite Hb.
  apply Hk; [apply after_refl|done].
- intros [-> He] Hk. unfold at_eol. simpl in Hr. rewrite Hr, He.
  apply Hk; [apply after_refl|done].
- intros (c & -> & Hc) Hk. simpl in Hr. rewrite Hr, Hc.
  apply Hk; [by apply after_advance|done].
- intros (c & -> & Hc) Hk. simpl in Hr. rewrite Hr, Hc.
  apply Hk; [by apply after_advance|done].
- intros Hall Hk. by apply (star_complete _ a b).
- intros (a1 & a2 & -> & Hl1 & Hl2) Hk.
  apply (IH1 st _ a1 (a2 ++ b)); [by rewrite Hr, <- app_assoc|done|].
  intros mid Ha1 Hm. apply (IH2 mid _ a2 b); [done| |].
  + destruct Ha1 as (_ & _ & ->). done.
  + intros st' Ha2 Hb. apply Hk; [|done]. by eapply after_trans.
- intros [Hl| ->] Hk.
  + destruct (IH1 st k a b Hr Hl Hk) as [res ->]. done.
  + destruct (backtrack fl r1 st k); [done|].
    apply Hk; [apply after_refl|done].
- intros Hl Hk. apply (IH1 st _ a b Hr Hl).
  intros st' Ha Hb. apply Hk; [|done]. by apply after_set_cap.
Qed.

(** A match at the start of [s]: what is consumed and what is left. *)
Lemma re_match_sound r s m :
re_match fl r s = Some m ->
exists a, s = a ++ rest m /\ lang fl r None a (rest m) /\ pos m = length a.
Proof.
unfold re_match. intros H.
destruct (backtrack_sound _ _ _ _ H) as (a & st' & (Hr & Hp & _) & Hl & [= ->]).
exists a. simpl in *. done.
Qed.

Lemma re_match_complete r a b :
lang fl r None a b -> is_Some (re_match fl r (a ++ b)).
Proof.
intros H. unfold re_match. apply (backtrack_complete r _ _ a b); [done|done|].
intros st' _ _. done.
Qed.

End MatcherFacts.

(** ** Shapes of the marker lines *)

Section ShapeFacts.

Import Patterns.

Lemma ws_match fl c : cls_match fl ws c = is_space c.
Proof. unfold cls_match, ws. simpl. by rewrite orb_false_r. Qed.

Lemma lang_star_ws fl pv a s : lang fl (Star ws) pv a s <-> spaces a.
Proof.
cbn [lang]. unfold spaces.
split; intros H; (eapply Forall_impl; [exact H|]); intros c Hc; cbn beta in *;
  [by rewrite ws_match in Hc | by rewrite ws_match].
Qed.

Lemma lang_lits fl (cs : text) : forall pv x s,
ignorecase fl = true ->
lang fl (Seq (map Lit cs)) pv x s <-> same_letters x cs.
Proof.
unfold same_letters.
induction cs as [|c cs IH]; intros pv x s Hfl; simpl.
- split; [by intros ->|]. by destruct x.
- split.
  + intros (a1 & a2 & -> & (d & -> & Hd) & H2). simpl.
    apply (IH _ _ _ Hfl) in H2. rewrite H2. f_equal.
    unfold lit_match in Hd. rewrite Hfl in Hd. by apply chr_eqb_eq in Hd.
  + destruct x as [|d x]; [done|]. simpl. intros [= Hd Hx].
    exists [d], x. split; [done|]. split.
    * exists d. split; [done|]. unfold lit_match. rewrite Hfl.
      by apply chr_eqb_eq.
    * by apply IH.
Qed.

Lemma lang_Str fl (lit : string) pv x s :
ignorecase fl = true ->
lang fl (Str lit) pv x s <-> same_letters x (T lit).
Proof. apply lang_lits. Qed.

Lemma same_letters_dashes x : same_letters x (T "--") <-> x = T "--".
Proof.
unfold same_letters. split; [|by intros ->].
destruct x as [|a [|b [|c x]]]; try done. simpl. intros [= Ha Hb].
by rewrite (lower_dash a Ha), (lower_dash b Hb).
Qed.

Lemma lang_cat fl r1 r2 pv a1 a2 s :
lang fl r1 pv a1 (a2 ++ s) -> lang fl r2 (lastor pv a1) a2 s ->
lang fl (Cat r1 r2) pv (a1 ++ a2) s.
Proof. intros H1 H2. exists a1, a2. done. Qed.

Lemma lang_cat_inv fl r1 r2 pv a s :
lang fl (Cat r1 r2) pv a s ->
exists a1 a2, a = a1 ++ a2 /\
  lang fl r1 pv a1 (a2 ++ s) /\ lang fl r2 (lastor pv a1) a2 s.
Proof. done. Qed.

Lemma lang_eps_inv fl pv a s : lang fl Eps pv a s -> a = [].
Proof. done. Qed.

Lemma lang_bol_inv fl pv a s : lang fl Bol pv a s -> a = [] /\ bol fl pv = true.
Proof. done. Qed.

Lemma lang_eol_inv fl pv a s : lang fl Eol pv a s -> a = [] /\ eol fl s = true.
Proof. done. Qed.

Lemma lang_grp fl n r pv a s : lang fl (Grp n r) pv a s <-> lang fl r pv a s.
Proof. done. Qed.

Lemma lang_star fl items pv a s :
lang fl (Star items) pv a s <->
Forall (fun c => cls_match fl items c = true) a.
Proof. done. Qed.

Lemma lang_star_ws_inv fl pv a s : lang fl (Star ws) pv a s -> spaces a.
Proof. apply lang_star_ws. Qed.

Lemma lang_Str_inv (lit : string) pv x s :
lang re_flags (Str lit) pv x s -> same_letters x (T lit).
Proof. by apply lang_Str. Qed.

Lemma dashes_inv x : same_letters x (T "--") -> x = T "--".
Proof. apply same_letters_dashes. Qed.

Lemma lang_grp_inv fl n r pv a s : lang fl (Grp n r) pv a s -> lang fl r pv a s.
Proof. done. Qed.

Lemma lang_row_args_inv pv a s :
lang re_flags (Star row_args) pv a s -> args_text a.
Proof. done. Qed.

Ltac flatten_step :=
match goal with
| H : exists _, _ |- _ => destruct H as [? H]
| H : _ /\ _ |- _ => destruct H
| H : lang _ (Str "--") _ _ _ |- _ =>
    apply lang_Str_inv, dashes_inv in H
| H : lang _ (Str _) _ _ _ |- _ => apply lang_Str_inv in H
| H : lang _ (Seq _) _ _ _ |- _ => apply lang_cat_inv in H
| H : lang _ (Cat _ _) _ _ _ |- _ => apply lang_cat_inv in H
| H : lang _ Eps _ _ _ |- _ => apply lang_eps_inv in H
| H : lang _ Bol _ _ _ |- _ => apply lang_bol_inv in H
| H : lang _ Eol _ _ _ |- _ => apply lang_eol_inv in H
| H : lang _ (Grp _ _) _ _ _ |- _ => apply lang_grp_inv in H
| H : lang _ (Star ws) _ _ _ |- _ => apply lang_star_ws_inv in H
| H : lang _ (Star row_args) _ _ _ |- _ => apply lang_row_args_inv in H
end.

Ltac flatten := repeat flatten_step.

Lemma col_sep_lang a s :
lang re_flags col_sep None a s <->
exists w1 w2, a = w1 ++ T "--" ++ w2 /\ spaces w1 /\ spaces w2 /\
  eol re_flags s = true.
Proof.
split.
- intros H. unfold col_sep in H. flatten. subst.
  rewrite ?app_nil_r, ?app_nil_l in *. eauto 10.
- intros (w1 & w2 & -> & H1 & H2 & He). unfold col_sep.
  apply (lang_cat _ _ _ _ []); [done|].
  apply lang_cat; [by apply lang_star_ws|].
  apply lang_cat; [by apply lang_Str|].
  rewrite <- (app_nil_r w2).
  apply lang_cat; [by apply lang_star_ws|].
  apply (lang_cat _ _ _ _ [] []); done.
Qed.

(** The end of the three marker patterns: blanks up to the end of line. *)
Lemma lang_trailer pv w s :
spaces w -> eol re_flags s = true ->
lang re_flags (Cat (Star ws) (Cat Eol Eps)) pv w s.
Proof.
intros Hw He. rewrite <- (app_nil_r w).
apply lang_cat; [by apply lang_star_ws|].
apply (lang_cat _ _ _ _ [] []); done.
Qed.

Lemma row_close_lang a s :
lang re_flags row_close None a s <->
exists w1 w2 x w3 w4,
  a = w1 ++ T "--" ++ w2 ++ x ++ w3 ++ T "--" ++ w4 /\
  spaces w1 /\ spaces w2 /\ same_letters x (T "end") /\
  spaces w3 /\ spaces w4 /\ eol re_flags s = true.
Proof.
split.
- intros H. unfold row_close in H. flatten. subst.
  rewrite ?app_nil_r, ?app_nil_l in *. eauto 15.
- intros (w1 & w2 & x & w3 & w4 & -> & H1 & H2 & Hx & H3 & H4 & He).
  unfold row_close.
  apply (lang_cat _ _ _ _ []); [done|].
  apply lang_cat; [by apply lang_star_ws|].
  apply lang_cat; [by apply lang_Str|].
  apply lang_cat; [by apply lang_star_ws|].
  apply lang_cat; [by apply lang_Str|].
  apply lang_cat; [by apply lang_star_ws|].
  apply lang_cat; [by apply lang_Str|].
  by apply lang_trailer.
Qed.

Lemma row_open_lang a s :
lang re_flags row_open None a s <->
exists w1 w2 x w3 body w4 w5,
  a = w1 ++ T "--" ++ w2 ++ x ++ w3 ++ body ++ w4 ++ T "--" ++ w5 /\
  spaces w1 /\ spaces w2 /\ same_letters x (T "row") /\ spaces w3 /\
  args_text body /\ spaces w4 /\ spaces w5 /\ eol re_flags s = true.
Proof.
split.
- intros H. unfold row_open in H. flatten. subst.
  rewrite ?app_nil_r, ?app_nil_l in *. eauto 20.
- intros (w1 & w2 & x & w3 & body & w4 & w5 & -> & H1 & H2 & Hx & H3 & Hb
          & H4 & H5 & He).
  unfold row_open.
  apply (lang_cat _ _ _ _ []); [done|].
  apply lang_cat; [by apply lang_star_ws|].
  apply lang_cat; [by apply lang_Str|].
  apply lang_cat; [by apply lang_star_ws|].
  apply lang_cat; [by apply lang_Str|].
  apply lang_cat; [by apply lang_star_ws|].
  apply lang_cat; [done|].
  apply lang_cat; [by apply lang_star_ws|].
  apply lang_cat; [by apply lang_Str|].
  by apply lang_trailer.
Qed.

End ShapeFacts.

(** ** Case of the letters *)

Section CaseFacts.

Variable fl : flags.
Hypothesis Hfl : ignorecase fl = true.

Lemma item_match_lower i c : item_match fl i c = item_match fl i (lower c).
Proof.
destruct i as [x|lo hi| |]; simpl.
- unfold lit_match. by rewrite Hfl, lower_idem.
- by rewrite Hfl, lower_idem, upper_lower.
- by rewrite is_space_lower.
- by rewrite is_digit_lower.
Qed.

Lemma cls_match_lower items c : cls_match fl items c = cls_match fl items (lower c).
Proof.
unfold cls_match. induction items as [|i items IH]; simpl; [done|].
by rewrite IH, <- item_match_lower.
Qed.

Lemma lit_match_lower x c : lit_match fl x c = lit_match fl x (lower c).
Proof. unfold lit_match. by rewrite Hfl, lower_idem. Qed.

Lemma bol_lower pv pv' :
option_map lower pv = option_map lower pv' -> bol fl pv = bol fl pv'.
Proof.
destruct pv as [c|], pv' as [c'|]; simpl; try done. intros [= H].
by rewrite <- (newline_lower c), <- (newline_lower c'), H.
Qed.

Lemma eol_lower (s s' : text) :
map lower s = map lower s' -> eol fl s = eol fl s'.
Proof.
destruct s as [|c s], s' as [|c' s']; simpl; try done. intros [= H Hs].
rewrite <- (newline_lower c), <- (newline_lower c'), H.
by destruct s, s'.
Qed.

Lemma lastor_lower pv pv' (a a' : text) :
option_map lower pv = option_map lower pv' -> map lower a = map lower a' ->
option_map lower (lastor pv a) = option_map lower (lastor pv' a').
Proof.
revert pv pv' a'. induction a as [|c a IH]; intros pv pv' [|c' a'] Hp Ha;
  try done.
simpl in Ha. injection Ha as Hc Ha. rewrite !lastor_cons.
apply IH; [|done]. simpl. by rewrite Hc.
Qed.

(** What a pattern accepts under IGNORECASE does not depend on the case of
  the letters. *)
Lemma lang_lower r : forall pv pv' a a' s s',
option_map lower pv = option_map lower pv' ->
map lower a = map lower a' -> map lower s = map lower s' ->
lang fl r pv a s -> lang fl r pv' a' s'.
Proof.
induction r as [| | |x|items|items|r1 IH1 r2 IH2|r1 IH1|n r1 IH1];
  intros pv pv' a a' s s' Hp Ha Hs; cbn [lang].
- intros ->. by destruct a'.
- intros [-> Hb]. split; [by destruct a'|]. by rewrite <- (bol_lower pv pv').
- intros [-> He]. split; [by destruct a'|]. by rewrite <- (eol_lower s s').
- intros (c & -> & Hc). destruct a' as [|c' [|? ?]]; try done.
  injection Ha as Ha. exists c'. split; [done|].
  by rewrite lit_match_lower, <- Ha, <- lit_match_lower.
- intros (c & -> & Hc). destruct a' as [|c' [|? ?]]; try done.
  injection Ha as Ha. exists c'. split; [done|].
  by rewrite cls_match_lower, <- Ha, <- cls_match_lower.
- clear Hp Hs. revert a' Ha. induction a as [|c a IH]; intros [|c' a'] Ha Hall;
    try done.
  injection Ha as Hc Ha. apply Forall_cons in Hall as [H1 H2].
  constructor; [|by apply IH].
  by rewrite cls_match_lower, <- Hc, <- cls_match_lower.
- intros (a1 & a2 & -> & H1 & H2).
  rewrite map_app in Ha. symmetry in Ha.
  apply fmap_app_inv in Ha as (a1' & a2' & E1 & E2 & ->).
  exists a1', a2'. split; [done|]. split.
  + apply (IH1 pv pv' a1 a1' (a2 ++ s) (a2' ++ s')); try done.
    by rewrite !map_app, E2, Hs.
  + apply (IH2 (lastor pv a1) (lastor pv' a1') a2 a2' s s'); try done.
    by apply lastor_lower.
- intros [H| ->].
  + left. by apply (IH1 pv pv' a a' s s').
  + right. by destruct a'.
- by apply IH1.
Qed.

End CaseFacts.

(** ** The classification of a line *)

Section ClassifierFacts.

Import Patterns.

Lemma matches_iff r l :
matches r l <-> exists a s, l = a ++ s /\ lang re_flags r None a s.
Proof.
unfold matches. split.
- intros [m Hm]. apply re_match_sound in Hm as (a & Hl & Hlang & _). eauto.
- intros (a & s & -> & H). by apply re_match_complete.
Qed.

Lemma matches_lower r l l' :
map lower l = map lower l' -> matches r l -> matches r l'.
Proof.
intros Hl. rewrite !matches_iff. intros (a & s & -> & H).
rewrite map_app in Hl. symmetry in Hl.
apply fmap_app_inv in Hl as (a' & s' & Ea & Es & ->).
exists a', s'. split; [done|].
by apply (lang_lower re_flags eq_refl r None None a a' s s').
Qed.

Lemma spaces_prefix_eq w v c d (s t : text) :
spaces w -> spaces v -> is_space c = false -> is_space d = false ->
w ++ c :: s = v ++ d :: t -> w = v /\ c = d /\ s = t.
Proof.
unfold spaces. revert v.
induction w as [|x w IH]; intros [|y v] Hw Hv Hc Hd; simpl; intros [= E1 E2].
- done.
- subst. apply Forall_cons in Hv as [Hy _]. congruence.
- subst. apply Forall_cons in Hw as [Hx _]. congruence.
- apply Forall_cons in Hw as [_ Hw]. apply Forall_cons in Hv as [_ Hv].
  destruct (IH v Hw Hv Hc Hd E2) as (-> & -> & ->). by subst.
Qed.

Lemma spaces_no_letter w v d (t : text) :
spaces w -> is_space d = false -> w = v ++ d :: t -> False.
Proof.
unfold spaces. intros Hw Hd ->. apply Forall_app in Hw as [_ Hw].
apply Forall_cons in Hw as [H _]. congruence.
Qed.

Lemma same_letters_cons x c cs :
same_letters x (c :: cs) ->
exists x1 x', x = x1 :: x' /\ lower x1 = lower c /\ same_letters x' cs.
Proof.
unfold same_letters. destruct x as [|x1 x']; [done|]. simpl.
intros [= H1 H2]. eauto.
Qed.

(** The first letter of a word that reads as [lit] is no blank. *)
Lemma word_head x (c : ascii) cs :
in_range "a" "z" (lower c) = true -> same_letters x (c :: cs) ->
exists x1 x', x = x1 :: x' /\ lower x1 = lower c /\ is_space x1 = false.
Proof.
intros Hc H. apply same_letters_cons in H as (x1 & x' & -> & H1 & _).
exists x1, x'. split; [done|]. split; [done|].
apply lower_letter_not_space. by rewrite H1.
Qed.

Lemma eol_newline_free (tl : text) :
newline ∉ tl -> eol re_flags tl = true -> tl = [].
Proof.
destruct tl as [|c tl]; [done|]. simpl. intros Hn H.
apply andb_true_iff in H as [H _]. apply chr_eqb_eq in H as ->.
exfalso. apply Hn. by left.
Qed.

Lemma is_line_app_r (a s : text) : is_line (a ++ s) -> newline ∉ s.
Proof. unfold is_line. intros H Hin. apply H, elem_of_app. by right. Qed.

(** After the leading blanks and the two dashes, what follows decides. *)
Lemma dashes_eq w v (p q : text) :
spaces w -> spaces v -> w ++ T "--" ++ p = v ++ T "--" ++ q -> w = v /\ p = q.
Proof.
intros Hw Hv H. change (w ++ "-"%char :: "-"%char :: p
                        = v ++ "-"%char :: "-"%char :: q) in H.
destruct (spaces_prefix_eq _ _ _ _ _ _ Hw Hv dash_not_space dash_not_space H)
  as (-> & _ & [= ->]). done.
Qed.

Lemma open_close_exclusive l :
matches row_open l -> matches row_close l -> False.
Proof.
rewrite !matches_iff. intros (a & s & -> & Ho) (a' & s' & E & Hc).
apply row_open_lang in Ho
  as (w1 & w2 & x & w3 & body & w4 & w5 & -> & H1 & H2 & Hx & _).
apply row_close_lang in Hc
  as (v1 & v2 & y & v3 & v4 & -> & G1 & G2 & Hy & _).
rewrite <- !app_assoc in E.
destruct (dashes_eq _ _ _ _ H1 G1 E) as [_ E'].
apply (word_head x "r" (T "ow") eq_refl) in Hx as (x1 & x' & -> & Hx1 & Hs1).
apply (word_head y "e" (T "nd") eq_refl) in Hy as (y1 & y' & -> & Hy1 & Hs2).
rewrite <- ?app_assoc in E'. cbn [app] in E'.
destruct (spaces_prefix_eq _ _ _ _ _ _ H2 G2 Hs1 Hs2 E') as (_ & -> & _).
rewrite Hx1 in Hy1. done.
Qed.

Lemma sep_shape l :
is_line l -> matches col_sep l ->
exists w1 w2, l = w1 ++ T "--" ++ w2 /\ spaces w1 /\ spaces w2.
Proof.
intros Hl. rewrite matches_iff. intros (a & s & -> & H).
apply col_sep_lang in H as (w1 & w2 & -> & H1 & H2 & He).
apply (eol_newline_free _ (is_line_app_r _ _ Hl)) in He as ->.
rewrite app_nil_r. eauto.
Qed.

Lemma open_sep_exclusive l :
is_line l -> matches row_open l -> matches col_sep l -> False.
Proof.
intros Hl Ho Hs. apply (sep_shape l Hl) in Hs as (v1 & v2 & E & G1 & G2).
apply matches_iff in Ho as (a & s & -> & Ho).
apply row_open_lang in Ho
  as (w1 & w2 & x & w3 & body & w4 & w5 & -> & H1 & H2 & Hx & _).
rewrite <- !app_assoc in E.
destruct (dashes_eq _ _ _ _ H1 G1 E) as [_ E'].
apply (word_head x "r" (T "ow") eq_refl) in Hx as (x1 & x' & -> & Hx1 & Hs1).
rewrite <- ?app_assoc in E'. cbn [app] in E'. symmetry in E'.
by apply (spaces_no_letter _ _ _ _ G2 Hs1 E').
Qed.

Lemma close_sep_exclusive l :
is_line l -> matches row_close l -> matches col_sep l -> False.
Proof.
intros Hl Hc Hs. apply (sep_shape l Hl) in Hs as (v1 & v2 & E & G1 & G2).
apply matches_iff in Hc as (a & s & -> & Hc).
apply row_close_lang in Hc
  as (w1 & w2 & x & w3 & w4 & -> & H1 & H2 & Hx & _).
rewrite <- !app_assoc in E.
destruct (dashes_eq _ _ _ _ H1 G1 E) as [_ E'].
apply (word_head x "e" (T "nd") eq_refl) in Hx as (x1 & x' & -> & Hx1 & Hs1).
rewrite <- ?app_assoc in E'. cbn [app] in E'. symmetry in E'.
by apply (spaces_no_letter _ _ _ _ G2 Hs1 E').
Qed.

(** The chain of tests in terms of the three patterns. *)
Lemma classify_row_open l :
matches row_open l <-> exists args, classify l = RowOpenMarker args.
Proof.
unfold matches, classify. split.
- intros [m ->]. eauto.
- intros [args H]. destruct (re_match re_flags row_open l); [done|].
  destruct (re_match re_flags row_close l); [done|].
  by destruct (re_match re_flags col_sep l).
Qed.

Lemma classify_row_close l :
~ matches row_open l /\ matches row_close l <-> classify l = RowCloseMarker.
Proof.
unfold matches, classify. split.
- intros [Ho [m Hm]]. destruct (re_match re_flags row_open l).
  + exfalso. apply Ho. done.
  + by rewrite Hm.
- destruct (re_match re_flags row_open l); [done|].
  destruct (re_match re_flags row_close l).
  + intros _. split; [by intros [? ?]|done].
  + by destruct (re_match re_flags col_sep l).
Qed.

Lemma classify_col_sep l :
~ matches row_open l /\ ~ matches row_close l /\ matches col_sep l
<-> classify l = ColSeparatorMarker.
Proof.
unfold matches, classify. split.
- intros (Ho & Hc & [m Hm]). destruct (re_match re_flags row_open l).
  + exfalso. apply Ho. done.
  + destruct (re_match re_flags row_close l).
    * exfalso. apply Hc. done.
    * by rewrite Hm.
- destruct (re_match re_flags row_open l); [done|].
  destruct (re_match re_flags row_close l); [done|].
  destruct (re_match re_flags col_sep l); [|done].
  intros _. split; [by intros [? ?]|]. split; [by intros [? ?]|done].
Qed.

Lemma classify_not_a_marker l :
~ matches row_open l /\ ~ matches row_close l /\ ~ matches col_sep l
<-> classify l = NotAMarker.
Proof.
unfold matches, classify. split.
- intros (Ho & Hc & Hs). destruct (re_match re_flags row_open l).
  + exfalso. apply Ho. done.
  + destruct (re_match re_flags row_close l).
    * exfalso. apply Hc. done.
    * destruct (re_match re_flags col_sep l); [|done].
      exfalso. apply Hs. done.
- destruct (re_match re_flags row_open l); [done|].
  destruct (re_match re_flags row_close l); [done|].
  destruct (re_match re_flags col_sep l); [done|].
  intros _. repeat split; by intros [? ?].
Qed.

Lemma matches_dec r l : {matches r l} + {~ matches r l}.
Proof.
unfold matches. destruct (re_match re_flags r l).
- left. done.
- right. by intros [? ?].
Qed.

Lemma kind_classify l :
kind (classify l)
= if matches_dec row_open l then KRowOpen
  else if matches_dec row_close l then KRowClose
  else if matches_dec col_sep l then KColSeparator
  else KNotAMarker.
Proof.
destruct (matches_dec row_open l) as [Ho|Ho].
{ apply classify_row_open in Ho as [args ->]. done. }
destruct (matches_dec row_close l) as [Hc|Hc].
{ by rewrite (proj1 (classify_row_close l) (conj Ho Hc)). }
destruct (matches_dec col_sep l) as [Hs|Hs].
{ by rewrite (proj1 (classify_col_sep l) (conj Ho (conj Hc Hs))). }
by rewrite (proj1 (classify_not_a_marker l) (conj Ho (conj Hc Hs))).
Qed.

Lemma kind_lower l l' :
map lower l = map lower l' -> kind (classify l) = kind (classify l').
Proof.
intros H. rewrite !kind_classify.
assert (Hiff : forall r, matches r l <-> matches r l').
{ intros r. split; apply matches_lower; done. }
destruct (matches_dec row_open l) as [Ho|Ho],
         (matches_dec row_open l') as [Ho'|Ho']; try done;
  try (exfalso; apply Hiff in Ho; done);
  try (exfalso; apply Hiff in Ho'; done).
destruct (matches_dec row_close l) as [Hc|Hc],
         (matches_dec row_close l') as [Hc'|Hc']; try done;
  try (exfalso; apply Hiff in Hc; done);
  try (exfalso; apply Hiff in Hc'; done).
destruct (matches_dec col_sep l) as [Hs|Hs],
         (matches_dec col_sep l') as [Hs'|Hs']; try done;
  try (exfalso; apply Hiff in Hs; done);
  try (exfalso; apply Hiff in Hs'; done).
Qed.

(** A match of a marker pattern on a line takes the whole line. *)
Lemma marker_match_whole r l m :
r = row_open \/ r = row_close \/ r = col_sep ->
is_line l -> re_match re_flags r l = Some m ->
rest m = [] /\ pos m = length l.
Proof.
intros Hr Hl Hm.
apply re_match_sound in Hm as (a & E & Hlang & Hpos).
assert (He : eol re_flags (rest m) = true).
{ destruct Hr as [->|[->| ->]].
  - by apply row_open_lang in Hlang
      as (? & ? & ? & ? & ? & ? & ? & _ & _ & _ & _ & _ & _ & _ & _ & ?).
  - by apply row_close_lang in Hlang
      as (? & ? & ? & ? & ? & _ & _ & _ & _ & _ & _ & ?).
  - by apply col_sep_lang in Hlang as (? & ? & _ & _ & _ & ?). }
rewrite E in Hl.
rewrite (eol_newline_free _ (is_line_app_r _ _ Hl) He) in E |- *.
rewrite app_nil_r in E. by subst.
Qed.

Lemma sep_form_not_open w1 w2 :
spaces w1 -> spaces w2 -> ~ matches row_open (w1 ++ T "--" ++ w2).
Proof.
intros G1 G2 Ho. apply matches_iff in Ho as (a & s & E & Ho).
apply row_open_lang in Ho
  as (v1 & v2 & x & v3 & body & v4 & v5 & -> & H1 & H2 & Hx & _).
rewrite <- !app_assoc in E.
destruct (dashes_eq _ _ _ _ G1 H1 E) as [_ E'].
apply (word_head x "r" (T "ow") eq_refl) in Hx as (x1 & x' & -> & Hx1 & Hs1).
rewrite <- ?app_assoc in E'. cbn [app] in E'.
by apply (spaces_no_letter _ _ _ _ G2 Hs1 E').
Qed.

Lemma sep_form_not_close w1 w2 :
spaces w1 -> spaces w2 -> ~ matches row_close (w1 ++ T "--" ++ w2).
Proof.
intros G1 G2 Hc. apply matches_iff in Hc as (a & s & E & Hc).
apply row_close_lang in Hc
  as (v1 & v2 & x & v3 & v4 & -> & H1 & H2 & Hx & _).
rewrite <- !app_assoc in E.
destruct (dashes_eq _ _ _ _ G1 H1 E) as [_ E'].
apply (word_head x "e" (T "nd") eq_refl) in Hx as (x1 & x' & -> & Hx1 & Hs1).
rewrite <- ?app_assoc in E'. cbn [app] in E'.
by apply (spaces_no_letter _ _ _ _ G2 Hs1 E').
Qed.

(** Blanks around the pieces of a marker are accepted. *)
Lemma col_sep_form w1 w2 :
spaces w1 -> spaces w2 ->
classify (w1 ++ T "--" ++ w2) = ColSeparatorMarker.
Proof.
intros H1 H2. apply classify_col_sep.
split; [by apply sep_form_not_open|]. split; [by apply sep_form_not_close|].
apply matches_iff. exists (w1 ++ T "--" ++ w2), [].
split; [by rewrite app_nil_r|]. apply col_sep_lang. eauto 10.
Qed.

Lemma row_close_form w1 w2 x w3 w4 :
spaces w1 -> spaces w2 -> same_letters x (T "end") ->
spaces w3 -> spaces w4 ->
classify (w1 ++ T "--" ++ w2 ++ x ++ w3 ++ T "--" ++ w4) = RowCloseMarker.
Proof.
intros H1 H2 Hx H3 H4.
assert (Hc : matches row_close
               (w1 ++ T "--" ++ w2 ++ x ++ w3 ++ T "--" ++ w4)).
{ apply matches_iff. eexists _, []. split; [by rewrite app_nil_r|].
  apply row_close_lang. eauto 15. }
apply classify_row_close. split; [|done].
intros Ho. by apply (open_close_exclusive _ Ho Hc).
Qed.

Lemma row_open_form w1 w2 x w3 body w4 w5 :
spaces w1 -> spaces w2 -> same_letters x (T "row") -> spaces w3 ->
args_text body -> spaces w4 -> spaces w5 ->
exists args,
  classify (w1 ++ T "--" ++ w2 ++ x ++ w3 ++ body ++ w4 ++ T "--" ++ w5)
  = RowOpenMarker args.
Proof.
intros H1 H2 Hx H3 Hb H4 H5. apply classify_row_open.
apply matches_iff. eexists _, []. split; [by rewrite app_nil_r|].
apply row_open_lang. eauto 20.
Qed.

End ClassifierFacts.

(** ** One line of the structural parser *)

(** Whatever the argument parser, a line that is processed to its end gets
    the sequence of its marker, and a separator keeps the stack. *)
Lemma step_emits parse_args profile st n line st' :
  step parse_args profile st n line = Ok st' ->
  (forall commands, prescribed (classify line) = Some commands ->
     cmds st' !! n = Some commands) /\
  (classify line = ColSeparatorMarker -> row_stack st' = row_stack st).
Proof.
  unfold step. destruct (classify line) as [args| | |]; simpl.
  - destruct (parse_args args profile); simpl; [|done]. intros [= <-]. simpl.
    split; [|done]. intros commands [= <-]. by rewrite lookup_insert_eq.
  - destruct (row_stack st); [done|]. intros [= <-]. simpl.
    split; [|done]. intros commands [= <-]. by rewrite lookup_insert_eq.
  - destruct (row_stack st) as [|top stack]; [done|].
    destruct (r2c st !! top); [|done]. intros [= <-]. simpl.
    split; [|done]. intros commands [= <-]. by rewrite lookup_insert_eq.
  - intros [= <-]. split; done.
Qed.

(** With the argument parser of the code, no marker line is processed to
    its end. *)
Lemma step_marker_raises profile st n line :
  row_stack st = [] -> classify line <> NotAMarker ->
  exists e, step Parsers.parse_row_args profile st n line = Raise e.
Proof.
  intros Hs Hm. unfold step.
  destruct (classify line) as [args| | |]; [| | |done].
  - exists (AttributeError "BOOTSTRAP"). done.
  - rewrite Hs. eauto.
  - rewrite Hs. eauto.
Qed.

(** ** Examples *)

Lemma three_columns_parse :
  parse_markers_with split_only PyNone three_columns_doc
  = Ok (two_styles_rows, three_columns_cmds, three_columns_r2c).
Proof. vm_compute. reflexivity. Qed.

Lemma three_columns_populate def_col_style :
  populate_cmd_params two_styles_rows three_columns_cmds three_columns_r2c
    def_col_style
  = Ok (three_columns_styled def_col_style).
Proof. vm_compute. reflexivity. Qed.

(** ** Runs of the matcher *)

Lemma eat_nil st b : rest st = b -> eat st [] b = st.
Proof. intros <-. destruct st. unfold eat. simpl. f_equal. lia. Qed.

Lemma eat_advance st c s a b : eat (advance st c s) a b = eat st (c :: a) b.
Proof.
  unfold eat, advance. simpl. f_equal; [lia|]. by rewrite lastor_cons.
Qed.

(** A greedy repetition passes a run of accepted characters before it
    tries anything else. *)
Lemma star_app (p : ascii -> bool) a b : forall st k m,
  rest st = a ++ b -> Forall (fun c => p c = true) a ->
  star p b (eat st a b) k = Some m ->
  star p (a ++ b) st k = Some m.
Proof.
  induction a as [|c a IH]; intros st k m Hr Hall H.
  - simpl in *. by rewrite eat_nil in H.
  - apply Forall_cons in Hall as [Hc Hall]. simpl. rewrite Hc.
    rewrite (IH (advance st c (a ++ b)) k m); [done|done|done|].
    by rewrite eat_advance.
Qed.

Lemma star_stop (p : ascii -> bool) b st k :
  stops p b -> star p b st k = k st.
Proof. destruct b as [|c b]; simpl; [done|]. by intros ->. Qed.

Lemma star_upto (p : ascii -> bool) a b st k m :
  rest st = a ++ b -> Forall (fun c => p c = true) a -> stops p b ->
  k (eat st a b) = Some m ->
  star p (a ++ b) st k = Some m.
Proof.
  intros Hr Hall Hb H. apply star_app; [done|done|]. by rewrite star_stop.
Qed.

Lemma star_all (p : ascii -> bool) a st k m :
  rest st = a -> Forall (fun c => p c = true) a ->
  k (eat st a []) = Some m -> star p a st k = Some m.
Proof.
  intros Hr Hall H. rewrite <- (app_nil_r a).
  apply star_upto; [by rewrite app_nil_r|done|done|done].
Qed.

(** A repetition fails when the continuation fails after every run. *)
Lemma star_fail (p : ascii -> bool) s : forall st k,
  (forall st', rest st' `suffix_of` s -> k st' = None) ->
  rest st = s -> star p s st k = None.
Proof.
  induction s as [|c s IH]; intros st k Hk Hr; simpl.
  - apply Hk. by rewrite Hr.
  - assert (Hst : k st = None) by (apply Hk; by rewrite Hr).
    destruct (p c); [|done].
    rewrite IH; [done| |done].
    intros st' Hs. apply Hk. by apply suffix_cons_r.
Qed.

Lemma digits_match fl c : cls_match fl digits c = is_digit c.
Proof. unfold cls_match, digits. simpl. by rewrite orb_false_r. Qed.

Lemma digit_not_space c : is_digit c = true -> is_space c = false.
Proof. all_chars c; vm_compute; congruence. Qed.

Lemma space_not_digit c : is_space c = true -> is_digit c = false.
Proof. all_chars c; vm_compute; congruence. Qed.

Lemma space_not_colon c : is_space c = true -> chr_eqb c ":" = false.
Proof. all_chars c; vm_compute; congruence. Qed.

Lemma digits_cls fl d :
  Forall (fun x => is_digit x = true) d ->
  Forall (fun x => cls_match fl digits x = true) d.
Proof.
  intros H. eapply Forall_impl; [exact H|]. intros x Hx.
  by rewrite digits_match.
Qed.

Lemma spaces_cls fl w :
  spaces w -> Forall (fun x => cls_match fl ws x = true) w.
Proof.
  intros H. eapply Forall_impl; [exact H|]. intros x Hx.
  by rewrite ws_match.
Qed.

Lemma spaces_stop_digits fl w :
  spaces w -> stops (cls_match fl digits) w.
Proof.
  intros Hw. destruct w as [|c w]; [done|]. cbn [stops].
  apply Forall_cons in Hw as [Hc _]. rewrite digits_match.
  by apply space_not_digit.
Qed.

Lemma colon_stops_digits fl w x :
  spaces w -> stops (cls_match fl digits) (w ++ ":"%char :: x).
Proof.
  intros Hw. destruct w as [|c w]; cbn [app stops]; rewrite digits_match;
    [done|].
  apply Forall_cons in Hw as [Hc _]. by apply space_not_digit.
Qed.

Lemma digit_stops_ws fl c x :
  is_digit c = true -> stops (cls_match fl ws) (c :: x).
Proof. intros H. cbn [stops]. rewrite ws_match. by apply digit_not_space. Qed.

(** The part of a text between two positions. *)
Lemma slice_app (s a x b : text) n m :
  s = a ++ x ++ b -> n = length a -> m = (n + length x)%nat ->
  take (m - n) (drop n s) = x.
Proof.
  intros -> -> ->. rewrite drop_app_length.
  replace (length a + length x - length a)%nat with (length x) by lia.
  by rewrite take_app_length.
Qed.

(** No colon stands in a run of blanks. *)
Lemma blank_not_colon (w : text) c s pre :
  spaces w -> w = pre ++ c :: s -> lit_match Patterns.no_flags ":" c = false.
Proof.
  intros Hw ->. apply Forall_app in Hw as [_ Hw].
  apply Forall_cons in Hw as [Hc _]. by apply space_not_colon.
Qed.

Lemma lit_match_refl fl c : lit_match fl c c = true.
Proof. unfold lit_match. destruct (ignorecase fl); by apply chr_eqb_eq. Qed.

(** A literal text is passed when it is what comes next. *)
Lemma backtrack_lits fl (x : text) : forall b st k,
  rest st = x ++ b ->
  backtrack fl (Seq (map Lit x)) st k = k (eat st x b).
Proof.
  induction x as [|c x IH]; intros b st k Hr.
  - simpl. by rewrite eat_nil.
  - cbn [map Seq foldr backtrack]. rewrite Hr. cbn [app].
    rewrite lit_match_refl. fold (Seq (map Lit x)).
    rewrite (IH b); [|done]. by rewrite eat_advance.
Qed.

Lemma backtrack_Str fl (x : string) b st k :
  rest st = T x ++ b ->
  backtrack fl (Str x) st k = k (eat st (T x) b).
Proof. apply backtrack_lits. Qed.

(** A greedy repetition gives back what the continuation needs, when the
    continuation cannot do with less. *)
Lemma star_retreat (p : ascii -> bool) b st k :
  rest st = b ->
  (forall st', rest st' `suffix_of` b -> rest st' <> b -> k st' = None) ->
  star p b st k = k st.
Proof.
  intros Hr Hk. destruct b as [|c s]; simpl; [done|].
  destruct (p c); [|done].
  rewrite star_fail; [done| |done].
  intros st' Hs. apply Hk; [by apply suffix_cons_r|].
  intros E. rewrite E in Hs. apply suffix_length in Hs. simpl in Hs. lia.
Qed.

Lemma suffix_cons_cases (l : text) x s :
  l `suffix_of` x :: s -> l = x :: s \/ l `suffix_of` s.
Proof.
  intros [k E]. destruct k as [|y k]; simpl in E; [by left|right].
  injection E as _ ->. by exists k.
Qed.

Lemma star_backoff (p : ascii -> bool) a b st k m :
  rest st = a ++ b -> Forall (fun c => p c = true) a ->
  (forall st', rest st' `suffix_of` b -> rest st' <> b -> k st' = None) ->
  k (eat st a b) = Some m ->
  star p (a ++ b) st k = Some m.
Proof.
  intros Hr Hall Hk H. apply star_app; [done|done|].
  by rewrite star_retreat.
Qed.

(** A literal text is passed in either case of its letters, under
    IGNORECASE. *)
Lemma backtrack_lits_ci fl (y : text) : forall x b st k,
  ignorecase fl = true -> same_letters x y -> rest st = x ++ b ->
  backtrack fl (Seq (map Lit y)) st k = k (eat st x b).
Proof.
  induction y as [|c y IH]; intros x b st k Hfl Hx Hr.
  - destruct x; [|done]. simpl. by rewrite eat_nil.
  - apply same_letters_cons in Hx as (x1 & x' & -> & H1 & Hx).
    cbn [map Seq foldr backtrack]. rewrite Hr. cbn [app].
    unfold lit_match at 1. rewrite Hfl, H1.
    replace (chr_eqb (lower c) (lower c)) with true
      by (symmetry; by apply chr_eqb_eq).
    fold (Seq (map Lit y)).
    rewrite (IH x' b); [|done|done|done]. by rewrite eat_advance.
Qed.

Lemma space_not_dash c : is_space c = true -> lit_match Patterns.re_flags "-" c = false.
Proof. all_chars c; vm_compute; congruence. Qed.

Lemma dash_stops_ws fl x : stops (cls_match fl ws) ("-"%char :: x).
Proof. cbn [stops]. by rewrite ws_match. Qed.

(** The end of a row-open line, [--] and blanks, is not found in a
    shorter end of it. *)
Lemma row_end_only (w5 : text) st k :
  spaces w5 ->
  rest st `suffix_of` T "--" ++ w5 -> rest st <> T "--" ++ w5 ->
  backtrack Patterns.re_flags (Seq [Star ws; Str "--"; Star ws; Eol]) st k
  = None.
Proof.
  intros Hw Hs Hne. cbn [Seq foldr backtrack].
  apply suffix_cons_cases in Hs as [Hs|Hs]; [done|].
  apply suffix_cons_cases in Hs as [Hs|Hs].
  - rewrite Hs. rewrite star_stop by apply dash_stops_ws.
    unfold Str. cbn [T list_ascii_of_string map Seq foldr backtrack].
    rewrite Hs. replace (lit_match Patterns.re_flags "-" "-") with true by done.
    cbn [rest advance]. destruct w5 as [|c w5]; [done|].
    apply Forall_cons in Hw as [Hc _]. by rewrite space_not_dash.
  - apply star_fail; [|done]. intros st' Hs'.
    unfold Str. cbn [T list_ascii_of_string map Seq foldr backtrack].
    destruct (rest st') as [|c r] eqn:Er; [done|].
    rewrite space_not_dash; [done|].
    destruct Hs' as [p1 E1]. destruct Hs as [p2 E2].
    unfold spaces in Hw. rewrite Forall_forall in Hw. apply Hw.
    rewrite E2, E1. apply elem_of_app. right. apply elem_of_app. right.
    by left.
Qed.

Lemma space_in_row_args c :
  is_space c = true ->
  cls_match Patterns.re_flags Patterns.row_args c = true.
Proof. all_chars c; vm_compute; congruence. Qed.

(** The blanks at the start of the arguments go with the blanks before
    them. *)
Lemma leading_blanks (t : text) : forall w,
  spaces w -> args_text t ->
  exists w' body,
    w ++ t = w' ++ body /\ spaces w' /\ args_text body /\
    stops is_space body.
Proof.
  induction t as [|c t IH]; intros w Hw Ht.
  - exists w, []. repeat split; [done|constructor].
  - apply Forall_cons in Ht as [Hc Ht]. destruct (is_space c) eqn:Es.
    + destruct (IH (w ++ [c])) as (w' & body & E & Hw' & Hb & Hs); [|done|].
      { apply Forall_app. split; [done|]. by repeat constructor. }
      exists w', body. rewrite <- E, <- app_assoc. done.
    + exists w, (c :: t). repeat split; [done| |done]. by constructor.
Qed.

(** The match of [row_open] on a row-open line and the text it captures:
    the repetition of the group is greedy and gives back the last [--]
    and the blanks after it. *)
Lemma row_open_match w1 w2 x w3 body w5 :
  spaces w1 -> spaces w2 -> same_letters x (T "row") -> spaces w3 ->
  args_text body -> stops is_space body -> spaces w5 ->
  exists m,
    re_match Patterns.re_flags Patterns.row_open
      (w1 ++ T "--" ++ w2 ++ x ++ w3 ++ body ++ T "--" ++ w5) = Some m /\
    group (w1 ++ T "--" ++ w2 ++ x ++ w3 ++ body ++ T "--" ++ w5) m 1
    = PyStr body.
Proof.
  intros H1 H2 Hx H3 Hb Hhead H5.
  destruct (word_head x "r" (T "ow") eq_refl Hx) as (x1 & x' & Ex & _ & Hx1).
  unfold re_match, Patterns.row_open.
  cbn [Seq foldr backtrack at_bol bol prev rest].
  eexists. split.
  - apply star_upto; [done|by apply spaces_cls|apply dash_stops_ws|].
    rewrite (backtrack_Str _ _ (w2 ++ x ++ w3 ++ body ++ T "--" ++ w5)) by done.
    cbn [rest eat].
    apply star_upto; [done|by apply spaces_cls| |].
    { rewrite Ex. cbn [app stops]. by rewrite ws_match. }
    unfold Str at 1.
    rewrite (backtrack_lits_ci _ _ x (w3 ++ body ++ T "--" ++ w5));
      [|done|done|done].
    cbn [rest eat].
    apply star_upto; [done|by apply spaces_cls| |].
    { destruct body as [|c body]; [apply dash_stops_ws|].
      cbn [app stops] in *. by rewrite ws_match. }
    cbn [rest eat].
    apply star_backoff; [done|done| |].
    + intros st' Hs Hne. apply (row_end_only w5); done.
    + cbn [Seq foldr backtrack rest set_cap eat].
      rewrite star_stop by apply dash_stops_ws.
      rewrite (backtrack_Str _ _ w5) by done.
      cbn [rest eat].
      apply star_all; [done|by apply spaces_cls|].
      cbn [rest eat at_eol eol]. reflexivity.
  - unfold group. cbn [caps eat set_cap pos cap_lookup Nat.eqb].
    f_equal.
    apply (slice_app _ (w1 ++ T "--" ++ w2 ++ x ++ w3) body (T "--" ++ w5)).
    + by rewrite <- !app_assoc.
    + repeat first [rewrite length_app | rewrite length_cons]. simpl. lia.
    + repeat first [rewrite length_app | rewrite length_cons]. simpl. lia.
Qed.

(** * The claims *)

(** C1.  A document with a row that is opened and never closed should be
    recovered at its end.  It is not: whatever the argument parser
    returned, the recovery raises [KeyError] on [cmds[-1]] as soon as a
    row is still open; and with the argument parser of the code the parse
    of [["--row--"]] raises at the row-open line already (C3). *)
Theorem unclosed_row_not_recovered parse_args profile lines st :
  scan parse_args profile init 0 lines = Ok st ->
  row_stack st <> [] ->
  parse_markers_with parse_args profile lines = Raise (KeyError (-1)) /\
  parse_markers [T "--row--"] PyNone = Raise (AttributeError "BOOTSTRAP").
Proof.
  intros Hs Hne. split; [|vm_compute; reflexivity].
  unfold parse_markers_with. rewrite Hs. simpl.
  destruct init_invariant as [Hk Hc].
  destruct (scan_invariant _ _ _ _ _ _ (Z.le_refl 0) Hk Hc Hs) as [Hk' _].
  rewrite (close_rows_keys_below _ _ _ Hk').
  by destruct (row_stack st).
Qed.

Lemma unclosed_row_not_recovered_witness :
  (scan split_only PyNone init 0 [T "--row--"; T "text"] = Ok open_row_state /\
   row_stack open_row_state <> []) /\
  parse_markers_with split_only PyNone [T "--row--"; T "text"]
  = Raise (KeyError (-1)).
Proof.
  assert (E : scan split_only PyNone init 0 [T "--row--"; T "text"]
              = Ok open_row_state) by (vm_compute; reflexivity).
  assert (Hne : row_stack open_row_state <> []) by discriminate.
  split; [split; [exact E | exact Hne]|].
  exact (proj1 (unclosed_row_not_recovered split_only PyNone _ _ E Hne)).
Defined.

(** C2.  After [parse_markers], recovery included, the commands should
    hold as many [ROW_OPEN] as [ROW_CLOSE].  The loop leaves one
    [ROW_OPEN] more for every row still open, and the recovery adds no
    [ROW_CLOSE]: it returns the commands of the loop when no row is open
    and raises [KeyError] on [cmds[-1]] otherwise, whatever the argument
    parser did.  So a result is balanced only because every document
    with an open row is refused; with the argument parser of the code
    the parse of [["--row--"; "text"]] raises at the row-open line
    already (C3). *)
Theorem open_rows_stay_unbalanced parse_args profile lines st :
  scan parse_args profile init 0 lines = Ok st ->
  total ROW_OPEN (cmds st)
  = (length (row_stack st) + total ROW_CLOSE (cmds st))%nat /\
  (row_stack st = [] ->
   parse_markers_with parse_args profile lines
   = Ok (rows st, cmds st, r2c st) /\
   total ROW_OPEN (cmds st) = total ROW_CLOSE (cmds st)) /\
  (row_stack st <> [] ->
   total ROW_OPEN (cmds st) <> total ROW_CLOSE (cmds st) /\
   parse_markers_with parse_args profile lines = Raise (KeyError (-1))) /\
  (forall rows' cmds' r2c',
     parse_markers_with parse_args profile lines = Ok (rows', cmds', r2c') ->
     cmds' = cmds st /\ total ROW_OPEN cmds' = total ROW_CLOSE cmds') /\
  parse_markers [T "--row--"; T "text"] PyNone
  = Raise (AttributeError "BOOTSTRAP").
Proof.
  intros Hs.
  destruct init_invariant as [Hk Hc].
  destruct (scan_invariant _ _ _ _ _ _ (Z.le_refl 0) Hk Hc Hs) as [Hk' Hc'].
  unfold stack_counts in Hc'.
  assert (Hp : parse_markers_with parse_args profile lines
               = match row_stack st with
                 | [] => Ok (rows st, cmds st, r2c st)
                 | _ :: _ => Raise (KeyError (-1))
                 end).
  { unfold parse_markers_with. rewrite Hs. simpl.
    rewrite (close_rows_keys_below _ _ _ Hk'). by destruct (row_stack st). }
  split; [done|]. split; [|split; [|split]].
  - intros E. rewrite E in Hp, Hc'. simpl in Hc'. done.
  - intros Hne. destruct (row_stack st) as [|top stack]; [done|].
    split; [|done]. simpl in Hc'. lia.
  - intros rows' cmds' r2c' Hok. rewrite Hp in Hok.
    destruct (row_stack st); [|done]. injection Hok as <- <- <-.
    simpl in Hc'. done.
  - vm_compute. reflexivity.
Qed.

Lemma open_rows_stay_unbalanced_witness :
  scan split_only PyNone init 0 [T "--row--"; T "a"; T "--"; T "b"]
  = Ok {| row_stack := [0];
          rows := {[ 0 := [] ]};
          cmds := list_to_map
            [(0, [Cmd (new_cmd ROW_OPEN); Cmd (new_cmd COL_OPEN)]);
             (2, [Cmd (new_cmd COL_CLOSE); Cmd (new_cmd COL_OPEN)])];
          r2c := {[ 0 := [0; 2] ]} |} /\
  parse_markers_with split_only PyNone [T "--row--"; T "a"; T "--"; T "b"]
  = Raise (KeyError (-1)).
Proof.
  assert (E : scan split_only PyNone init 0 [T "--row--"; T "a"; T "--"; T "b"]
    = Ok {| row_stack := [0];
            rows := {[ 0 := [] ]};
            cmds := list_to_map
              [(0, [Cmd (new_cmd ROW_OPEN); Cmd (new_cmd COL_OPEN)]);
               (2, [Cmd (new_cmd COL_CLOSE); Cmd (new_cmd COL_OPEN)])];
            r2c := {[ 0 := [0; 2] ]} |}) by (vm_compute; reflexivity).
  split; [exact E|].
  destruct (open_rows_stay_unbalanced split_only PyNone _ _ E)
    as (_ & _ & Hopen & _).
  apply Hopen. discriminate.
Defined.

(** C3.  [parse_row_args] should return the trimmed tokens between the
    commas.  Lines 216 to 219 compute them, every one trimmed and
    collapsed, but line 220 reads [GridConf.BOOTSTRAP], which the class
    does not define: every call raises [AttributeError], the one of the
    docstring included. *)
Theorem parse_row_args_raises :
  (forall arguments profile,
     Parsers.parse_row_args arguments profile
     = Raise (AttributeError "BOOTSTRAP")) /\
  (forall arguments, Forall collapsed (Parsers.split_args arguments)) /\
  Parsers.split_args (PyStr (T "span4 offset4, span4, span2"))
  = [T "span4 offset4"; T "span4"; T "span2"] /\
  Parsers.split_args (PyStr (T "  ")) = [].
Proof.
  split; [done|]. split; [apply split_args_collapsed|].
  split; vm_compute; reflexivity.
Qed.

(** C4.  Under the shorthand profile the tokens [4:1], [4] and [3] should
    come out expanded.  [expand_shortcuts] expands them and leaves every
    token as it is without the shorthand, but [parse_row_args] raises
    before it calls it, for the reason of C3, whatever the profile. *)
Theorem shorthand_not_reached :
  Parsers.parse_row_args (PyStr (T "4:1, 4, 3")) (PyStr (T "bootstrap"))
  = Raise (AttributeError "BOOTSTRAP") /\
  map (fun arg => Parsers.expand_shortcuts arg true)
      (Parsers.split_args (PyStr (T "4:1, 4, 3")))
  = [T "span4 offset1"; T "span4"; T "span3"] /\
  Parsers.expand_shortcuts (T "span4") true = T "span4" /\
  (forall arg, Parsers.expand_shortcuts arg false = arg).
Proof.
  split; [vm_compute; reflexivity|]. split; [vm_compute; reflexivity|].
  split; [vm_compute; reflexivity|]. done.
Qed.

(** C5.  On well-formed mappings [populate_cmd_params] returns, gives the
    column number [i] of every row the style number [i] the row declares,
    or the default style when the row declares no such style, and changes
    no other sequence; a row of three columns that declares two styles
    gets the default style on its third column only. *)
Theorem styles_in_declared_order rows cmds r2c def_col_style :
  well_formed rows cmds r2c ->
  (exists cmds',
     populate_cmd_params rows cmds r2c def_col_style = Ok cmds' /\
     (forall r declared cols i c,
        rows !! r = Some declared -> r2c !! r = Some cols ->
        cols !! i = Some c ->
        cmds' !! c = assign (style_for declared i def_col_style) <$> cmds !! c) /\
     (forall k,
        (forall r cols, is_Some (rows !! r) -> r2c !! r = Some cols -> k ∉ cols) ->
        cmds' !! k = cmds !! k)) /\
  populate_cmd_params two_styles_rows three_columns_cmds three_columns_r2c
    def_col_style
  = Ok (three_columns_styled def_col_style).
Proof.
  intros Hwf. split; [|apply three_columns_populate].
  unfold populate_cmd_params.
  set (keys := map fst (map_to_list rows)).
  assert (Hkeys : forall r, r ∈ keys <-> is_Some (rows !! r)).
  { intros r. unfold keys. rewrite list_elem_of_fmap. split.
    - intros [[r' x] [-> Hin]]. apply elem_of_map_to_list in Hin. eauto.
    - intros [x Hx]. exists (r, x). split; [done|].
      by apply elem_of_map_to_list. }
  destruct (fill_rows_spec def_col_style keys rows cmds r2c)
    as (cmds' & Hrun & Hset & Hkeep); try done.
  { apply NoDup_fst_map_to_list. }
  { intros r. apply Hkeys. }
  exists cmds'. split; [done|]. split.
  - intros r declared cols i c Hr. apply Hset; [apply Hkeys; eauto | done].
  - intros k Hk. apply Hkeep. intros r cols Hr. apply Hk. by apply Hkeys.
Qed.

Lemma styles_in_declared_order_witness :
  well_formed two_styles_rows three_columns_cmds three_columns_r2c /\
  exists cmds',
    populate_cmd_params two_styles_rows three_columns_cmds three_columns_r2c
      (PyStr (T "span1")) = Ok cmds' /\
    cmds' !! 4 = Some [Cmd (new_cmd COL_CLOSE); col_open (PyStr (T "span1"))].
Proof.
  assert (Hwf : well_formed two_styles_rows three_columns_cmds three_columns_r2c).
  { exact (parse_markers_with_well_formed split_only PyNone three_columns_doc
             _ _ _ three_columns_parse). }
  split; [exact Hwf|].
  destruct (styles_in_declared_order _ _ _ (PyStr (T "span1")) Hwf)
    as [(cmds' & Hrun & Hset & _) _].
  exists cmds'. split; [exact Hrun|].
  rewrite (Hset 0 [T "span4"; T "span6"] [0; 2; 4] 2%nat 4);
    vm_compute; reflexivity.
Defined.

(** C6.  When every key of the mapping is an index of the list of lines,
    [replace_markers] returns a list of the same length, in which a line
    no key denotes is unchanged and a line a key denotes is the tag of a
    sequence of that line; when no other key denotes the line, it is the
    tag of the sequence of the key. *)
Theorem replace_markers_frame obj_repr (lines : list text)
    (cmds : gmap Z (list entry)) :
  (forall k, is_Some (cmds !! k) -> valid_index (length lines) k) ->
  exists out,
    replace_markers obj_repr lines cmds = Ok out /\
    length out = length lines /\
    (forall i,
       (forall k, is_Some (cmds !! k) -> index (length lines) k <> i) ->
       out !! i = lines !! i) /\
    (forall k commands, cmds !! k = Some commands ->
       exists k' commands', cmds !! k' = Some commands' /\
         index (length lines) k' = index (length lines) k /\
         out !! index (length lines) k = Some (tag obj_repr commands')) /\
    (forall k commands, cmds !! k = Some commands ->
       (forall k', is_Some (cmds !! k') ->
          index (length lines) k' = index (length lines) k -> k' = k) ->
       out !! index (length lines) k = Some (tag obj_repr commands)).
Proof.
  intros Hvalid. unfold replace_markers.
  destruct (replace_each_spec obj_repr (map_to_list cmds) lines)
    as (out & Hrun & Hlen & Hkeep & Htag).
  { apply Forall_forall. intros [k v] Hin. simpl.
    apply elem_of_map_to_list in Hin. apply Hvalid. eauto. }
  assert (Hsome : forall k commands, cmds !! k = Some commands ->
            exists k' commands', cmds !! k' = Some commands' /\
              index (length lines) k' = index (length lines) k /\
              out !! index (length lines) k = Some (tag obj_repr commands')).
  { intros k commands Hk.
    destruct (Htag (k, commands)) as ([k' commands'] & Hin & Heq & Hout).
    { by apply elem_of_map_to_list. }
    exists k', commands'. split; [by apply elem_of_map_to_list|]. done. }
  exists out. split; [done|]. split; [done|]. split; [|split; [done|]].
  - intros i Hi. apply Hkeep. intros [k v] Hin. simpl.
    apply elem_of_map_to_list in Hin. apply Hi. eauto.
  - intros k commands Hk Hinj.
    destruct (Hsome k commands Hk) as (k' & commands' & Hk' & Heq & Hout).
    assert (k' = k) by (apply Hinj; eauto). subst k'.
    rewrite Hk in Hk'. by injection Hk' as <-.
Qed.

Lemma replace_markers_frame_witness :
  (forall k,
     is_Some (({[ 1 := [Cmd (new_cmd COL_CLOSE); col_open (PyStr (T "span4"))] ]}
               : gmap Z (list entry)) !! k) ->
     valid_index (length [T "left"; T "--"; T "right"]) k) /\
  exists out,
    replace_markers (fun _ => [])
      [T "left"; T "--"; T "right"]
      {[ 1 := [Cmd (new_cmd COL_CLOSE); col_open (PyStr (T "span4"))] ]}
    = Ok out /\ length out = 3%nat.
Proof.
  assert (H : forall k,
     is_Some (({[ 1 := [Cmd (new_cmd COL_CLOSE); col_open (PyStr (T "span4"))] ]}
               : gmap Z (list entry)) !! k) ->
     valid_index (length [T "left"; T "--"; T "right"]) k).
  { intros k [x Hk]. apply lookup_singleton_Some in Hk as [<- _].
    unfold valid_index. simpl. lia. }
  split; [exact H|].
  destruct (replace_markers_frame (fun _ => []) _ _ H) as (out & Hrun & Hlen & _).
  exists out. split; [exact Hrun | exact Hlen].
Defined.

(** C7.  On a document without a marker line the whole pass of [run]
    returns the lines as they are. *)
Theorem run_without_markers obj_repr config (lines : list text) :
  Forall (fun line => classify line = NotAMarker) lines ->
  run obj_repr config lines = Ok lines.
Proof.
  intros H. unfold run, run_with, parse_markers_with.
  rewrite scan_no_markers by done. simpl.
  unfold populate_cmd_params, replace_markers.
  rewrite !map_to_list_empty. done.
Qed.

Lemma run_without_markers_witness :
  Forall (fun line => classify line = NotAMarker)
    [T "# Title"; T "some text -- with dashes"; T ""] /\
  run (fun _ => []) ∅ [T "# Title"; T "some text -- with dashes"; T ""]
  = Ok [T "# Title"; T "some text -- with dashes"; T ""].
Proof.
  assert (H : Forall (fun line => classify line = NotAMarker)
                [T "# Title"; T "some text -- with dashes"; T ""]).
  { repeat constructor; vm_compute; reflexivity. }
  split; [exact H | exact (run_without_markers _ _ _ H)].
Defined.

(** C8.  A marker line should get the command sequence of its type.  The
    code stores it only after the arguments of a row are parsed, and
    parsing them always raises (C3): the first row-open line ends the
    parse and gets no sequence. *)
Theorem row_open_line_gets_no_commands :
  classify (T "--row span4--") = RowOpenMarker (PyStr (T "span4")) /\
  step Parsers.parse_row_args PyNone init 0 (T "--row span4--")
  = Raise (AttributeError "BOOTSTRAP") /\
  parse_markers [T "--row span4--"; T "text"; T "--end--"] PyNone
  = Raise (AttributeError "BOOTSTRAP").
Proof. repeat split; vm_compute; reflexivity. Qed.

(** C9.  A line (a text without a line break) gets one classification:
    the three patterns exclude one another and each classification is the
    match of its pattern; a match takes the whole line; the case of the
    letters does not matter; blanks are accepted before, between and
    after the pieces of a marker.  The text a row-open line comes with is
    the first group of the match: what stands between the blanks after
    [row] and the last [--] of the line. *)
Theorem classifier_spec (l : text) :
  is_line l ->
  ((exists args, classify l = RowOpenMarker args)
   <-> matches Patterns.row_open l) /\
  (classify l = RowCloseMarker <-> matches Patterns.row_close l) /\
  (classify l = ColSeparatorMarker <-> matches Patterns.col_sep l) /\
  (classify l = NotAMarker <->
   ~ matches Patterns.row_open l /\ ~ matches Patterns.row_close l /\
   ~ matches Patterns.col_sep l) /\
  ~ (matches Patterns.row_open l /\ matches Patterns.row_close l) /\
  ~ (matches Patterns.row_open l /\ matches Patterns.col_sep l) /\
  ~ (matches Patterns.row_close l /\ matches Patterns.col_sep l) /\
  (forall r m,
     r = Patterns.row_open \/ r = Patterns.row_close \/ r = Patterns.col_sep ->
     re_match Patterns.re_flags r l = Some m ->
     rest m = [] /\ pos m = length l) /\
  (forall l', same_letters l' l -> kind (classify l') = kind (classify l)) /\
  (forall w1 w2, spaces w1 -> spaces w2 ->
     l = w1 ++ T "--" ++ w2 -> classify l = ColSeparatorMarker) /\
  (forall w1 w2 x w3 w4,
     spaces w1 -> spaces w2 -> same_letters x (T "end") ->
     spaces w3 -> spaces w4 ->
     l = w1 ++ T "--" ++ w2 ++ x ++ w3 ++ T "--" ++ w4 ->
     classify l = RowCloseMarker) /\
  (forall w1 w2 x w3 body w4 w5,
     spaces w1 -> spaces w2 -> same_letters x (T "row") -> spaces w3 ->
     args_text body -> spaces w4 -> spaces w5 ->
     l = w1 ++ T "--" ++ w2 ++ x ++ w3 ++ body ++ w4 ++ T "--" ++ w5 ->
     exists args, classify l = RowOpenMarker args) /\
  (forall args,
     classify l = RowOpenMarker args <->
     exists m, re_match Patterns.re_flags Patterns.row_open l = Some m /\
               args = group l m 1) /\
  (forall args,
     classify l = RowOpenMarker args <->
     exists w1 w2 x w3 body w5,
       spaces w1 /\ spaces w2 /\ same_letters x (T "row") /\ spaces w3 /\
       args_text body /\ stops is_space body /\ spaces w5 /\
       l = w1 ++ T "--" ++ w2 ++ x ++ w3 ++ body ++ T "--" ++ w5 /\
       args = PyStr body).
Proof.
  intros Hl.
  assert (Hoc : ~ (matches Patterns.row_open l /\ matches Patterns.row_close l)).
  { intros [Ho Hc]. by apply (open_close_exclusive l). }
  assert (Hos : ~ (matches Patterns.row_open l /\ matches Patterns.col_sep l)).
  { intros [Ho Hs]. by apply (open_sep_exclusive l). }
  assert (Hcs : ~ (matches Patterns.row_close l /\ matches Patterns.col_sep l)).
  { intros [Hc Hs]. by apply (close_sep_exclusive l). }
  split; [symmetry; apply classify_row_open|].
  split.
  { rewrite <- classify_row_close. split; [by intros [_ ?]|].
    intros Hc. split; [|done]. intros Ho. apply Hoc. done. }
  split.
  { rewrite <- classify_col_sep. split; [by intros (_ & _ & ?)|].
    intros Hs. split; [|split; [|done]].
    - intros Ho. apply Hos. done.
    - intros Hc. apply Hcs. done. }
  split; [symmetry; apply classify_not_a_marker|].
  split; [done|]. split; [done|]. split; [done|].
  split; [intros r m Hr; by apply marker_match_whole|].
  split; [intros l' H; by apply kind_lower|].
  split; [intros w1 w2 H1 H2 ->; by apply col_sep_form|].
  split; [intros w1 w2 x w3 w4 H1 H2 Hx H3 H4 ->; by apply row_close_form|].
  split.
  { intros w1 w2 x w3 body w4 w5 H1 H2 Hx H3 Hb H4 H5 ->.
    by apply row_open_form. }
  assert (Hgroup : forall args,
    classify l = RowOpenMarker args <->
    exists m, re_match Patterns.re_flags Patterns.row_open l = Some m /\
              args = group l m 1).
  { intros args. unfold classify. split.
    - destruct (re_match Patterns.re_flags Patterns.row_open l) as [m|].
      + intros [= <-]. eauto.
      + destruct (re_match Patterns.re_flags Patterns.row_close l); [done|].
        by destruct (re_match Patterns.re_flags Patterns.col_sep l).
    - intros (m & -> & ->). done. }
  split; [exact Hgroup|].
  intros args. split.
  - intros Hc. apply Hgroup in Hc as (m & Em & ->).
    destruct (marker_match_whole _ _ _ (or_introl eq_refl) Hl Em) as [Hrest _].
    pose proof Em as Hsound.
    apply re_match_sound in Hsound as (a & E & Hlang & _).
    rewrite Hrest in E, Hlang. rewrite app_nil_r in E. subst a.
    apply row_open_lang in Hlang
      as (w1 & w2 & x & w3 & body & w4 & w5 & E & H1 & H2 & Hx & H3 & Hb
          & H4 & H5 & _).
    assert (Hbw : args_text (body ++ w4)).
    { apply Forall_app. split; [done|].
      eapply Forall_impl; [exact H4|]. apply space_in_row_args. }
    destruct (leading_blanks (body ++ w4) w3 H3 Hbw)
      as (w3' & body' & Ew & H3' & Hb' & Hs').
    assert (El : l = w1 ++ T "--" ++ w2 ++ x ++ w3' ++ body' ++ T "--" ++ w5).
    { rewrite E. do 3 f_equal.
      rewrite (app_assoc w3' body'), <- Ew, <- !app_assoc. done. }
    exists w1, w2, x, w3', body', w5. repeat split; try done.
    destruct (row_open_match w1 w2 x w3' body' w5 H1 H2 Hx H3' Hb' Hs' H5)
      as (m' & Em' & Hg).
    rewrite <- El in Em', Hg. rewrite Em in Em'. injection Em' as <-. done.
  - intros (w1 & w2 & x & w3 & body & w5 & H1 & H2 & Hx & H3 & Hb & Hs & H5
            & El & ->).
    apply Hgroup.
    destruct (row_open_match w1 w2 x w3 body w5 H1 H2 Hx H3 Hb Hs H5)
      as (m & Em & Hg).
    rewrite <- El in Em, Hg. eauto.
Qed.

Lemma classifier_spec_witness :
  (is_line (T "  -- End --  ") /\
   classify (T "  -- End --  ") = RowCloseMarker /\
   kind (classify (T "  -- END --  ")) = kind (classify (T "  -- End --  "))) /\
  (is_line (T " -- Row  span4 offset1, 6 --") /\
   classify (T " -- Row  span4 offset1, 6 --")
   = RowOpenMarker (PyStr (T "span4 offset1, 6 "))).
Proof.
  split.
  2:{ assert (Hl : is_line (T " -- Row  span4 offset1, 6 --")).
      { unfold is_line. intros H. apply list_elem_of_In in H. vm_compute in H.
        repeat (destruct H as [H|H]; [discriminate H|]). exact H. }
      split; [exact Hl|].
      destruct (classifier_spec _ Hl)
        as (_ & _ & _ & _ & _ & _ & _ & _ & _ & _ & _ & _ & _ & Hargs).
      apply Hargs.
      exists (T " "), (T " "), (T "Row"), (T "  "), (T "span4 offset1, 6 "), [].
      repeat split; try reflexivity; repeat constructor. }
  assert (Hl : is_line (T "  -- End --  ")).
  { unfold is_line. intros H. apply list_elem_of_In in H. vm_compute in H.
    repeat (destruct H as [H|H]; [discriminate H|]). exact H. }
  split; [exact Hl|].
  destruct (classifier_spec _ Hl)
    as (_ & _ & _ & _ & _ & _ & _ & _ & Hcase & _ & Hend & _).
  split.
  - apply (Hend (T "  ") (T " ") (T "End") (T " ") (T "  "));
      repeat constructor.
  - apply Hcase. reflexivity.
Defined.

(** C10.  When the loop reaches a row-close or a column-separator line
    with no row open, [parse_markers] raises [IndexError], and so does
    the whole pass. *)
Theorem stack_underflow_raises parse_args profile pre line post st :
  scan parse_args profile init 0 pre = Ok st ->
  row_stack st = [] ->
  classify line = RowCloseMarker \/ classify line = ColSeparatorMarker ->
  parse_markers_with parse_args profile (pre ++ line :: post)
  = Raise IndexError /\
  forall obj_repr config,
    get_conf config "name" = profile ->
    run_with obj_repr parse_args config (pre ++ line :: post)
    = Raise IndexError.
Proof.
  intros Hs He Hm.
  assert (H : parse_markers_with parse_args profile (pre ++ line :: post)
              = Raise IndexError).
  { unfold parse_markers_with. rewrite scan_app, Hs. simpl.
    by rewrite (step_underflow _ _ _ _ _ He Hm). }
  split; [done|]. intros obj_repr config <-. unfold run_with. by rewrite H.
Qed.

Lemma stack_underflow_raises_witness :
  (scan Parsers.parse_row_args PyNone init 0 [T "text"] = Ok init /\
   row_stack init = [] /\
   (classify (T "--end--") = RowCloseMarker \/
    classify (T "--end--") = ColSeparatorMarker)) /\
  parse_markers [T "text"; T "--end--"; T "more"] PyNone = Raise IndexError /\
  run (fun _ => []) ∅ [T "text"; T "--end--"; T "more"] = Raise IndexError.
Proof.
  assert (H1 : scan Parsers.parse_row_args PyNone init 0 [T "text"] = Ok init)
    by (vm_compute; reflexivity).
  assert (H2 : row_stack init = []) by reflexivity.
  assert (H3 : classify (T "--end--") = RowCloseMarker \/
               classify (T "--end--") = ColSeparatorMarker)
    by (left; vm_compute; reflexivity).
  split; [split; [exact H1 | split; [exact H2 | exact H3]]|].
  destruct (stack_underflow_raises Parsers.parse_row_args PyNone
              [T "text"] (T "--end--") [T "more"] init H1 H2 H3) as [Hp Hr].
  split; [exact Hp|]. exact (Hr (fun _ => []) ∅ eq_refl).
Defined.

(** * Further properties *)

(** ** The pass on a document with markers *)

Lemma scan_first_marker profile pre line post n :
  Forall (fun l => classify l = NotAMarker) pre ->
  classify line <> NotAMarker ->
  scan Parsers.parse_row_args profile init n (pre ++ line :: post)
  = Raise (marker_error (classify line)).
Proof.
  intros Hpre Hm. rewrite scan_app, scan_no_markers by done. simpl.
  unfold step. destruct (classify line); simpl; done.
Qed.

(** X1.  With the argument parser of the code, the first marker line of a
    document ends the pass: [parse_markers] and [run] raise
    [AttributeError] when it opens a row and [IndexError] otherwise. *)
Theorem run_raises_at_first_marker obj_repr config profile pre line post :
  Forall (fun l => classify l = NotAMarker) pre ->
  classify line <> NotAMarker ->
  parse_markers (pre ++ line :: post) profile
  = Raise (marker_error (classify line)) /\
  run obj_repr config (pre ++ line :: post)
  = Raise (marker_error (classify line)).
Proof.
  intros Hpre Hm. split.
  - unfold parse_markers, parse_markers_with.
    by rewrite scan_first_marker.
  - unfold run, run_with, parse_markers_with.
    by rewrite scan_first_marker.
Qed.

Lemma run_raises_at_first_marker_witness :
  (Forall (fun l => classify l = NotAMarker) [T "# Title"] /\
   classify (T "-- row 4, 8 --") <> NotAMarker) /\
  run (fun _ => []) ∅ [T "# Title"; T "-- row 4, 8 --"; T "--end--"]
  = Raise (AttributeError "BOOTSTRAP").
Proof.
  assert (H1 : Forall (fun l => classify l = NotAMarker) [T "# Title"])
    by (repeat constructor; vm_compute; reflexivity).
  assert (H2 : classify (T "-- row 4, 8 --") <> NotAMarker)
    by (vm_compute; discriminate).
  split; [split; [exact H1 | exact H2]|].
  exact (proj2 (run_raises_at_first_marker (fun _ => []) ∅ PyNone
                  [T "# Title"] (T "-- row 4, 8 --") [T "--end--"] H1 H2)).
Defined.

(** ** Keys that are no index of the lines *)

Lemma setitem_length (lines : list text) k v lines' :
  setitem lines k v = Ok lines' -> length lines' = length lines.
Proof.
  unfold setitem.
  destruct ((0 <=? k) && (k <? Z.of_nat (length lines)));
    [intros [= <-]; apply length_insert|].
  destruct ((- Z.of_nat (length lines) <=? k) && (k <? 0));
    [intros [= <-]; apply length_insert|done].
Qed.

Lemma setitem_error (lines : list text) k v e :
  setitem lines k v = Raise e -> e = IndexError.
Proof.
  unfold setitem.
  destruct ((0 <=? k) && (k <? Z.of_nat (length lines))); [done|].
  destruct ((- Z.of_nat (length lines) <=? k) && (k <? 0)); [done|].
  by intros [= <-].
Qed.

Lemma replace_each_bad_key obj_repr items (lines : list text) :
  Exists (fun kv => ~ valid_index (length lines) kv.1) items ->
  replace_each obj_repr items lines = Raise IndexError.
Proof.
  revert lines. induction items as [|[k v] items IH]; intros lines H.
  - by apply Exists_nil in H.
  - simpl. destruct (setitem lines k (tag obj_repr v)) as [lines'|e] eqn:E.
    + simpl. apply IH. rewrite (setitem_length _ _ _ _ E).
      apply Exists_cons in H as [H|H]; [|done].
      simpl in H. by rewrite (setitem_invalid _ _ _ H) in E.
    + simpl. by rewrite (setitem_error _ _ _ _ E).
Qed.

(** X2.  A key of the command mapping that is no index of the list of
    lines makes [replace_markers] raise [IndexError], whatever the other
    keys are. *)
Theorem replace_markers_bad_key obj_repr (lines : list text)
    (cmds : gmap Z (list entry)) k :
  is_Some (cmds !! k) -> ~ valid_index (length lines) k ->
  replace_markers obj_repr lines cmds = Raise IndexError.
Proof.
  intros [v Hk] Hbad. unfold replace_markers. apply replace_each_bad_key.
  apply Exists_exists. exists (k, v). split; [|done].
  by apply elem_of_map_to_list.
Qed.

Lemma replace_markers_bad_key_witness :
  (is_Some (({[ 3 := [] ]} : gmap Z (list entry)) !! 3) /\
   ~ valid_index (length [T "one"; T "two"]) 3) /\
  replace_markers (fun _ => []) [T "one"; T "two"] {[ 3 := [] ]}
  = Raise IndexError.
Proof.
  assert (H1 : is_Some (({[ 3 := [] ]} : gmap Z (list entry)) !! 3))
    by (exists []; reflexivity).
  assert (H2 : ~ valid_index (length [T "one"; T "two"]) 3)
    by (unfold valid_index; simpl; lia).
  split; [split; [exact H1 | exact H2]|].
  exact (replace_markers_bad_key (fun _ => []) _ _ 3 H1 H2).
Defined.

(** X3.  The key [-1] is Python's index of the last line: the mapping with
    this key alone rewrites the last line of a document and no other. *)
Theorem replace_markers_last_line obj_repr (front : list text) last_line
    commands :
  replace_markers obj_repr (front ++ [last_line]) {[ -1 := commands ]}
  = Ok (front ++ [tag obj_repr commands]).
Proof.
  unfold replace_markers. rewrite map_to_list_singleton. simpl.
  unfold setitem. rewrite length_app. simpl.
  replace (0 <=? -1) with false by done. simpl.
  replace (- Z.of_nat (length front + 1) <=? -1) with true
    by (symmetry; apply Z.leb_le; lia).
  simpl. f_equal.
  replace (Z.to_nat (Z.of_nat (length front + 1) + -1))
    with (length front + 0)%nat by lia.
  by rewrite insert_app_r.
Qed.

(** ** What the style propagator leaves alone *)

Lemma fill_first_erase commands styles def_col_style commands' styles' :
  fill_first commands styles def_col_style = Ok (commands', styles') ->
  map erase commands' = map erase commands.
Proof.
  revert commands' styles'.
  induction commands as [|[c|l] commands IH]; intros commands' styles'; simpl.
  - by intros [= <- _].
  - destruct (GridCmd.eqb (cmdtype c) COL_OPEN).
    + destruct (pop styles) as [[x s]|]; by intros [= <- _].
    + destruct (fill_first commands styles def_col_style) as [[c1 s1]|e] eqn:E;
        simpl; [|done].
      intros [= <- _]. simpl. by rewrite (IH _ _ eq_refl).
  - done.
Qed.

Lemma fill_cols_erase cols : forall styles (cmds cmds' : gmap Z (list entry))
    def_col_style,
  fill_cols cols styles cmds def_col_style = Ok cmds' ->
  forall k, fmap (map erase) (cmds' !! k) = fmap (map erase) (cmds !! k).
Proof.
  induction cols as [|c cols IH]; intros styles cmds cmds' def_col_style; simpl.
  - by intros [= <-].
  - destruct (cmds !! c) as [commands|] eqn:Ec; [|done].
    destruct (fill_first commands styles def_col_style) as [[c1 s1]|e] eqn:E;
      simpl; [|done].
    intros H k. rewrite (IH _ _ _ _ H k).
    destruct (decide (c = k)) as [<-|Hne].
    + rewrite lookup_insert_eq, Ec. simpl.
      by rewrite (fill_first_erase _ _ _ _ _ E).
    + by rewrite lookup_insert_ne.
Qed.

Lemma fill_rows_erase keys : forall rows (cmds cmds' : gmap Z (list entry))
    r2c def_col_style,
  fill_rows keys rows cmds r2c def_col_style = Ok cmds' ->
  forall k, fmap (map erase) (cmds' !! k) = fmap (map erase) (cmds !! k).
Proof.
  induction keys as [|r keys IH]; intros rows cmds cmds' r2c def_col_style; simpl.
  - by intros [= <-].
  - destruct (rows !! r) as [declared|]; [|done].
    destruct (r2c !! r) as [cols|]; [|done].
    destruct (fill_cols cols (reverse declared) cmds def_col_style)
      as [cmds1|e] eqn:E; simpl; [|done].
    intros H k. rewrite (IH _ _ _ _ _ H k).
    apply (fill_cols_erase _ _ _ _ _ E).
Qed.

(** X4.  Whatever the three mappings are, when [populate_cmd_params]
    returns it has kept the keys of the command mapping and, in every
    sequence, the commands and their types: only styles are set. *)
Theorem populate_keeps_commands rows (cmds cmds' : gmap Z (list entry)) r2c
    def_col_style :
  populate_cmd_params rows cmds r2c def_col_style = Ok cmds' ->
  forall k, fmap (map erase) (cmds' !! k) = fmap (map erase) (cmds !! k).
Proof. unfold populate_cmd_params. apply fill_rows_erase. Qed.

Lemma populate_keeps_commands_witness :
  populate_cmd_params two_styles_rows three_columns_cmds three_columns_r2c
    PyNone = Ok (three_columns_styled PyNone) /\
  fmap (map erase) (three_columns_styled PyNone !! 4)
  = Some [Cmd (new_cmd COL_CLOSE); Cmd (new_cmd COL_OPEN)].
Proof.
  pose proof (three_columns_populate PyNone) as E.
  split; [exact E|].
  rewrite (populate_keeps_commands _ _ _ _ _ E 4). reflexivity.
Defined.

Lemma fill_rows_missing keys : forall rows (cmds : gmap Z (list entry)) r2c
    def_col_style r,
  r ∈ keys -> r2c !! r = None ->
  exists e, fill_rows keys rows cmds r2c def_col_style = Raise e.
Proof.
  induction keys as [|r' keys IH]; intros rows cmds r2c def_col_style r Hin Hr.
  - by apply elem_of_nil in Hin.
  - simpl. destruct (rows !! r') as [declared|]; [|eauto].
    destruct (r2c !! r') as [cols|] eqn:Ec; [|eauto].
    destruct (fill_cols cols (reverse declared) cmds def_col_style)
      as [cmds1|e]; simpl; [|eauto].
    apply elem_of_cons in Hin as [->|Hin]; [congruence|].
    by apply (IH _ _ _ _ r).
Qed.

(** X5.  A row without an entry in the row-to-column mapping makes
    [populate_cmd_params] raise. *)
Theorem populate_row_without_columns rows (cmds : gmap Z (list entry)) r2c
    def_col_style r :
  is_Some (rows !! r) -> r2c !! r = None ->
  exists e, populate_cmd_params rows cmds r2c def_col_style = Raise e.
Proof.
  intros [declared Hr] Hc. unfold populate_cmd_params.
  apply (fill_rows_missing _ _ _ _ _ r); [|done].
  apply list_elem_of_fmap. exists (r, declared). split; [done|].
  by apply elem_of_map_to_list.
Qed.

Lemma populate_row_without_columns_witness :
  (is_Some (two_styles_rows !! 0) /\ (∅ : gmap Z (list Z)) !! 0 = None) /\
  populate_cmd_params two_styles_rows three_columns_cmds ∅ PyNone
  = Raise (KeyError 0).
Proof.
  assert (H1 : is_Some (two_styles_rows !! 0)) by (eexists; reflexivity).
  assert (H2 : (∅ : gmap Z (list Z)) !! 0 = None) by reflexivity.
  split; [split; [exact H1 | exact H2]|].
  destruct (populate_row_without_columns two_styles_rows three_columns_cmds
              ∅ PyNone 0 H1 H2) as [e He].
  rewrite He. vm_compute in He. symmetry. exact He.
Defined.

(** ** Rewritten lines *)

Lemma marker_starts_with_dashes r l :
  r = Patterns.row_open \/ r = Patterns.row_close \/ r = Patterns.col_sep ->
  matches r l ->
  exists w p, spaces w /\ l = w ++ T "--" ++ p.
Proof.
  intros Hr Hm. apply matches_iff in Hm as (a & s & -> & H).
  destruct Hr as [->|[->| ->]].
  - apply row_open_lang in H
      as (w1 & w2 & x & w3 & body & w4 & w5 & -> & H1 & _).
    exists w1. eexists. split; [done|]. by rewrite <- !app_assoc.
  - apply row_close_lang in H as (w1 & w2 & x & w3 & w4 & -> & H1 & _).
    exists w1. eexists. split; [done|]. by rewrite <- !app_assoc.
  - apply col_sep_lang in H as (w1 & w2 & -> & H1 & _).
    exists w1. eexists. split; [done|]. by rewrite <- !app_assoc.
Qed.

Lemma tag_no_dashes obj_repr commands w p :
  spaces w -> tag obj_repr commands = w ++ T "--" ++ p -> False.
Proof.
  unfold tag, spaces. intros Hw E. simpl in E.
  destruct w as [|c [|c' w]]; simpl in E.
  - discriminate E.
  - discriminate E.
  - injection E as _ <- _. apply Forall_cons in Hw as [_ Hw].
    apply Forall_cons in Hw as [Hc _]. discriminate Hc.
Qed.

(** X6.  The line [replace_markers] writes for a command sequence is never
    a marker line itself. *)
Theorem tag_is_not_a_marker obj_repr commands :
  classify (tag obj_repr commands) = NotAMarker.
Proof.
  apply classify_not_a_marker.
  repeat split; intros Hm;
    eapply marker_starts_with_dashes in Hm as (w & p & Hw & E); eauto;
    by apply (tag_no_dashes obj_repr commands w p).
Qed.

(** ** The text of a command *)

(** X7.  The text of a command tells its type, and for a [COL_OPEN]
    command the text of its style. *)
Theorem cmd_str_injective c1 c2 :
  cmd_str c1 = cmd_str c2 ->
  cmdtype c1 = cmdtype c2 /\
  (cmdtype c1 = COL_OPEN ->
   py_str (default (PyStr []) (style c1))
   = py_str (default (PyStr []) (style c2))).
Proof.
  unfold cmd_str. destruct c1 as [t1 s1], c2 as [t2 s2]. simpl.
  destruct t1, t2; simpl; intros H; try discriminate H; split; try done.
  intros _. injection H as H. by apply app_inv_tail in H.
Qed.

Lemma cmd_str_injective_witness :
  cmd_str (set_style (new_cmd COL_OPEN) (PyStr (T "None")))
  = cmd_str (set_style (new_cmd COL_OPEN) PyNone) /\
  cmdtype (set_style (new_cmd COL_OPEN) (PyStr (T "None"))) = COL_OPEN.
Proof.
  assert (H : cmd_str (set_style (new_cmd COL_OPEN) (PyStr (T "None")))
              = cmd_str (set_style (new_cmd COL_OPEN) PyNone)) by reflexivity.
  split; [exact H|]. exact (proj1 (cmd_str_injective _ _ H)).
Defined.

(** ** Configuration profiles *)

Lemma string_of_text_eq (a : text) (s : string) :
  string_of_list_ascii a = s <-> a = T s.
Proof.
  unfold T. split.
  - intros <-. by rewrite list_ascii_of_string_of_list_ascii.
  - intros ->. by rewrite string_of_list_ascii_of_string.
Qed.

(** X8.  [GridConf.get] accepts the three profile names in any case and
    raises [Exception] for every other name; the configuration it returns
    holds the key [name] alone, so none of the settings of the profile and
    no default column style can be read from it. *)
Theorem get_keeps_the_name_only profile_name :
  let name := map py_lower (py_str profile_name) in
  (name ∈ [T "bootstrap"; T "skeleton"; T "960gs"] ->
   GridConf.get profile_name
   = GridConf.Conf
       {[ "name"%string := (PyStr name, T "Configuration profile name") ]}) /\
  (name ∉ [T "bootstrap"; T "skeleton"; T "960gs"] ->
   GridConf.get profile_name
   = GridConf.ConfError (T "Error getting configuration profile: " ++ name)) /\
  (forall conf key,
     GridConf.get profile_name = GridConf.Conf conf ->
     get_conf conf "name" = PyStr name /\
     (key <> "name"%string -> get_conf conf key = PyNone)).
Proof.
  intros name. unfold GridConf.get. fold name.
  assert (Hcases :
    (name ∈ [T "bootstrap"; T "skeleton"; T "960gs"] /\
     exists o, subscript_str GridConf.PROFILES (string_of_list_ascii name) = Ok o) \/
    ((name ∉ [T "bootstrap"; T "skeleton"; T "960gs"]) /\
     exists e, subscript_str GridConf.PROFILES (string_of_list_ascii name)
               = Raise e)).
  { unfold subscript_str, GridConf.PROFILES. cbn [assoc].
    destruct (String.eqb_spec (string_of_list_ascii name) "bootstrap") as [E|E].
    { left. apply string_of_text_eq in E. rewrite E. split; [by left|eauto]. }
    destruct (String.eqb_spec (string_of_list_ascii name) "skeleton") as [E1|E1].
    { left. apply string_of_text_eq in E1. rewrite E1.
      split; [right; by left|eauto]. }
    destruct (String.eqb_spec (string_of_list_ascii name) "960gs") as [E2|E2].
    { left. apply string_of_text_eq in E2. rewrite E2.
      split; [right; right; by left|eauto]. }
    right. split; [|eauto]. intros Hin.
    repeat (apply elem_of_cons in Hin as [Hin|Hin];
            [apply string_of_text_eq in Hin; done|]).
    by apply elem_of_nil in Hin. }
  destruct Hcases as [[Hin [o Ho]]|[Hout [e He]]].
  - rewrite Ho. simpl. split; [done|]. split; [done|].
    intros conf key [= <-]. unfold get_conf. split.
    + by rewrite lookup_singleton_eq.
    + intros Hne. by rewrite lookup_singleton_ne.
  - rewrite He. simpl. split; [done|]. split; [done|]. done.
Qed.

Lemma get_keeps_the_name_only_witness :
  (map py_lower (py_str (PyStr (T "BootStrap"))))
    ∈ [T "bootstrap"; T "skeleton"; T "960gs"] /\
  GridConf.get (PyStr (T "BootStrap"))
  = GridConf.Conf
      {[ "name"%string := (PyStr (T "bootstrap"), T "Configuration profile name") ]}.
Proof.
  assert (H : (map py_lower (py_str (PyStr (T "BootStrap"))))
                ∈ [T "bootstrap"; T "skeleton"; T "960gs"]) by (by left).
  split; [exact H|].
  exact (proj1 (get_keeps_the_name_only (PyStr (T "BootStrap"))) H).
Defined.

(** ** Shortcuts *)

Lemma lang_alphabet fl r : forall pv a s,
  lang fl r pv a s -> Forall (fun c => alphabet fl r c = true) a.
Proof.
  induction r as [| | |x|items|items|r1 IH1 r2 IH2|r1 IH1|n r1 IH1];
    intros pv a s; cbn [lang alphabet].
  - by intros ->.
  - by intros [-> _].
  - by intros [-> _].
  - intros (c & -> & Hc). by repeat constructor.
  - intros (c & -> & Hc). by repeat constructor.
  - done.
  - intros (a1 & a2 & -> & H1 & H2). apply Forall_app. split.
    + eapply Forall_impl; [by eapply IH1|]. intros c Hc. simpl in Hc.
      by rewrite Hc.
    + eapply Forall_impl; [by eapply IH2|]. intros c Hc. simpl in Hc.
      rewrite Hc. apply orb_true_r.
  - intros [H| ->]; [by eapply IH1|done].
  - by apply IH1.
Qed.

Lemma alphabet_spnoff c :
  alphabet Patterns.no_flags Patterns.re_spnoff c = true ->
  shortcut_char c = true.
Proof. all_chars c; vm_compute; intros H; first [exact H | discriminate H]. Qed.

Lemma newline_shortcut_char c : chr_eqb c newline = true -> shortcut_char c = true.
Proof. intros H. apply chr_eqb_eq in H as ->. reflexivity. Qed.

(** A match of [re_spnoff] leaves nothing or a last newline. *)
Lemma spnoff_eol pv a s :
  lang Patterns.no_flags Patterns.re_spnoff pv a s ->
  eol Patterns.no_flags s = true.
Proof.
  unfold Patterns.re_spnoff. intros H.
  do 5 (apply lang_cat_inv in H as (? & ? & _ & _ & H)).
  apply lang_cat_inv in H as (? & ? & _ & He & H).
  apply lang_eps_inv in H as ->. apply lang_eol_inv in He as [_ He]. done.
Qed.

Lemma spnoff_no_match arg c :
  c ∈ arg -> shortcut_char c = false ->
  re_match Patterns.no_flags Patterns.re_spnoff arg = None.
Proof.
  intros Hin Hc.
  destruct (re_match Patterns.no_flags Patterns.re_spnoff arg) as [m|] eqn:E;
    [|done].
  exfalso. apply re_match_sound in E as (a & -> & Hlang & _).
  apply elem_of_app in Hin as [Hin|Hin].
  - apply lang_alphabet in Hlang. rewrite Forall_forall in Hlang.
    apply Hlang, alphabet_spnoff in Hin. congruence.
  - apply spnoff_eol in Hlang. destruct (rest m) as [|d tl]; [by apply elem_of_nil in Hin|].
    simpl in Hlang. apply andb_true_iff in Hlang as [Hd Htl].
    destruct tl; [|done]. apply list_elem_of_singleton in Hin as ->.
    apply newline_shortcut_char in Hd. congruence.
Qed.

(** [re_spnoff] starts with [^] and is compiled without MULTILINE: it
    matches at the start of the text only. *)
Lemma spnoff_needs_start p c s k :
  backtrack Patterns.no_flags Patterns.re_spnoff
    {| pos := p; prev := Some c; rest := s; caps := [] |} k = None.
Proof. reflexivity. Qed.

Lemma sub_from_copy whole s : forall p c,
  sub_from Patterns.no_flags Patterns.re_spnoff Parsers.expand whole p (Some c)
    0 s = s.
Proof.
  induction s as [|d s IH]; intros p c; cbn [sub_from];
    rewrite spnoff_needs_start; [done|]. by rewrite IH.
Qed.

Lemma sub_from_skip whole n : forall s p c,
  sub_from Patterns.no_flags Patterns.re_spnoff Parsers.expand whole p (Some c)
    n s = drop n s.
Proof.
  induction n as [|n IH]; intros s p c.
  - apply sub_from_copy.
  - destruct s as [|d s]; cbn [sub_from]; [done|]. by rewrite IH.
Qed.

(** What [expand_shortcuts] returns in terms of the match at the start. *)
Lemma expand_shortcuts_at_start arg :
  Parsers.expand_shortcuts arg true
  = match re_match Patterns.no_flags Patterns.re_spnoff arg with
    | Some m => Parsers.expand arg m ++ drop (pos m) arg
    | None => arg
    end.
Proof.
  unfold Parsers.expand_shortcuts, re_sub, re_match.
  destruct arg as [|c s]; cbn [sub_from].
  - destruct (backtrack _ _ _ _) as [m|]; [|done]. by rewrite drop_nil.
  - destruct (backtrack _ _ _ _) as [m|].
    + f_equal. destruct (pos m) as [|n] eqn:Ep; simpl.
      * by rewrite sub_from_copy.
      * rewrite sub_from_skip. by rewrite Nat.sub_0_r.
    + by rewrite sub_from_copy.
Qed.

(** X9.  A token with a character that is no blank, digit or colon, such
    as a class name, comes out of [expand_shortcuts] as it went in, under
    either value of [is_bs]. *)
Theorem expand_shortcuts_keeps_names arg is_bs c :
  c ∈ arg -> shortcut_char c = false ->
  Parsers.expand_shortcuts arg is_bs = arg.
Proof.
  intros Hin Hc. destruct is_bs; [|done].
  by rewrite expand_shortcuts_at_start, (spnoff_no_match arg c).
Qed.

Lemma expand_shortcuts_keeps_names_witness :
  ("s"%char ∈ T "span4 offset1" /\ shortcut_char "s" = false) /\
  Parsers.expand_shortcuts (T "span4 offset1") true = T "span4 offset1".
Proof.
  assert (H1 : "s"%char ∈ T "span4 offset1") by (by left).
  assert (H2 : shortcut_char "s" = false) by reflexivity.
  split; [split; [exact H1 | exact H2]|].
  exact (expand_shortcuts_keeps_names _ true _ H1 H2).
Defined.

(** ** Expanded shortcuts *)

(** The match of [re_spnoff] on a number between blanks. *)
Lemma spnoff_span w0 c d w3 :
  spaces w0 -> is_digit c = true -> Forall (fun x => is_digit x = true) d ->
  spaces w3 ->
  let arg := w0 ++ c :: d ++ w3 in
  exists m, re_match Patterns.no_flags Patterns.re_spnoff arg = Some m /\
    group arg m 1 = PyStr (c :: d) /\ group arg m 3 = PyNone /\
    pos m = length arg.
Proof.
  intros Hw0 Hc Hd Hw3 arg. unfold arg.
  unfold re_match, Patterns.re_spnoff, Seq, Plus.
  cbn [foldr backtrack at_bol bol prev rest].
  eexists. split; [|split; [|split]].
  - apply star_upto; [done|by apply spaces_cls|by apply digit_stops_ws|].
    cbn [rest eat]. rewrite digits_match, Hc. cbn [rest advance].
    apply star_upto; [done|by apply digits_cls|by apply spaces_stop_digits|].
    cbn [rest set_cap eat].
    rewrite (star_fail _ w3); [| |done].
    2:{ intros st' [pre Hs]. destruct (rest st') as [|c0 s]; [done|].
        by rewrite (blank_not_colon w3 c0 s pre). }
    apply star_all; [done|by apply spaces_cls|].
    cbn [rest set_cap eat star at_eol eol]. reflexivity.
  - unfold group. cbn [caps eat set_cap advance pos cap_lookup Nat.eqb].
    f_equal. apply (slice_app _ w0 (c :: d) w3); [done|simpl; lia|simpl; lia].
  - reflexivity.
  - cbn [pos eat set_cap advance].
    repeat first [rewrite length_app | rewrite length_cons]. lia.
Qed.

(** The match of [re_spnoff] on two numbers around a colon. *)
Lemma spnoff_span_offset w0 c1 d1 w1 w2 c2 d2 w3 :
  spaces w0 -> is_digit c1 = true -> Forall (fun x => is_digit x = true) d1 ->
  spaces w1 -> spaces w2 ->
  is_digit c2 = true -> Forall (fun x => is_digit x = true) d2 ->
  spaces w3 ->
  let arg := w0 ++ c1 :: d1 ++ w1 ++ ":"%char :: w2 ++ c2 :: d2 ++ w3 in
  exists m, re_match Patterns.no_flags Patterns.re_spnoff arg = Some m /\
    group arg m 1 = PyStr (c1 :: d1) /\ group arg m 3 = PyStr (c2 :: d2) /\
    pos m = length arg.
Proof.
  intros Hw0 Hc1 Hd1 Hw1 Hw2 Hc2 Hd2 Hw3 arg. unfold arg.
  unfold re_match, Patterns.re_spnoff, Seq, Plus.
  cbn [foldr backtrack at_bol bol prev rest].
  eexists. split; [|split; [|split]].
  - apply star_upto; [done|by apply spaces_cls|by apply digit_stops_ws|].
    cbn [rest eat]. rewrite digits_match, Hc1. cbn [rest advance].
    apply star_upto; [done|by apply digits_cls|by apply colon_stops_digits|].
    cbn [rest set_cap eat].
    erewrite (star_upto _ w1 (":"%char :: w2 ++ c2 :: d2 ++ w3));
      [reflexivity|done|by apply spaces_cls|by cbn [stops]; rewrite ws_match|].
    cbn [rest eat]. replace (lit_match Patterns.no_flags ":" ":") with true by done.
    cbn [rest advance].
    apply star_upto; [done|by apply spaces_cls|by apply digit_stops_ws|].
    cbn [rest eat]. rewrite digits_match, Hc2. cbn [rest advance].
    apply star_upto; [done|by apply digits_cls|by apply spaces_stop_digits|].
    cbn [rest set_cap eat].
    apply star_all; [done|by apply spaces_cls|].
    cbn [rest set_cap eat star at_eol eol]. reflexivity.
  - unfold group. cbn [caps eat set_cap advance pos cap_lookup Nat.eqb].
    f_equal.
    apply (slice_app _ w0 (c1 :: d1) (w1 ++ ":"%char :: w2 ++ c2 :: d2 ++ w3));
      [done|simpl; lia|simpl; lia].
  - unfold group. cbn [caps eat set_cap advance pos cap_lookup Nat.eqb].
    f_equal.
    apply (slice_app _ (w0 ++ c1 :: d1 ++ w1 ++ ":"%char :: w2) (c2 :: d2) w3).
    + by rewrite <- !app_assoc, <- !app_comm_cons, <- !app_assoc.
    + repeat first [rewrite length_app | rewrite length_cons]. lia.
    + repeat first [rewrite length_app | rewrite length_cons]. lia.
  - cbn [pos eat set_cap advance].
    repeat first [rewrite length_app | rewrite length_cons]. lia.
Qed.

(** X10.  A number, with blanks before or after it, is expanded to [span]
    and the number: the blanks are dropped, as a match of [re_spnoff]
    spans the whole token. *)
Theorem expand_shortcuts_span w0 c d w3 :
  spaces w0 -> is_digit c = true -> Forall (fun x => is_digit x = true) d ->
  spaces w3 ->
  Parsers.expand_shortcuts (w0 ++ c :: d ++ w3) true = T "span" ++ c :: d.
Proof.
  intros Hw0 Hc Hd Hw3.
  destruct (spnoff_span w0 c d w3 Hw0 Hc Hd Hw3) as (m & Hm & H1 & H3 & Hp).
  rewrite expand_shortcuts_at_start, Hm. unfold Parsers.expand.
  rewrite H1, H3, Hp, drop_all. cbn [py_str truthy]. by rewrite !app_nil_r.
Qed.

(** X11.  Two numbers around a colon, with blanks anywhere but inside the
    numbers, are expanded to [span] and the first number, a blank, and
    [offset] and the second. *)
Theorem expand_shortcuts_span_offset w0 c1 d1 w1 w2 c2 d2 w3 :
  spaces w0 -> is_digit c1 = true -> Forall (fun x => is_digit x = true) d1 ->
  spaces w1 -> spaces w2 ->
  is_digit c2 = true -> Forall (fun x => is_digit x = true) d2 ->
  spaces w3 ->
  Parsers.expand_shortcuts
    (w0 ++ c1 :: d1 ++ w1 ++ ":"%char :: w2 ++ c2 :: d2 ++ w3) true
  = T "span" ++ c1 :: d1 ++ T " offset" ++ c2 :: d2.
Proof.
  intros Hw0 Hc1 Hd1 Hw1 Hw2 Hc2 Hd2 Hw3.
  destruct (spnoff_span_offset w0 c1 d1 w1 w2 c2 d2 w3
              Hw0 Hc1 Hd1 Hw1 Hw2 Hc2 Hd2 Hw3) as (m & Hm & H1 & H3 & Hp).
  rewrite expand_shortcuts_at_start, Hm. unfold Parsers.expand.
  rewrite H1, H3, Hp, drop_all. cbn [py_str truthy].
  by rewrite app_nil_r.
Qed.

Lemma expand_shortcuts_span_witness :
  (spaces (T " ") /\ is_digit "1" = true /\
   Forall (fun x => is_digit x = true) (T "2") /\ spaces (T " ")) /\
  Parsers.expand_shortcuts (T " 12 ") true = T "span12".
Proof.
  assert (H0 : spaces (T " ")) by (by repeat constructor).
  assert (H1 : is_digit "1" = true) by reflexivity.
  assert (H2 : Forall (fun x => is_digit x = true) (T "2"))
    by (by repeat constructor).
  split; [done|].
  exact (expand_shortcuts_span (T " ") "1" (T "2") (T " ") H0 H1 H2 H0).
Defined.

Lemma expand_shortcuts_span_offset_witness :
  (spaces [] /\ is_digit "4" = true /\
   Forall (fun x => is_digit x = true) [] /\ spaces (T " ") /\
   is_digit "1" = true) /\
  Parsers.expand_shortcuts (T "4: 1") true = T "span4 offset1".
Proof.
  assert (H0 : spaces []) by constructor.
  assert (Hs : spaces (T " ")) by (by repeat constructor).
  assert (H4 : is_digit "4" = true) by reflexivity.
  assert (H1 : is_digit "1" = true) by reflexivity.
  assert (Hd : Forall (fun x => is_digit x = true) []) by constructor.
  split; [done|].
  exact (expand_shortcuts_span_offset [] "4" [] [] (T " ") "1" [] []
           H0 H4 Hd H0 Hs H1 Hd H0).
Defined.

(** ** Command patterns *)

Lemma dot_match c :
  cls_match Patterns.re_flags Patterns.dot c = negb (chr_eqb c newline).
Proof. all_chars c; reflexivity. Qed.

Lemma line_dots (l : text) :
  is_line l -> Forall (fun c => cls_match Patterns.re_flags Patterns.dot c = true) l.
Proof.
  unfold is_line. intros H. apply Forall_forall. intros c Hc.
  rewrite dot_match. destruct (chr_eqb c newline) eqn:E; [|done].
  apply chr_eqb_eq in E as ->. done.
Qed.

(** The match of [Patterns.tag] on a line as [replace_markers] writes
    them. *)
Lemma tag_match (body : text) :
  is_line body ->
  let line := newline :: T "<!--grid:" ++ body ++ T "-->" in
  exists m, re_match Patterns.re_flags Patterns.tag line = Some m /\
    group line m 1 = PyStr body /\ rest m = [].
Proof.
  intros Hb line. unfold line.
  unfold re_match, Patterns.tag.
  cbn [Seq foldr backtrack rest].
  eexists. split; [|split].
  - apply (star_upto _ [newline] (T "<!--grid:" ++ body ++ T "-->"));
      [done|by repeat constructor|done|].
    rewrite (backtrack_Str _ _ (body ++ T "-->")) by done.
    cbn [rest eat pos].
    apply star_backoff; [done|by apply line_dots| |].
    + intros st' Hs Hne. destruct st' as [p pv r cs]. cbn [rest] in Hs, Hne.
      apply suffix_cons_cases in Hs as [->|Hs]; [done|].
      apply suffix_cons_cases in Hs as [->|Hs]; [done|].
      apply suffix_cons_cases in Hs as [->|Hs]; [done|].
      apply suffix_nil_inv in Hs as ->. done.
    + rewrite (backtrack_Str _ _ []) by done.
      cbn [rest eat star set_cap]. reflexivity.
  - unfold group. cbn [caps eat set_cap pos cap_lookup Nat.eqb].
    f_equal.
    apply (slice_app _ (newline :: T "<!--grid:") body (T "-->"));
      [done|simpl; lia|simpl; lia].
  - reflexivity.
Qed.

(** X12.  [Patterns.tag] reads back what [replace_markers] wrote: it
    matches the whole of the line written for a command sequence, the
    line break at its start included, and its group is the text of the
    commands, when that text has no line break. *)
Theorem tag_round_trip (obj_repr : GridCmdInfo -> text) commands :
  let body := join (T ";") (map (entry_str obj_repr) commands) in
  let line := tag obj_repr commands in
  is_line body ->
  exists m, re_match Patterns.re_flags Patterns.tag line = Some m /\
    group line m 1 = PyStr body /\ rest m = [].
Proof. intros body line Hb. by apply tag_match. Qed.

Lemma tag_round_trip_witness :
  is_line (join (T ";") (map (entry_str (fun _ => []))
    [Cmd (new_cmd COL_CLOSE);
     Cmd (set_style (new_cmd COL_OPEN) (PyStr (T "span4")))])) /\
  exists m,
    re_match Patterns.re_flags Patterns.tag
      (newline :: T "<!--grid:endcol;col(span4)-->") = Some m /\
    group (newline :: T "<!--grid:endcol;col(span4)-->") m 1
    = PyStr (T "endcol;col(span4)") /\
    rest m = [].
Proof.
  assert (H : is_line (join (T ";") (map (entry_str (fun _ => []))
    [Cmd (new_cmd COL_CLOSE);
     Cmd (set_style (new_cmd COL_OPEN) (PyStr (T "span4")))]))).
  { unfold is_line. intros Hin. vm_compute in Hin.
    repeat (apply elem_of_cons in Hin as [Hin|Hin]; [discriminate Hin|]).
    by apply elem_of_nil in Hin. }
  split; [exact H|].
  exact (tag_round_trip (fun _ => [])
    [Cmd (new_cmd COL_CLOSE);
     Cmd (set_style (new_cmd COL_OPEN) (PyStr (T "span4")))] H).
Defined.

Lemma col_cmd_text c :
  cmdtype c = COL_OPEN -> cmd_str c = T "col" ++ "("%char :: style_text c ++ T ")".
Proof. unfold cmd_str, style_text. by intros ->. Qed.

Lemma paren_stops_col_args :
  stops (cls_match Patterns.re_flags Patterns.col_args) (T ")").
Proof. reflexivity. Qed.

(** X13.  [col_open_cmd] matches the text of a [COL_OPEN] command whose
    style is a non-empty text of digits, blanks, colons and commas, and
    its group is that style. *)
Theorem col_open_cmd_reads_numbers c x s :
  cmdtype c = COL_OPEN -> style_text c = x :: s ->
  Forall (fun y => cls_match Patterns.re_flags Patterns.col_args y = true)
    (x :: s) ->
  exists m,
    re_match Patterns.re_flags Patterns.col_open_cmd (cmd_str c) = Some m /\
    group (cmd_str c) m 1 = PyStr (style_text c).
Proof.
  intros Hc Hs Hall. rewrite (col_cmd_text c Hc), Hs.
  apply Forall_cons in Hall as [Hx Hall].
  unfold re_match, Patterns.col_open_cmd, Plus.
  cbn [Seq foldr backtrack at_bol bol prev rest].
  eexists. split.
  - rewrite star_stop by done.
    rewrite (backtrack_Str _ _ ("("%char :: (x :: s) ++ T ")")) by done.
    cbn [rest eat]. rewrite star_stop by done.
    cbn [rest eat]. replace (lit_match Patterns.re_flags "(" "(") with true by done.
    cbn [rest advance app]. rewrite Hx. cbn [rest advance].
    apply star_upto; [done|done|done|].
    cbn [rest eat set_cap]. replace (lit_match Patterns.re_flags ")" ")") with true by done.
    cbn [rest advance star at_eol eol]. reflexivity.
  - unfold group. cbn [caps eat set_cap advance pos cap_lookup Nat.eqb].
    f_equal. apply (slice_app _ (T "col(") (x :: s) (T ")"));
      [done|simpl; lia|simpl; lia].
Qed.

Lemma col_open_cmd_reads_numbers_witness :
  (cmdtype (set_style (new_cmd COL_OPEN) (PyStr (T "4, 6"))) = COL_OPEN /\
   style_text (set_style (new_cmd COL_OPEN) (PyStr (T "4, 6"))) = T "4, 6") /\
  exists m,
    re_match Patterns.re_flags Patterns.col_open_cmd (T "col(4, 6)") = Some m /\
    group (T "col(4, 6)") m 1 = PyStr (T "4, 6").
Proof.
  assert (H1 : cmdtype (set_style (new_cmd COL_OPEN) (PyStr (T "4, 6")))
               = COL_OPEN) by reflexivity.
  assert (H2 : style_text (set_style (new_cmd COL_OPEN) (PyStr (T "4, 6")))
               = "4"%char :: T ", 6") by reflexivity.
  assert (H3 : Forall
    (fun y => cls_match Patterns.re_flags Patterns.col_args y = true)
    ("4"%char :: T ", 6")) by (by repeat constructor).
  split; [by split|].
  exact (col_open_cmd_reads_numbers _ "4" (T ", 6") H1 H2 H3).
Defined.

(** X14.  [col_open_cmd] does not match the text of a [COL_OPEN] command
    whose style is empty or starts with a character that is no digit,
    blank, colon or comma: the columns without a style, with the style
    [None] and with a class name such as [span4] are not recognised. *)
Theorem col_open_cmd_rejects_names c :
  cmdtype c = COL_OPEN ->
  stops (cls_match Patterns.re_flags Patterns.col_args) (style_text c) ->
  re_match Patterns.re_flags Patterns.col_open_cmd (cmd_str c) = None.
Proof.
  intros Hc Hs. rewrite (col_cmd_text c Hc).
  unfold re_match, Patterns.col_open_cmd, Plus.
  cbn [Seq foldr backtrack at_bol bol prev rest].
  rewrite star_stop by done.
  rewrite (backtrack_Str _ _ ("("%char :: style_text c ++ T ")")) by done.
  cbn [rest eat]. rewrite star_stop by done.
  cbn [rest eat]. replace (lit_match Patterns.re_flags "(" "(") with true by done.
  cbn [rest advance].
  destruct (style_text c) as [|x s]; cbn [app]; [done|].
  cbn [stops] in Hs. by rewrite Hs.
Qed.

Lemma col_open_cmd_rejects_names_witness :
  (cmdtype (set_style (new_cmd COL_OPEN) (PyStr (T "span4"))) = COL_OPEN /\
   stops (cls_match Patterns.re_flags Patterns.col_args)
     (style_text (set_style (new_cmd COL_OPEN) (PyStr (T "span4"))))) /\
  re_match Patterns.re_flags Patterns.col_open_cmd (T "col(span4)") = None.
Proof.
  assert (H1 : cmdtype (set_style (new_cmd COL_OPEN) (PyStr (T "span4")))
               = COL_OPEN) by reflexivity.
  assert (H2 : stops (cls_match Patterns.re_flags Patterns.col_args)
                 (style_text (set_style (new_cmd COL_OPEN) (PyStr (T "span4")))))
    by reflexivity.
  split; [by split|].
  exact (col_open_cmd_rejects_names _ H1 H2).
Defined.

(** X15.  The four command patterns tell the command types apart: a
    pattern matches the text of a command of its own type only, and the
    patterns of [ROW_OPEN], [ROW_CLOSE] and [COL_CLOSE] match the text of
    every command of their type. *)
Theorem command_patterns_tell_types c t :
  (is_Some (re_match Patterns.re_flags (cmd_pattern t) (cmd_str c)) ->
   cmdtype c = t) /\
  (cmdtype c = t -> t <> COL_OPEN ->
   is_Some (re_match Patterns.re_flags (cmd_pattern t) (cmd_str c))).
Proof.
  destruct c as [ct st]. unfold cmd_str. cbn [cmdtype style].
  split.
  - destruct ct, t; try done; intros [m Hm]; exfalso; revert Hm;
      destruct st as [[|s]|]; vm_compute; discriminate.
  - intros <- Ht. destruct ct; try done; vm_compute; eauto.
Qed.

(** ** The whole pass *)

Section PassFacts.

Variable obj_repr : GridCmdInfo -> text.
Variable parse_args : pyval -> pyval -> result (list text).

(** What a line does to the command mapping. *)
Lemma step_cmds profile st n line st' :
  step parse_args profile st n line = Ok st' ->
  cmds st' = match prescribed (classify line) with
             | Some commands => <[n := commands]> (cmds st)
             | None => cmds st
             end.
Proof.
  unfold step. destruct (classify line) as [args| | |]; simpl.
  - destruct (parse_args args profile); simpl; [|done]. by intros [= <-].
  - destruct (row_stack st); [done|]. by intros [= <-].
  - destruct (row_stack st) as [|top stack]; [done|].
    destruct (r2c st !! top); [|done]. by intros [= <-].
  - by intros [= <-].
Qed.

(** After the loop the command mapping holds, at the number of each
    line, the sequence prescribed for it, and nothing else above the
    first line number. *)
Lemma scan_cmds profile lines : forall st n st',
  0 <= n -> keys_below n (cmds st) ->
  scan parse_args profile st n lines = Ok st' ->
  (forall k, k < n -> cmds st' !! k = cmds st !! k) /\
  (forall i line, lines !! i = Some line ->
     cmds st' !! (n + Z.of_nat i) = prescribed (classify line)).
Proof.
  induction lines as [|l lines IH]; intros st n st' Hn Hk; simpl.
  - intros [= <-]. split; [done|]. intros i line Hi. by destruct i.
  - destruct (step parse_args profile st n l) as [st1|e] eqn:E; simpl; [|done].
    intros Hs. pose proof (step_cmds _ _ _ _ _ E) as Hc.
    assert (Hk1 : keys_below (n + 1) (cmds st1)).
    { rewrite Hc. destruct (prescribed (classify l)).
      - by apply keys_below_insert.
      - eapply keys_below_mono; [|done]. lia. }
    destruct (IH st1 (n + 1) st' ltac:(lia) Hk1 Hs) as [Hlow Hat].
    split.
    + intros k Hlt. rewrite Hlow by lia. rewrite Hc.
      destruct (prescribed (classify l)); [|done].
      rewrite lookup_insert_ne by lia. done.
    + intros [|i] line Hi; simpl in Hi.
      * injection Hi as ->. rewrite Z.add_0_r, Hlow by lia. rewrite Hc.
        destruct (prescribed (classify line)).
        { by rewrite lookup_insert_eq. }
        by apply keys_below_fresh.
      * replace (n + Z.of_nat (S i)) with (n + 1 + Z.of_nat i) by lia.
        by apply Hat.
Qed.

Lemma prescribed_erased m commands :
  prescribed m = Some commands -> map erase commands = commands.
Proof. destruct m; simpl; intros [= <-]; done. Qed.

(** The lines of what [run] returns. *)
Lemma run_with_lines config (lines out : list text) :
  run_with obj_repr parse_args config lines = Ok out ->
  length out = length lines /\
  forall i line, lines !! i = Some line ->
    match prescribed (classify line) with
    | None => out !! i = Some line
    | Some prescribed_commands =>
        exists commands,
          map erase commands = prescribed_commands /\
          out !! i = Some (tag obj_repr commands)
    end.
Proof.
  unfold run_with.
  destruct (parse_markers_with parse_args _ lines) as [[[rws cms] rc]|e] eqn:Ep;
    simpl; [|done].
  destruct (populate_cmd_params rws cms rc _) as [cms'|e] eqn:Epop;
    simpl; [|done].
  unfold replace_markers. intros Hrep.
  unfold parse_markers_with in Ep.
  destruct (scan parse_args _ init 0 lines) as [st|e] eqn:Es; simpl in Ep;
    [|done].
  destruct init_invariant as [Hk0 Hc0].
  destruct (scan_invariant _ _ _ _ _ _ (Z.le_refl 0) Hk0 Hc0 Es) as [Hk _].
  rewrite (close_rows_keys_below _ _ _ Hk) in Ep.
  destruct (row_stack st); [|done]. injection Ep as <- <- <-.
  destruct (scan_cmds _ _ _ _ _ (Z.le_refl 0) Hk0 Es) as [_ Hat].
  pose proof (fill_rows_erase _ _ _ _ _ _ Epop) as Hpop.
  rewrite Z.add_0_l in Hk.
  assert (Hkeys : forall k v, cms' !! k = Some v ->
            0 <= k < Z.of_nat (length lines)).
  { intros k v Hv. apply Hk. specialize (Hpop k). rewrite Hv in Hpop.
    destruct (cmds st !! k); [eauto|done]. }
  destruct (replace_each_spec obj_repr (map_to_list cms') lines)
    as (out' & Ho & Hlen & Hkeep & Hput).
  { apply Forall_forall. intros [k v] Hin. apply elem_of_map_to_list in Hin.
    apply Hkeys in Hin. unfold valid_index. simpl. lia. }
  rewrite Ho in Hrep. injection Hrep as ->.
  split; [done|]. intros i line Hi.
  specialize (Hat i line Hi). rewrite Z.add_0_l in Hat.
  pose proof (Hpop (Z.of_nat i)) as Hp. rewrite Hat in Hp.
  destruct (prescribed (classify line)) as [pc|] eqn:Epc.
  - destruct (cms' !! Z.of_nat i) as [commands|] eqn:Ec; [|done].
    simpl in Hp. injection Hp as Hp.
    rewrite (prescribed_erased _ _ Epc) in Hp.
    exists commands. split; [done|].
    destruct (Hput (Z.of_nat i, commands)) as ([k' v'] & Hin' & Hidx & Hout).
    { by apply elem_of_map_to_list. }
    simpl in Hidx, Hout. apply elem_of_map_to_list in Hin'.
    pose proof (Hkeys _ _ Hin') as Hr.
    assert (Hi' : index (length lines) (Z.of_nat i) = i).
    { unfold index. destruct (Z.ltb_spec (Z.of_nat i) 0); lia. }
    assert (k' = Z.of_nat i) as ->.
    { rewrite Hi' in Hidx. unfold index in Hidx.
      destruct (Z.ltb_spec k' 0); lia. }
    rewrite Hi' in Hout. rewrite Ec in Hin'. by injection Hin' as ->.
  - rewrite Hkeep; [done|]. intros [k v] Hin. simpl.
    apply elem_of_map_to_list in Hin. pose proof (Hkeys _ _ Hin) as Hr.
    intros Hidx. unfold index in Hidx.
    destruct (Z.ltb_spec k 0); [lia|].
    assert (k = Z.of_nat i) as -> by lia.
    rewrite Hin in Hp. done.
Qed.

(** X16.  Whatever the argument parser, when [run] returns it has kept
    the number of lines and every line that is no marker, and has put in
    the place of each marker line the tag of the commands prescribed for
    its marker, on which only styles are set. *)
Theorem run_rewrites_marker_lines config (lines out : list text) :
  run_with obj_repr parse_args config lines = Ok out ->
  length out = length lines /\
  forall i line, lines !! i = Some line ->
    match prescribed (classify line) with
    | None => out !! i = Some line
    | Some prescribed_commands =>
        exists commands,
          map erase commands = prescribed_commands /\
          out !! i = Some (tag obj_repr commands)
    end.
Proof. apply run_with_lines. Qed.

(** X17.  The pass is idempotent: what [run] returns has no marker line
    left, so a second pass, with any argument parser and configuration,
    returns it as it is. *)
Theorem run_twice parse_args' config config' (lines out : list text) :
  run_with obj_repr parse_args config lines = Ok out ->
  Forall (fun line => classify line = NotAMarker) out /\
  run_with obj_repr parse_args' config' out = Ok out.
Proof.
  intros H. destruct (run_with_lines _ _ _ H) as [Hlen Hat].
  assert (Hout : Forall (fun line => classify line = NotAMarker) out).
  { apply Forall_lookup. intros i l Hl.
    destruct (lines !! i) as [line|] eqn:Hi.
    2:{ apply lookup_ge_None in Hi. apply lookup_lt_Some in Hl. lia. }
    specialize (Hat i line Hi).
    destruct (prescribed (classify line)) as [pc|] eqn:Epc.
    - destruct Hat as (commands & _ & Ho). rewrite Hl in Ho.
      injection Ho as ->. apply classify_not_a_marker.
      repeat split; intros Hm;
        eapply marker_starts_with_dashes in Hm as (w & p & Hw & E); eauto;
        by apply (tag_no_dashes obj_repr commands w p).
    - rewrite Hl in Hat. injection Hat as ->.
      by destruct (classify line). }
  split; [done|].
  unfold run_with, parse_markers_with.
  rewrite scan_no_markers by done. simpl.
  unfold populate_cmd_params, replace_markers.
  rewrite !map_to_list_empty. done.
Qed.

(** What a line does to the row mapping. *)
Lemma step_rows profile st n line st' :
  step parse_args profile st n line = Ok st' ->
  rows st' = match declared parse_args profile (classify line) with
             | Some styles => <[n := styles]> (rows st)
             | None => rows st
             end.
Proof.
  unfold step, declared. destruct (classify line) as [args| | |]; simpl.
  - destruct (parse_args args profile); simpl; [|done]. by intros [= <-].
  - destruct (row_stack st); [done|]. by intros [= <-].
  - destruct (row_stack st) as [|top stack]; [done|].
    destruct (r2c st !! top); [|done]. by intros [= <-].
  - by intros [= <-].
Qed.

Lemma scan_rows profile lines : forall st n st',
  (forall k, n <= k -> rows st !! k = None) ->
  scan parse_args profile st n lines = Ok st' ->
  (forall k, k < n -> rows st' !! k = rows st !! k) /\
  (forall k, n + Z.of_nat (length lines) <= k -> rows st' !! k = None) /\
  (forall i line, lines !! i = Some line ->
     rows st' !! (n + Z.of_nat i)
     = declared parse_args profile (classify line)).
Proof.
  induction lines as [|l lines IH]; intros st n st' Hk; simpl.
  - intros [= <-]. split; [done|]. split.
    + intros k Hge. apply Hk. lia.
    + intros i line Hi. by destruct i.
  - destruct (step parse_args profile st n l) as [st1|e] eqn:E; simpl; [|done].
    intros Hs. pose proof (step_rows _ _ _ _ _ E) as Hr.
    assert (Hk1 : forall k, n + 1 <= k -> rows st1 !! k = None).
    { intros k Hge. rewrite Hr.
      destruct (declared parse_args profile (classify l)).
      - rewrite lookup_insert_ne by lia. apply Hk. lia.
      - apply Hk. lia. }
    destruct (IH st1 (n + 1) st' Hk1 Hs) as (Hlow & Hhigh & Hat).
    split; [|split].
    + intros k Hlt. rewrite Hlow by lia. rewrite Hr.
      destruct (declared parse_args profile (classify l)); [|done].
      rewrite lookup_insert_ne by lia. done.
    + intros k Hge. apply Hhigh. lia.
    + intros [|i] line Hi; simpl in Hi.
      * injection Hi as ->. rewrite Z.add_0_r, Hlow by lia. rewrite Hr.
        destruct (declared parse_args profile (classify line)).
        { by rewrite lookup_insert_eq. }
        apply Hk. lia.
      * replace (n + Z.of_nat (S i)) with (n + 1 + Z.of_nat i) by lia.
        by apply Hat.
Qed.

(** X18.  Whatever the argument parser, when [parse_markers] returns the
    command mapping and the row mapping have the line numbers of the
    marker lines and of the row-open lines as their keys, and nothing
    else: the first holds the sequence prescribed for the marker, the
    second the styles the argument parser read. *)
Theorem parse_markers_keys profile (lines : list text) rws cms rc :
  parse_markers_with parse_args profile lines = Ok (rws, cms, rc) ->
  (forall i line, lines !! i = Some line ->
     cms !! Z.of_nat i = prescribed (classify line) /\
     rws !! Z.of_nat i = declared parse_args profile (classify line)) /\
  (forall k, ~ 0 <= k < Z.of_nat (length lines) ->
     cms !! k = None /\ rws !! k = None).
Proof.
  unfold parse_markers_with.
  destruct (scan parse_args _ init 0 lines) as [st|e] eqn:Es; simpl; [|done].
  destruct init_invariant as [Hk0 Hc0].
  destruct (scan_invariant _ _ _ _ _ _ (Z.le_refl 0) Hk0 Hc0 Es) as [Hk _].
  rewrite (close_rows_keys_below _ _ _ Hk).
  destruct (row_stack st); simpl; [|done]. intros [= <- <- <-].
  destruct (scan_cmds _ _ _ _ _ (Z.le_refl 0) Hk0 Es) as [_ Hat].
  destruct (scan_rows profile lines init 0 st) as (Hlow & Hhigh & Hrat);
    [done|done|].
  split.
  - intros i line Hi. split.
    + by rewrite <- (Hat i line Hi), Z.add_0_l.
    + by rewrite <- (Hrat i line Hi), Z.add_0_l.
  - intros k Hout. rewrite Z.add_0_l in Hk, Hhigh. split.
    + destruct (cmds st !! k) eqn:E; [|done]. exfalso. apply Hout, Hk. eauto.
    + destruct (Z.lt_ge_cases k 0) as [Hneg|Hpos].
      * by rewrite Hlow.
      * apply Hhigh. lia.
Qed.

End PassFacts.

Lemma run_twice_witness :
  run_with (fun _ => []) split_only ∅ three_columns_doc
  = Ok [newline :: T "<!--grid:row;col(span4)-->"; T "left";
        newline :: T "<!--grid:endcol;col(span6)-->"; T "middle";
        newline :: T "<!--grid:endcol;col(None)-->"; T "right";
        newline :: T "<!--grid:endcol;endrow-->"] /\
  run (fun _ => []) ∅
    [newline :: T "<!--grid:row;col(span4)-->"; T "left";
     newline :: T "<!--grid:endcol;col(span6)-->"; T "middle";
     newline :: T "<!--grid:endcol;col(None)-->"; T "right";
     newline :: T "<!--grid:endcol;endrow-->"]
  = Ok [newline :: T "<!--grid:row;col(span4)-->"; T "left";
        newline :: T "<!--grid:endcol;col(span6)-->"; T "middle";
        newline :: T "<!--grid:endcol;col(None)-->"; T "right";
        newline :: T "<!--grid:endcol;endrow-->"].
Proof.
  assert (H : run_with (fun _ => []) split_only ∅ three_columns_doc
    = Ok [newline :: T "<!--grid:row;col(span4)-->"; T "left";
          newline :: T "<!--grid:endcol;col(span6)-->"; T "middle";
          newline :: T "<!--grid:endcol;col(None)-->"; T "right";
          newline :: T "<!--grid:endcol;endrow-->"])
    by (vm_compute; reflexivity).
  split; [exact H|].
  exact (proj2 (run_twice _ _ Parsers.parse_row_args _ ∅ _ _ H)).
Defined.

Lemma parse_markers_keys_witness :
  parse_markers_with split_only PyNone three_columns_doc
  = Ok (two_styles_rows, three_columns_cmds, three_columns_r2c) /\
  three_columns_cmds !! 2 = Some [Cmd (new_cmd COL_CLOSE); Cmd (new_cmd COL_OPEN)] /\
  two_styles_rows !! 2 = None.
Proof.
  pose proof three_columns_parse as H.
  split; [exact H|].
  exact (proj1 (parse_markers_keys split_only PyNone three_columns_doc _ _ _ H)
           2%nat (T "--") eq_refl).
Defined.

Lemma run_rewrites_marker_lines_witness :
  run_with (fun _ => []) split_only ∅ three_columns_doc
  = Ok [newline :: T "<!--grid:row;col(span4)-->"; T "left";
        newline :: T "<!--grid:endcol;col(span6)-->"; T "middle";
        newline :: T "<!--grid:endcol;col(None)-->"; T "right";
        newline :: T "<!--grid:endcol;endrow-->"] /\
  length [newline :: T "<!--grid:row;col(span4)-->"; T "left";
          newline :: T "<!--grid:endcol;col(span6)-->"; T "middle";
          newline :: T "<!--grid:endcol;col(None)-->"; T "right";
          newline :: T "<!--grid:endcol;endrow-->"]
  = length three_columns_doc.
Proof.
  assert (H : run_with (fun _ => []) split_only ∅ three_columns_doc
    = Ok [newline :: T "<!--grid:row;col(span4)-->"; T "left";
          newline :: T "<!--grid:endcol;col(span6)-->"; T "middle";
          newline :: T "<!--grid:endcol;col(None)-->"; T "right";
          newline :: T "<!--grid:endcol;endrow-->"])
    by (vm_compute; reflexivity).
  split; [exact H|].
  exact (proj1 (run_rewrites_marker_lines _ _ _ _ _ H)).
Defined.

(** ** The tokens of the arguments *)

Lemma split_on_length sep (s : text) :
  length (split_on sep s)
  = S (length (List.filter (fun c => chr_eqb c sep) s)).
Proof.
  induction s as [|c s IH]; simpl; [done|].
  destruct (chr_eqb c sep); simpl; [by rewrite IH|].
  destruct (split_on sep s) as [|w ws]; simpl in *; [done|]. done.
Qed.

Lemma split_on_single sep (s x : text) : split_on sep s = [x] -> x = s.
Proof.
  revert x. induction s as [|c s IH]; intros x; simpl.
  - by intros [= <-].
  - pose proof (split_on_length sep s) as Hl.
    destruct (chr_eqb c sep).
    + intros [= <- E]. by rewrite E in Hl.
    + destruct (split_on sep s) as [|w ws]; [done|].
      intros [= <- ->]. by rewrite (IH w).
Qed.

Lemma split_ws_nil (s : text) : forall w,
  split_ws w s = [] -> w = [] /\ spaces s.
Proof.
  induction s as [|c s IH]; intros w; simpl.
  - destruct w; [|done]. intros _. split; [done|constructor].
  - destruct (is_space c) eqn:Hc.
    + destruct w; [|done]. intros H. apply IH in H as [_ H].
      split; [done|]. by constructor.
    + intros H. apply IH in H as [H _]. by destruct w.
Qed.

Lemma join_nil (ws : list text) :
  Forall word ws -> join (T " ") ws = [] -> ws = [].
Proof.
  destruct ws as [|w ws]; [done|]. intros H. apply Forall_cons in H as [[Hw _] _].
  simpl. destruct ws; [done|]. by destruct w.
Qed.

(** X19.  Lines 216 to 219 of [parse_row_args] give no token for a blank
    text and otherwise one token more than there are commas: an empty
    token is dropped only when it is the only one, so a row can declare
    the empty style for a column. *)
Theorem split_args_count (s : text) :
  length (Parsers.split_args (PyStr s))
  = if forallb is_space s then 0%nat else S (commas s).
Proof.
  destruct (forallb is_space s) eqn:E.
  - rewrite split_args_blank; [done|]. apply Forall_forall. intros c Hc.
    rewrite forallb_forall in E. apply E. by apply list_elem_of_In.
  - unfold Parsers.split_args, commas. cbn [py_str].
    pose proof (split_on_length Parsers.DEFAULT_SEPARATOR s) as Hl.
    destruct (split_on Parsers.DEFAULT_SEPARATOR s) as [|x [|y l]] eqn:Es;
      [done| |].
    2:{ cbn [map]. simpl in Hl. injection Hl as <-.
        destruct (join (T " ") (py_split x)); simpl; by rewrite length_map. }
    apply split_on_single in Es as ->. cbn [map].
    destruct (join (T " ") (py_split s)) as [|c t] eqn:Ej; [|by rewrite <- Hl].
    exfalso. apply join_nil in Ej; [|by apply split_ws_words].
    apply split_ws_nil in Ej as [_ Hs].
    assert (forallb is_space s = true); [|congruence].
    apply forallb_forall. intros c Hc. unfold spaces in Hs.
    rewrite Forall_forall in Hs. apply Hs. by apply list_elem_of_In.
Qed.

(** ** The arguments of a row *)

(** X20.  The arguments [parse_markers] passes to the argument parser are
    the text between the blanks after [row] and the last [--] of the
    line: the blanks before them are left out, the blanks after them are
    part of them. *)
Theorem row_open_arguments w1 w2 x w3 body w5 :
  spaces w1 -> spaces w2 -> same_letters x (T "row") -> spaces w3 ->
  args_text body -> stops is_space body -> spaces w5 ->
  classify (w1 ++ T "--" ++ w2 ++ x ++ w3 ++ body ++ T "--" ++ w5)
  = RowOpenMarker (PyStr body).
Proof.
  intros H1 H2 Hx H3 Hb Hhead H5. unfold classify.
  destruct (row_open_match w1 w2 x w3 body w5 H1 H2 Hx H3 Hb Hhead H5)
    as (m & Hm & Hg).
  rewrite Hm. by rewrite Hg.
Qed.

Lemma row_open_arguments_witness :
  (same_letters (T "Row") (T "row") /\ args_text (T "4:1, span4 ") /\
   stops is_space (T "4:1, span4 ")) /\
  classify (T "--Row  4:1, span4 --") = RowOpenMarker (PyStr (T "4:1, span4 ")).
Proof.
  assert (H0 : spaces []) by constructor.
  assert (Hx : same_letters (T "Row") (T "row")) by reflexivity.
  assert (H3 : spaces (T "  ")) by (by repeat constructor).
  assert (Hb : args_text (T "4:1, span4 ")) by (by repeat constructor).
  assert (Hh : stops is_space (T "4:1, span4 ")) by reflexivity.
  split; [done|].
  exact (row_open_arguments [] [] (T "Row") (T "  ") (T "4:1, span4 ") []
           H0 H0 Hx H3 Hb Hh H0).
Defined.
